(** * Astra Neurocruit: the resume-matching back end

    A shallow embedding of the two back-end modules of the JD-match sample,
    [jd-match-BE/server.js] (query path: [parseLLMOutput],
    [retryWithExponentialBackoff], [extractJdTags], [findBestResumes],
    [copyFilteredPdfs] and the handler of [POST /api/match-resumes]) and
    [jd-match-BE/s3_extractor.js] (ingestion path: [parseLLMOutput],
    [retryWithExponentialBackoff], [extractTagsFromChunks], [saveToExcel],
    [processS3Bucket]), and of [handleSearch], the function of the dashboard
    page that calls the server, followed by the properties proved about
    them.

    Conventions of the embedding.
    - A JavaScript string is a [string]: a sequence of 8-bit code units.
    - A JavaScript object used as a record or as an ordered dictionary is an
      association list in property-enumeration order; [Sheets] of a workbook,
      which the code only uses as a map, is a [gmap].
    - An [async] function is a function on an explicit world: it takes the
      world and gives back a completion (a value or a thrown error) and the
      new world.  [console.log] and [console.error] are not modelled.
    - Doubles that hold integers are exact integers ([Z]); the code performs
      no other arithmetic. *)

From Stdlib Require Import ZArith List String Ascii Lia Bool DecimalString.
From Stdlib Require Import Sorting.Sorted.
From stdpp Require Import base list gmap strings.
From Equations Require Import Equations.
Import ListNotations.
Open Scope Z_scope.
Set Warnings "-register-all".

(** ** JavaScript values *)

(** The values that [JSON.parse] can produce, and [undefined].  A number is
    kept as the decimal [m * 10^e] it was written as; the properties of an
    object are listed in the order in which [Object.entries] enumerates
    them. *)
Inductive JsValue : Type :=
| JUndefined
| JNull
| JBool (b : bool)
| JNum (m e : Z)
| JStr (s : string)
| JArr (items : list JsValue)
| JObj (props : list (string * JsValue)).

(** The result of [parseInt]: [NaN] or an integer. *)
Inductive IntOrNaN : Type :=
| NaN
| Int (z : Z).

(** An error object; only [error.name] is ever inspected. *)
Record Error : Type := mkError { name : string; message : string }.

(** The completion of a call: a value, or a thrown error. *)
Inductive Completion (A : Type) : Type :=
| Return (a : A)
| Throw (e : Error).
Arguments Return {A} a.
Arguments Throw {A} e.

Module Js.

(** [!v] is false: the truthiness test of [if (!parsedContent)]. *)
Definition truthy (v : JsValue) : bool :=
  match v with
  | JUndefined | JNull => false
  | JBool b => b
  | JNum m _ => negb (m =? 0)
  | JStr s => negb (String.eqb s "")
  | JArr _ | JObj _ => true
  end.

(** [typeof v === 'object' && v !== null] *)
Definition is_object (v : JsValue) : bool :=
  match v with
  | JArr _ | JObj _ => true
  | _ => false
  end.

Definition string_of_nat (n : nat) : string :=
  NilZero.string_of_uint (Nat.to_uint n).

Fixpoint indexed {A} (i : nat) (l : list A) : list (string * A) :=
  match l with
  | [] => []
  | x :: l' => (string_of_nat i, x) :: indexed (S i) l'
  end.

Fixpoint chars (s : string) : list JsValue :=
  match s with
  | EmptyString => []
  | String c r => JStr (String c EmptyString) :: chars r
  end.

(** [Object.entries(v)], also the properties copied by a spread [...v]:
    the own enumerable properties in enumeration order. *)
Definition Object_entries (v : JsValue) : list (string * JsValue) :=
  match v with
  | JObj props => props
  | JArr items => indexed 0 items
  | JStr s => indexed 0 (chars s)
  | _ => []
  end.

(** [o[k] = v] on an object kept in insertion order: an existing property
    keeps its place and takes the new value, a new one goes last. *)
Fixpoint obj_set {V} (k : string) (v : V) (o : list (string * V))
  : list (string * V) :=
  match o with
  | [] => [(k, v)]
  | (k', v') :: o' =>
      if String.eqb k' k then (k', v) :: o' else (k', v') :: obj_set k v o'
  end.

(** [o[k]] *)
Fixpoint obj_get {V} (k : string) (o : list (string * V)) : option V :=
  match o with
  | [] => None
  | (k', v') :: o' => if String.eqb k' k then Some v' else obj_get k o'
  end.

(** [Object.fromEntries(es)] *)
Definition Object_fromEntries {V} (es : list (string * V))
  : list (string * V) :=
  fold_left (fun o kv => obj_set (fst kv) (snd kv) o) es [].

Definition keys {V} (o : list (string * V)) : list string := map fst o.

(** [{ ...base, ...v }] *)
Definition spread (base : list (string * JsValue)) (v : JsValue)
  : list (string * JsValue) :=
  fold_left (fun o kv => obj_set (fst kv) (snd kv) o) (Object_entries v) base.

(** [a >= t] for a [parseInt] result and an integer threshold. *)
Definition ge (a : IntOrNaN) (t : Z) : bool :=
  match a with
  | NaN => false
  | Int z => t <=? z
  end.

(** [b - a] *)
Definition sub (b a : IntOrNaN) : IntOrNaN :=
  match b, a with
  | Int y, Int x => Int (y - x)
  | _, _ => NaN
  end.

(** [Array.prototype.sort(cmp)].  The sort is stable (ES2019) and a
    comparator result of [NaN] counts as [+0]; for a consistent comparator
    the result of a stable sort is unique, and it is computed here by
    insertion: [x] goes before the first element it must precede. *)
Definition precedes {A} (cmp : A -> A -> IntOrNaN) (x y : A) : bool :=
  match cmp x y with
  | NaN => true
  | Int z => z <=? 0
  end.

Fixpoint sort_insert {A} (cmp : A -> A -> IntOrNaN) (x : A) (l : list A)
  : list A :=
  match l with
  | [] => [x]
  | y :: l' =>
      if precedes cmp x y then x :: y :: l' else y :: sort_insert cmp x l'
  end.

Fixpoint Array_sort {A} (cmp : A -> A -> IntOrNaN) (l : list A) : list A :=
  match l with
  | [] => []
  | x :: l' => sort_insert cmp x (Array_sort cmp l')
  end.

(** [l.slice(0, n)] for a count [n] *)
Definition slice0 {A} (n : nat) (l : list A) : list A := firstn n l.

(** [l.findIndex(p)], [None] for [-1] *)
Fixpoint findIndex {A} (p : A -> bool) (l : list A) : option nat :=
  match l with
  | [] => None
  | x :: l' => if p x then Some 0%nat else option_map S (findIndex p l')
  end.

End Js.

(** ** String primitives

    [String.prototype.trim] and the regular-expression replacements that
    the sanitizers are written with, each as the scan that the regular
    expression performs from left to right. *)
Module Text.

Definition code (c : ascii) : nat := nat_of_ascii c.

(** [\s], and the characters removed by [trim]: TAB, LF, VT, FF, CR,
    SPACE and NBSP (the white-space code units below 256). *)
Definition is_space (c : ascii) : bool :=
  let n := code c in
  ((9 <=? n) && (n <=? 13) || (n =? 32) || (n =? 160))%nat.

(** [[a-zA-Z0-9_]] *)
Definition is_word (c : ascii) : bool :=
  let n := code c in
  ((48 <=? n) && (n <=? 57) || (65 <=? n) && (n <=? 90)
   || (97 <=? n) && (n <=? 122) || (n =? 95))%nat.

Definition is_newline (c : ascii) : bool :=
  let n := code c in ((n =? 10) || (n =? 13))%nat.

Definition backtick : ascii := ascii_of_nat 96.
Definition is_backtick (c : ascii) : bool := (code c =? 96)%nat.

Fixpoint drop_while (p : ascii -> bool) (s : string) : string :=
  match s with
  | EmptyString => EmptyString
  | String c r => if p c then drop_while p r else s
  end.

(** The longest prefix of characters satisfying [p], and the rest. *)
Fixpoint span (p : ascii -> bool) (s : string) : string * string :=
  match s with
  | EmptyString => (EmptyString, EmptyString)
  | String c r =>
      if p c then let '(a, b) := span p r in (String c a, b)
      else (EmptyString, s)
  end.

Fixpoint drop_while_end (p : ascii -> bool) (s : string) : string :=
  match s with
  | EmptyString => EmptyString
  | String c r =>
      match drop_while_end p r with
      | EmptyString => if p c then EmptyString else String c EmptyString
      | r' => String c r'
      end
  end.

(** [s.trim()] *)
Definition trim (s : string) : string :=
  drop_while_end is_space (drop_while is_space s).

Fixpoint remove (p : ascii -> bool) (s : string) : string :=
  match s with
  | EmptyString => EmptyString
  | String c r => if p c then remove p r else String c (remove p r)
  end.

(** [s.replace(/[class]+/g, ' ')]: every maximal run of characters of the
    class becomes one space.  [in_run] tells that the previous character
    belonged to the run being replaced. *)
Fixpoint collapse (p : ascii -> bool) (in_run : bool) (s : string) : string :=
  match s with
  | EmptyString => EmptyString
  | String c r =>
      if p c then
        if in_run then collapse p true r
        else String " " (collapse p true r)
      else String c (collapse p false r)
  end.

Fixpoint map_chars (f : ascii -> ascii) (s : string) : string :=
  match s with
  | EmptyString => EmptyString
  | String c r => String (f c) (map_chars f r)
  end.

Definition strip_prefix (p s : string) : option string :=
  if String.prefix p s
  then Some (String.substring (String.length p)
               (String.length s - String.length p) s)
  else None.

Definition ends_with (suffix s : string) : bool :=
  let n := String.length suffix in
  let m := String.length s in
  ((n <=? m)%nat && String.eqb (String.substring (m - n) n s) suffix).

Definition lower (c : ascii) : ascii :=
  let n := code c in
  if ((65 <=? n) && (n <=? 90))%nat then ascii_of_nat (n + 32) else c.

(** [s.toLowerCase()] on the letters A-Z *)
Definition toLowerCase (s : string) : string := map_chars lower s.

(** [s.replace(/```|`/g, '')], the scan past the first position *)
Fixpoint strip_backticks (s : string) : string :=
  match s with
  | EmptyString => EmptyString
  | String c r =>
      if is_backtick c then
        match r with
        | String c1 (String c2 r3) =>
            if is_backtick c1 && is_backtick c2 then strip_backticks r3
            else strip_backticks r
        | _ => strip_backticks r
        end
      else String c (strip_backticks r)
  end.

(** [s.replace(/^```json|```|`/g, '')]: the first alternative can only
    match at the start of the text. *)
Definition strip_json_fences (s : string) : string :=
  match strip_prefix (String backtick (String backtick (String backtick "json"))) s with
  | Some r => strip_backticks r
  | None => strip_backticks s
  end.

(** [s.replace(/^`+|`+$/g, '')]: the run of backticks at the start and the
    run at the end. *)
Definition strip_edge_backticks (s : string) : string :=
  drop_while_end is_backtick (drop_while is_backtick s).

Definition quote : ascii := ascii_of_nat 34.

(** [s.replace(/'/g, DQUOTE)]: every apostrophe becomes a double quote. *)
Definition double_quotes (s : string) : string :=
  map_chars (fun c => if (code c =? 39)%nat then quote else c) s.

(** A match of [/,\s*}/] at the start of [s]: the text after it. *)
Definition match_trailing_comma (s : string) : option string :=
  match s with
  | String "," r =>
      match drop_while is_space r with
      | String "}" rest => Some rest
      | _ => None
      end
  | _ => None
  end.

(** [s.replace(/,\s*}/g, '}')].  Every step consumes a character, so a
    fuel of the length of the text is never used up. *)
Fixpoint drop_trailing_commas_from (fuel : nat) (s : string) : string :=
  match fuel with
  | O => s
  | S fuel' =>
      match s with
      | EmptyString => EmptyString
      | String c r =>
          match match_trailing_comma s with
          | Some rest => String "}" (drop_trailing_commas_from fuel' rest)
          | None => String c (drop_trailing_commas_from fuel' r)
          end
      end
  end.

Definition drop_trailing_commas (s : string) : string :=
  drop_trailing_commas_from (String.length s) s.

(** A match of [/([{,])\s*([a-zA-Z0-9_]+)\s*:/] at the start of [s]: the
    two groups and the text after the match. *)
Definition match_bare_key (s : string) : option (ascii * string * string) :=
  match s with
  | String c r =>
      if (code c =? 123)%nat || (code c =? 44)%nat then
        let '(key, r2) := span is_word (drop_while is_space r) in
        match key, drop_while is_space r2 with
        | String _ _, String ":" rest => Some (c, key, rest)
        | _, _ => None
        end
      else None
  | EmptyString => None
  end.

(** [s.replace(/([{,])\s*([a-zA-Z0-9_]+)\s*:/g, ...)] with the replacement
    [$1], a double quote, [$2], a double quote and a colon. *)
Fixpoint quote_bare_keys_from (fuel : nat) (s : string) : string :=
  match fuel with
  | O => s
  | S fuel' =>
      match s with
      | EmptyString => EmptyString
      | String c r =>
          match match_bare_key s with
          | Some (c1, key, rest) =>
              String c1 (String quote (key ++ String quote (String ":"
                (quote_bare_keys_from fuel' rest))))
          | None => String c (quote_bare_keys_from fuel' r)
          end
      end
  end.

Definition quote_bare_keys (s : string) : string :=
  quote_bare_keys_from (String.length s) s.

(** The text up to and including its last closing brace, if it has one. *)
Fixpoint through_last_brace (s : string) : option string :=
  match s with
  | EmptyString => None
  | String c r =>
      match through_last_brace r with
      | Some r' => Some (String c r')
      | None => if (code c =? 125)%nat then Some (String c EmptyString) else None
      end
  end.

(** [s.match(/\{[\s\S]*\}/)]: the star is greedy, so the match runs from
    the first opening brace to the last closing brace after it. *)
Definition match_braces (s : string) : option string :=
  through_last_brace (drop_while (fun c => negb (code c =? 123)%nat) s).

(** [path.basename(p)]: the part after the last slash. *)
Fixpoint basename (p : string) : string :=
  match p with
  | EmptyString => EmptyString
  | String c r =>
      if existsb (fun d => (code d =? 47)%nat) (list_ascii_of_string r)
      then basename r
      else if (code c =? 47)%nat then r else p
  end.

(** [path.basename(p, ext)] *)
Definition basename_ext (p ext : string) : string :=
  let b := basename p in
  if ends_with ext b && negb (String.eqb b ext)
  then String.substring 0 (String.length b - String.length ext) b
  else b.

End Text.

(** ** The runtime's built-in functions

    [JSON.parse], [isNaN] and [parseInt] belong to the JavaScript runtime,
    not to the repository.  The embedding takes them as an interface, so
    that what is proved holds whatever they compute; [Node.runtime] below is
    a reference implementation used to run the code on concrete texts.  It
    reads numbers exactly, that is, within the range of doubles and up to
    their rounding. *)
Class Runtime : Type := {
  (** [JSON.parse(text)]; [None] when it throws a [SyntaxError] *)
  JSON_parse : string -> option JsValue;
  (** [isNaN(s)] for a string [s] *)
  isNaN : string -> bool;
  (** [parseInt(v)] *)
  parseInt : JsValue -> IntOrNaN
}.

Module Node.

Definition is_digit (c : ascii) : bool :=
  let n := Text.code c in ((48 <=? n) && (n <=? 57))%nat.

Definition digit_value (c : ascii) : option Z :=
  let n := Text.code c in
  if ((48 <=? n) && (n <=? 57))%nat then Some (Z.of_nat n - 48)
  else if ((97 <=? n) && (n <=? 102))%nat then Some (Z.of_nat n - 87)
  else if ((65 <=? n) && (n <=? 70))%nat then Some (Z.of_nat n - 55)
  else None.

Definition is_digit_in (radix : Z) (c : ascii) : bool :=
  match digit_value c with
  | Some d => d <? radix
  | None => false
  end.

(** The value of a digit string in the given radix, most significant
    digit first. *)
Fixpoint digits_value (radix : Z) (acc : Z) (s : string) : Z :=
  match s with
  | EmptyString => acc
  | String c r =>
      match digit_value c with
      | Some d => digits_value radix (radix * acc + d) r
      | None => acc
      end
  end.

Definition all_chars (p : ascii -> bool) (s : string) : bool :=
  forallb p (list_ascii_of_string s).

Definition nonempty (s : string) : bool := negb (String.eqb s "").

(** An optional exponent part [e], [e+] or [e-] followed by digits, and
    nothing after it. *)
Definition is_exponent_or_end (s : string) : bool :=
  match s with
  | EmptyString => true
  | String c r =>
      if ((Text.code c =? 101) || (Text.code c =? 69))%nat then
        let r' := match r with
                  | String "+" r1 => r1
                  | String "-" r1 => r1
                  | _ => r
                  end in
        nonempty r' && all_chars is_digit r'
      else false
  end.

(** [StrUnsignedDecimalLiteral] *)
Definition is_unsigned_decimal (s : string) : bool :=
  if String.eqb s "Infinity" then true
  else
    let '(ip, r) := Text.span is_digit s in
    match r with
    | String "." r1 =>
        let '(fp, r2) := Text.span is_digit r1 in
        (nonempty ip || nonempty fp) && is_exponent_or_end r2
    | _ => nonempty ip && is_exponent_or_end r
    end.

Definition is_radix_literal (s : string) : bool :=
  match s with
  | String "0" (String c r) =>
      let n := Text.code c in
      if ((n =? 120) || (n =? 88))%nat then nonempty r && all_chars (is_digit_in 16) r
      else if ((n =? 111) || (n =? 79))%nat then nonempty r && all_chars (is_digit_in 8) r
      else if ((n =? 98) || (n =? 66))%nat then nonempty r && all_chars (is_digit_in 2) r
      else false
  | _ => false
  end.

(** [isNaN(s)]: the string, trimmed, is neither empty nor a numeric
    literal. *)
Definition isNaN (s : string) : bool :=
  let t := Text.trim s in
  if String.eqb t "" then false
  else if is_radix_literal t then false
  else
    let u := match t with
             | String "+" r => r
             | String "-" r => r
             | _ => t
             end in
    negb (is_unsigned_decimal u).

(** [parseInt(s)] for a string: white space, a sign, an optional [0x],
    then the longest run of digits. *)
Definition parseInt_string (s : string) : IntOrNaN :=
  let t := Text.drop_while Text.is_space s in
  let '(sign, u) := match t with
                    | String "+" r => (1, r)
                    | String "-" r => (-1, r)
                    | _ => (1, t)
                    end in
  let '(radix, v) := match u with
                     | String "0" (String c r) =>
                         if ((Text.code c =? 120) || (Text.code c =? 88))%nat
                         then (16, r) else (10, u)
                     | _ => (10, u)
                     end in
  let '(ds, _) := Text.span (is_digit_in radix) v in
  if nonempty ds then Int (sign * digits_value radix 0 ds) else NaN.

(** [parseInt(x)] for the number [m * 10^e]: the number is first written
    out; in positional notation that leaves its integer part, in
    exponential notation (below 1e-6 or from 1e21) its first digit. *)
Definition parseInt_number (m e : Z) : IntOrNaN :=
  if m =? 0 then Int 0
  else
    let ds := NilEmpty.string_of_uint (N.to_uint (Z.to_N (Z.abs m))) in
    let n := Z.of_nat (String.length ds) + e in
    if (-6 <? n) && (n <=? 21) then
      Int (if 0 <=? e then m * 10 ^ e else Z.quot m (10 ^ (- e)))
    else Int (Z.sgn m * digits_value 10 0 (String.substring 0 1 ds)).

(** [parseInt]; the code applies it to numbers and strings only. *)
Definition parseInt (v : JsValue) : IntOrNaN :=
  match v with
  | JNum m e => parseInt_number m e
  | JStr s => parseInt_string s
  | _ => NaN
  end.

(** *** A JSON reader *)

(** JSON white space: TAB, LF, CR and SPACE. *)
Definition is_json_space (c : ascii) : bool :=
  let n := Text.code c in
  ((n =? 9) || (n =? 10) || (n =? 13) || (n =? 32))%nat.

Definition skip (s : string) : string := Text.drop_while is_json_space s.

Definition hex4 (a b c d : ascii) : option Z :=
  match digit_value a, digit_value b, digit_value c, digit_value d with
  | Some x, Some y, Some z, Some w => Some (((x * 16 + y) * 16 + z) * 16 + w)
  | _, _, _, _ => None
  end.

(** The rest of a string literal after its opening quote: its value and
    the text after the closing quote.  Escapes denoting a code unit above
    255 are outside the model and are refused. *)
Fixpoint read_string (s : string) : option (string * string) :=
  match s with
  | EmptyString => None
  | String c r =>
      let n := Text.code c in
      if (n =? 34)%nat then Some (EmptyString, r)
      else if (n <? 32)%nat then None
      else if (n =? 92)%nat then
        match r with
        | String "u" (String h1 (String h2 (String h3 (String h4 r')))) =>
            match hex4 h1 h2 h3 h4, read_string r' with
            | Some v, Some (t, rest) =>
                if v <? 256 then Some (String (ascii_of_nat (Z.to_nat v)) t, rest)
                else None
            | _, _ => None
            end
        | String e r' =>
            let k := Text.code e in
            let unescaped :=
              if (k =? 34)%nat || (k =? 92)%nat || (k =? 47)%nat then Some e
              else if (k =? 98)%nat then Some (ascii_of_nat 8)
              else if (k =? 102)%nat then Some (ascii_of_nat 12)
              else if (k =? 110)%nat then Some (ascii_of_nat 10)
              else if (k =? 114)%nat then Some (ascii_of_nat 13)
              else if (k =? 116)%nat then Some (ascii_of_nat 9)
              else None in
            match unescaped, read_string r' with
            | Some d, Some (t, rest) => Some (String d t, rest)
            | _, _ => None
            end
        | EmptyString => None
        end
      else
        match read_string r with
        | Some (t, rest) => Some (String c t, rest)
        | None => None
        end
  end.

(** A number literal at the start of the text. *)
Definition read_number (s : string) : option (JsValue * string) :=
  let '(sign, u) := match s with
                    | String "-" r => (-1, r)
                    | _ => (1, s)
                    end in
  let '(ip, r) := Text.span is_digit u in
  let int_ok := match ip with
                | EmptyString => false
                | String "0" (String _ _) => false
                | _ => true
                end in
  if negb int_ok then None
  else
    let '(fp, r1, frac_ok) :=
      match r with
      | String "." r0 =>
          let '(fp, r1) := Text.span is_digit r0 in (fp, r1, nonempty fp)
      | _ => (EmptyString, r, true)
      end in
    if negb frac_ok then None
    else
      let m := sign * digits_value 10 0 (ip ++ fp) in
      let e0 := - Z.of_nat (String.length fp) in
      match r1 with
      | String c r2 =>
          if ((Text.code c =? 101) || (Text.code c =? 69))%nat then
            let '(esign, r3) := match r2 with
                                | String "+" r3 => (1, r3)
                                | String "-" r3 => (-1, r3)
                                | _ => (1, r2)
                                end in
            let '(ep, r4) := Text.span is_digit r3 in
            if nonempty ep
            then Some (JNum m (e0 + esign * digits_value 10 0 ep), r4)
            else None
          else Some (JNum m e0, r1)
      | EmptyString => Some (JNum m e0, r1)
      end.

(** A JSON value at the start of the text, after white space.  A repeated
    key keeps its first place and takes its last value, as [JSON.parse]
    has it. *)
Fixpoint read_value (fuel : nat) (s : string) : option (JsValue * string) :=
  match fuel with
  | O => None
  | S fuel' =>
      match skip s with
      | String "{" r =>
          match skip r with
          | String "}" rest => Some (JObj [], rest)
          | r' => read_members fuel' r' []
          end
      | String "[" r =>
          match skip r with
          | String "]" rest => Some (JArr [], rest)
          | r' => read_elements fuel' r' []
          end
      | String c r as t =>
          if (Text.code c =? 34)%nat then
            match read_string r with
            | Some (v, rest) => Some (JStr v, rest)
            | None => None
            end
          else
            match Text.strip_prefix "true" t, Text.strip_prefix "false" t,
                  Text.strip_prefix "null" t with
            | Some rest, _, _ => Some (JBool true, rest)
            | _, Some rest, _ => Some (JBool false, rest)
            | _, _, Some rest => Some (JNull, rest)
            | _, _, _ => read_number t
            end
      | EmptyString => None
      end
  end
with read_members (fuel : nat) (s : string) (acc : list (string * JsValue))
  : option (JsValue * string) :=
  match fuel with
  | O => None
  | S fuel' =>
      match skip s with
      | String c r =>
          if (Text.code c =? 34)%nat then
            match read_string r with
            | Some (k, r1) =>
                match skip r1 with
                | String ":" r2 =>
                    match read_value fuel' r2 with
                    | Some (v, r3) =>
                        match skip r3 with
                        | String "," r4 => read_members fuel' r4 (Js.obj_set k v acc)
                        | String "}" r4 => Some (JObj (Js.obj_set k v acc), r4)
                        | _ => None
                        end
                    | None => None
                    end
                | _ => None
                end
            | None => None
            end
          else None
      | EmptyString => None
      end
  end
with read_elements (fuel : nat) (s : string) (acc : list JsValue)
  : option (JsValue * string) :=
  match fuel with
  | O => None
  | S fuel' =>
      match read_value fuel' s with
      | Some (v, r) =>
          match skip r with
          | String "," r1 => read_elements fuel' r1 (acc ++ [v])
          | String "]" r1 => Some (JArr (acc ++ [v]), r1)
          | _ => None
          end
      | None => None
      end
  end.

(** [JSON.parse(text)]: one value and nothing but white space after it.
    Every step of the reader consumes a character, so twice the length
    of the text is fuel enough. *)
Definition JSON_parse (text : string) : option JsValue :=
  match read_value (2 * String.length text + 2) text with
  | Some (v, rest) =>
      match skip rest with
      | EmptyString => Some v
      | _ => None
      end
  | None => None
  end.

Definition runtime : Runtime :=
  Build_Runtime JSON_parse isNaN parseInt.

End Node.

(** ** Control: state and exceptions

    A computation over a state [S] yields a completion and the new state.
    What a computation did before it threw stays done. *)
Definition M (S A : Type) : Type := S -> Completion A * S.

Definition ret {S A} (a : A) : M S A := fun s => (Return a, s).

Definition throw {S A} (e : Error) : M S A := fun s => (Throw e, s).

Definition bind {S A B} (m : M S A) (k : A -> M S B) : M S B :=
  fun s =>
    match m s with
    | (Return a, s') => k a s'
    | (Throw e, s') => (Throw e, s')
    end.

(** [try { m } catch (error) { handler }] *)
Definition try_catch {S A} (m : M S A) (handler : Error -> M S A) : M S A :=
  fun s =>
    match m s with
    | (Return a, s') => (Return a, s')
    | (Throw e, s') => handler e s'
    end.

Definition get {S} : M S S := fun s => (Return s, s).

Definition modify {S} (f : S -> S) : M S unit := fun s => (Return tt, f s).

Notation "x <- m ;; k" := (bind m (fun x => k))
  (at level 100, m at next level, right associativity).
Notation "m ;;; k" := (bind m (fun _ => k))
  (at level 100, right associativity).

(** ** The tabular store: workbooks of the [xlsx] library *)

(** A row of a sheet is a JavaScript object, a sheet its rows; the
    conversions [sheet_to_json] and [json_to_sheet] are taken as lossless. *)
Definition Row : Type := list (string * JsValue).
Definition Sheet : Type := list Row.

Record WorkBook : Type := mkWorkBook {
  SheetNames : list string;
  Sheets : gmap string Sheet
}.

Module XLSX.

Definition book_new : WorkBook := mkWorkBook [] ∅.

Definition sheet_to_json (ws : Sheet) : list Row := ws.
Definition json_to_sheet (rows : list Row) : Sheet := rows.

(** [book_append_sheet(wb, ws, name)] refuses a name already listed. *)
Definition book_append_sheet (wb : WorkBook) (ws : Sheet) (sheetName : string)
  : Completion WorkBook :=
  if existsb (String.eqb sheetName) (SheetNames wb)
  then Throw (mkError "Error" "Worksheet already exists")
  else Return (mkWorkBook (SheetNames wb ++ [sheetName])
                          (<[sheetName := ws]> (Sheets wb))).

End XLSX.

(** The file at [outputExcel]: the workbook it holds, if the file exists,
    and whether reading it and writing it fail. *)
Record Disk : Type := mkDisk {
  file : option WorkBook;
  read_fault : bool;
  write_fault : bool
}.

(** The world of a run: the state [ext] of the external services (object
    store, inference endpoint, document loader), the delays awaited so
    far, and the spreadsheet file. *)
Record World (E : Type) : Type := mkWorld {
  ext : E;
  sleeps : list Z;
  disk : Disk
}.
Arguments mkWorld {E} ext sleeps disk.
Arguments ext {E} w.
Arguments sleeps {E} w.
Arguments disk {E} w.

Definition Async (E A : Type) : Type := M (World E) A.

(** A call to an external service. *)
Definition external {E A} (op : E -> Completion A * E) : Async E A :=
  fun w =>
    let '(r, x) := op (ext w) in (r, mkWorld x (sleeps w) (disk w)).

Definition sleep {E} (ms : Z) (w : World E) : World E :=
  mkWorld (ext w) (sleeps w ++ [ms]) (disk w).

(** [await delay(ms)] *)
Definition delay {E} (ms : Z) : Async E unit := modify (sleep ms).

(** An operation of the inference endpoint: [bedrockRuntime.send(command)]
    for a command whose prompt is already built, with the decoding of the
    reply.  It throws (a [ThrottlingException] when rate-limited), or
    returns the text at [content[0].text] of the reply, [None] when the
    reply has no such text.  What is proved holds for every such operation,
    hence for every prompt; the text of the prompts is not modelled. *)
Definition Invoke (E : Type) : Type := E -> Completion (option string) * E.

Definition is_throttling (error : Error) : bool :=
  String.eqb (name error) "ThrottlingException".

(** The loop of [retryWithExponentialBackoff], which both modules define
    with the same text. *)
Equations? retry_loop {E A} (fn : Async E A) (maxRetries : nat)
  (initialDelay : Z) (retries : nat) (w : World E)
  : Completion A * World E by wf (maxRetries - retries)%nat lt :=
  retry_loop fn maxRetries initialDelay retries w with fn w := {
    | (Return v, w') := (Return v, w');
    | (Throw error, w')
        with sumbool_of_bool
               (is_throttling error && (retries <? maxRetries)%nat) := {
        | left _ :=
            let delayTime := initialDelay * 2 ^ Z.of_nat retries in
            retry_loop fn maxRetries initialDelay (S retries) (sleep delayTime w');
        | right _ := (Throw error, w') } }.
Proof.
  match goal with
  | Hcond : (_ && _)%bool = true |- _ =>
      apply andb_prop in Hcond as [_ Hlt]; apply Nat.ltb_lt in Hlt; lia
  end.
Qed.

(** ** [server.js]: the query path *)
Module Server.

Record MatchResult : Type := mkMatchResult {
  selected : list string;
  scores : list (string * IntOrNaN)
}.

Definition noMatch : MatchResult := mkMatchResult [] [].

(** The cleaning of [parseLLMOutput]: trim, delete the fence marks and
    every backtick, delete line feeds, squeeze white space, trim. *)
Definition clean (responseText : string) : string :=
  Text.trim
    (Text.collapse Text.is_space false
       (Text.remove (fun c => (Text.code c =? 10)%nat)
          (Text.strip_json_fences (Text.trim responseText)))).

(** [parseLLMOutput]: [null] when the text does not parse. *)
Definition parseLLMOutput {rt : Runtime} (responseText : string) : JsValue :=
  match JSON_parse (clean responseText) with
  | Some v => v
  | None => JNull
  end.

Definition retryWithExponentialBackoff {E A} (fn : Async E A)
  (maxRetries : nat) (initialDelay : Z) : Async E A :=
  retry_loop fn maxRetries initialDelay 0.

(** The error of reading a property of [undefined] or [null]. *)
Definition typeError : Error :=
  mkError "TypeError" "Cannot read properties of undefined".

(** [extractJdTags]; the retried function is lines 150-175. *)
Definition extractJdTags {rt : Runtime} {E} (bedrockRuntime : Invoke E)
  (jdText : string) : Async E JsValue :=
  try_catch
    (result <-
       retryWithExponentialBackoff
         (reply <- external bedrockRuntime ;;
          match reply with
          | None => throw typeError
          | Some content =>
              let parsedContent := parseLLMOutput content in
              if negb (Js.truthy parsedContent)
              then throw (mkError "Error" "Failed to parse LLM response")
              else ret parsedContent
          end)
         5 1000 ;;
     ret result)
    (fun error => ret JNull).

(** [row.resume_file_name === filename] *)
Definition has_file_name (filename : string) (row : Row) : bool :=
  match Js.obj_get "resume_file_name" row with
  | Some (JStr s) => String.eqb s filename
  | _ => false
  end.

(** The repairs of lines 254-258 *)
Definition repair (content : string) : string :=
  Text.trim
    (Text.quote_bare_keys
       (Text.drop_trailing_commas
          (Text.double_quotes
             (Text.collapse Text.is_newline false content)))).

(** Lines 260-264: keep the braces and what they enclose. *)
Definition extract_object (cleanedContent : string) : string :=
  match Text.match_braces cleanedContent with
  | Some jsonMatch => jsonMatch
  | None => cleanedContent
  end.

Definition isValidScore {rt : Runtime} (score : JsValue) : bool :=
  match score with
  | JNum _ _ => true
  | JStr s => negb (isNaN s)
  | _ => false
  end.

(** Lines 269-280: the entries of the parsed object that name a submitted
    resume and carry a number, with the number read by [parseInt]. *)
Definition validate {rt : Runtime} (resumeData : list Row) (obj : JsValue)
  : list (string * IntOrNaN) :=
  if Js.is_object obj then
    Js.Object_fromEntries
      (map (fun '(filename, score) => (filename, parseInt score))
         (List.filter
            (fun '(filename, score) =>
               existsb (has_file_name filename) resumeData
               && isValidScore score)
            (Js.Object_entries obj)))
  else [].

(** The inner [try] of lines 252-280; [None] when [JSON.parse] throws. *)
Definition parse_scores {rt : Runtime} (resumeData : list Row) (content : string)
  : option (list (string * IntOrNaN)) :=
  match JSON_parse (extract_object (repair content)) with
  | Some obj => Some (validate resumeData obj)
  | None => None
  end.

(** Lines 289-296 *)
Definition rank (scores : list (string * IntOrNaN)) (topn : nat)
  (threshold : Z) : list string :=
  let validScores :=
    Js.Array_sort (fun x y => Js.sub (snd y) (snd x))
      (List.filter (fun '(_, score) => Js.ge score threshold) scores) in
  map fst (Js.slice0 topn validScores).

Definition nullish (v : JsValue) : bool :=
  match v with
  | JUndefined | JNull => true
  | _ => false
  end.

(** [findBestResumes].  The prompt is built before the [try]; building it
    reads [jdTags['Skills']], which throws when [jdTags] is [null] or
    [undefined]. *)
Definition findBestResumes {rt : Runtime} {E} (bedrockRuntime : Invoke E)
  (jdTags : JsValue) (resumeData : list Row) (topn : nat) (threshold : Z)
  : Async E MatchResult :=
  if nullish jdTags then throw typeError
  else
    try_catch
      (result <- retryWithExponentialBackoff (external bedrockRuntime) 5 1000 ;;
       match result with
       | None => throw typeError
       | Some content =>
           match parse_scores resumeData content with
           | None => ret noMatch
           | Some scores =>
               ret (mkMatchResult (rank scores topn threshold) scores)
           end
       end)
      (fun error => ret noMatch).

(** *** [copyFilteredPdfs] *)

Record CopyResult : Type := mkCopyResult {
  done : list string;
  notFound : list string
}.

(** The file system of the server: [fs.existsSync], which only looks,
    and [fs.copyFileSync]. *)
Record Files (E : Type) : Type := mkFiles {
  existsSync : string -> E -> bool;
  copyFileSync : string -> string -> E -> Completion unit * E
}.
Arguments existsSync {E} _ _ _.
Arguments copyFileSync {E} _ _ _ _.

(** [path.join(dir, name)]; dot segments are not resolved. *)
Definition join (dir name : string) : string := (dir ++ "/" ++ name)%string.

(** The error of [path.join(undefined, name)]. *)
Definition invalidPath : Error :=
  mkError "TypeError" "The path argument must be of type string".

(** The loop of lines 320-335, from the arrays [done] and [notFound] as
    they stand.  [sourceDir] is [path.resolve(__dirname, '..')] and
    [outputDir] is [process.env.OUTPUT_DIR], which may be unset: the two
    paths are joined before the [try]. *)
Fixpoint copyEach {E} (fs : Files E) (sourceDir : string)
  (outputDir : option string) (filteredFiles done notFound : list string)
  : Async E CopyResult :=
  match filteredFiles with
  | [] => ret (mkCopyResult done notFound)
  | filename :: rest =>
      match outputDir with
      | None => throw invalidPath
      | Some dir =>
          let srcPath := join sourceDir filename in
          let dstPath := join dir filename in
          pushed <-
            try_catch
              (w <- get ;;
               if existsSync fs srcPath (ext w) then
                 external (copyFileSync fs srcPath dstPath) ;;;
                 ret (done ++ [filename], notFound)
               else ret (done, notFound ++ [filename]))
              (fun error => ret (done, notFound ++ [filename])) ;;
          copyEach fs sourceDir outputDir rest (fst pushed) (snd pushed)
      end
  end.

Definition copyFilteredPdfs {E} (fs : Files E) (sourceDir : string)
  (outputDir : option string) (filteredFiles : list string)
  : Async E CopyResult :=
  copyEach fs sourceDir outputDir filteredFiles [] [].

(** *** [POST /api/match-resumes] *)

(** The body of a request: [jdText], absent or a string, and [topn],
    absent or a count. *)
Record MatchRequest : Type := mkMatchRequest {
  jdText : option string;
  topn : option nat
}.

(** What [res.json] is given. *)
Inductive Body : Type :=
| ErrorBody (error : string) (details : option string)
| MatchBody (success : bool) (jdTags : JsValue)
    (matchingResumes notFound : list string)
    (scores : list (string * IntOrNaN)) (message : option string).

Record Response : Type := mkResponse { status : nat; body : Body }.

(** [XLSX.readFile(process.env.EXCEL_PATH)]: the file of the world's disk
    is here the one at [EXCEL_PATH]. *)
Definition readWorkbook {E} : Async E WorkBook :=
  w <- get ;;
  match file (disk w), read_fault (disk w) with
  | Some workbook, false => ret workbook
  | _, _ => throw (mkError "Error" "Cannot read the workbook")
  end.

(** The handler of lines 341-410.  [reqBody] is [req.body], [None] when
    the request has no parsed body; a sheet that is listed but missing
    reads as no rows. *)
Definition matchResumes {rt : Runtime} {E} (bedrockRuntime : Invoke E)
  (fs : Files E) (sourceDir : string) (outputDir : option string)
  (reqBody : option MatchRequest) : Async E Response :=
  try_catch
    (match reqBody with
     | None => throw typeError
     | Some request =>
         let topn := match topn request with
                     | Some n => n
                     | None => 3%nat
                     end in
         match jdText request with
         | None | Some EmptyString =>
             ret (mkResponse 400 (ErrorBody "Job description is required" None))
         | Some jdText =>
             workbook <- readWorkbook ;;
             let sheetName := "Resume Tags" in
             if negb (existsb (String.eqb sheetName) (SheetNames workbook)) then
               ret (mkResponse 404
                      (ErrorBody "Resume Tags sheet not found in Excel file" None))
             else
               let resumeData :=
                 match Sheets workbook !! sheetName with
                 | Some sheet => XLSX.sheet_to_json sheet
                 | None => []
                 end in
               if (length resumeData =? 0)%nat then
                 ret (mkResponse 404
                        (ErrorBody "No resume data found in Resume Tags sheet" None))
               else
                 jdTags <- extractJdTags bedrockRuntime jdText ;;
                 if negb (Js.truthy jdTags) then
                   ret (mkResponse 400
                          (ErrorBody "Could not extract tags from job description" None))
                 else
                   matchResult <- findBestResumes bedrockRuntime jdTags resumeData topn 60 ;;
                   let selected := selected matchResult in
                   let scores := scores matchResult in
                   copyResult <- copyFilteredPdfs fs sourceDir outputDir selected ;;
                   ret (mkResponse 200
                          (MatchBody (0 <? length selected)%nat jdTags
                             (done copyResult) (notFound copyResult) scores
                             (if (length selected =? 0)%nat
                              then Some "No resumes with relevance =60% were found for this JD"
                              else None)))
         end
     end)
    (fun error =>
       ret (mkResponse 500
              (ErrorBody "Internal server error" (Some (message error))))).

End Server.

(** ** [s3_extractor.js]: the ingestion path *)
Module Extractor.

(** The tag record with every field empty, returned when tags cannot be
    had. *)
Definition emptyTags : JsValue :=
  JObj [("Skills", JStr ""); ("Programming Languages", JStr "");
        ("Years of experience", JStr ""); ("Job title", JStr "")].

(** The cleaning of [parseLLMOutput]: trim, delete the backticks at both
    ends, delete line feeds, squeeze white space, trim. *)
Definition clean (responseText : string) : string :=
  Text.trim
    (Text.collapse Text.is_space false
       (Text.remove (fun c => (Text.code c =? 10)%nat)
          (Text.strip_edge_backticks (Text.trim responseText)))).

(** [parseLLMOutput]: the empty tag record when the text does not parse. *)
Definition parseLLMOutput {rt : Runtime} (responseText : string) : JsValue :=
  match JSON_parse (clean responseText) with
  | Some v => v
  | None => emptyTags
  end.

Definition retryWithExponentialBackoff {E A} (fn : Async E A)
  (maxRetries : nat) (initialDelay : Z) : Async E A :=
  retry_loop fn maxRetries initialDelay 0.

(** The external collaborators of a run. *)
Record ListResponse : Type := mkListResponse {
  Contents : list string;              (* the [Key] of each listed object *)
  IsTruncated : bool;
  NextContinuationToken : option string
}.

Record Services (E : Type) : Type := mkServices {
  (** [s3Client.send(new ListObjectsV2Command(...))] *)
  listObjects : option string -> E -> Completion ListResponse * E;
  (** [GetObjectCommand] and the writing of the local copy *)
  getObject : string -> string -> E -> Completion unit * E;
  copyObject : string -> string -> E -> Completion unit * E;
  deleteObject : string -> E -> Completion unit * E;
  (** [PDFLoader], the splitter and the vector index of
      [processResumeAndStore]: the [pageContent] of the chunks *)
  loadSplitEmbed : string -> string -> E -> Completion (list string) * E;
  bedrockRuntime : Invoke E;
  mkdtemp : E -> Completion string * E;
  (** removal of a temporary file or directory, errors swallowed *)
  remove : string -> E -> E
}.
Arguments listObjects {E} _ _ _.
Arguments getObject {E} _ _ _ _.
Arguments copyObject {E} _ _ _ _.
Arguments deleteObject {E} _ _ _.
Arguments loadSplitEmbed {E} _ _ _ _.
Arguments bedrockRuntime {E} _ _.
Arguments mkdtemp {E} _ _.
Arguments remove {E} _ _ _.

Section Pipeline.
Context {rt : Runtime} {E : Type} (svc : Services E).

Definition downloadFromS3 (key localPath : string) : Async E bool :=
  try_catch
    (external (getObject svc key localPath) ;;; ret true)
    (fun error => ret false).

Definition moveFileInS3 (sourceKey destinationKey : string) : Async E bool :=
  try_catch
    (external (copyObject svc sourceKey destinationKey) ;;;
     external (deleteObject svc sourceKey) ;;;
     ret true)
    (fun error => ret false).

Definition processResumeAndStore (pdfPath resumeId : string)
  : Async E (list string) :=
  external (loadSplitEmbed svc pdfPath resumeId).

(** [extractTagsFromChunks]; the chunks only feed the prompt. *)
Definition extractTagsFromChunks (chunks : list string) : Async E JsValue :=
  try_catch
    (response <-
       retryWithExponentialBackoff (external (bedrockRuntime svc)) 5 1000 ;;
     match response with
     | None => throw Server.typeError
     | Some content => ret (parseLLMOutput content)
     end)
    (fun error => ret emptyTags).

(** *** The corpus store *)

(** [fs.access(outputExcel).then(() => true).catch(() => false)] *)
Definition fileExists : Async E bool :=
  w <- get ;; ret (bool_decide (is_Some (file (disk w)))).

(** [xlsx.readFile(outputExcel)] *)
Definition readFile : Async E WorkBook :=
  w <- get ;;
  match file (disk w), read_fault (disk w) with
  | Some workbook, false => ret workbook
  | _, _ => throw (mkError "Error" "Cannot read the workbook")
  end.

(** [xlsx.writeFile(workbook, outputExcel)] *)
Definition writeFile (workbook : WorkBook) : Async E unit :=
  w <- get ;;
  if write_fault (disk w)
  then throw (mkError "Error" "Cannot write the workbook")
  else modify (fun w =>
         mkWorld (ext w) (sleeps w)
           (mkDisk (Some workbook) (read_fault (disk w)) (write_fault (disk w)))).

Definition file_name (row : Row) : JsValue :=
  match Js.obj_get "resume_file_name" row with
  | Some v => v
  | None => JUndefined
  end.

(** [a === b] on cell values; two objects are never the same object. *)
Definition strict_equal (a b : JsValue) : bool :=
  match a, b with
  | JUndefined, JUndefined => true
  | JNull, JNull => true
  | JBool x, JBool y => Bool.eqb x y
  | JStr x, JStr y => String.eqb x y
  | JNum m1 e1, JNum m2 e2 =>
      m1 * 10 ^ (e1 - Z.min e1 e2) =? m2 * 10 ^ (e2 - Z.min e1 e2)
  | _, _ => false
  end.

(** One turn of the merge loop, lines 155-166. *)
Definition upsert (mergedResults : list Row) (newResult : Row) : list Row :=
  match Js.findIndex
          (fun item => strict_equal (file_name item) (file_name newResult))
          mergedResults with
  | Some existingIndex => <[existingIndex := newResult]> mergedResults
  | None => mergedResults ++ [newResult]
  end.

(** Lines 154-166 *)
Definition mergeResults (existingData results : list Row) : list Row :=
  fold_left upsert results existingData.

(** Lines 172-175 and 185-188: forget a sheet. *)
Definition removeSheet (sheetName : string) (workbook : WorkBook) : WorkBook :=
  match Sheets workbook !! sheetName with
  | Some _ =>
      mkWorkBook
        (List.filter (fun name => negb (String.eqb name sheetName))
           (SheetNames workbook))
        (delete sheetName (Sheets workbook))
  | None => workbook
  end.

Definition failedRows (failedFiles : list string) : list Row :=
  map (fun f => [("file", JStr f)]) failedFiles.

Definition append_sheet (workbook : WorkBook) (ws : Sheet) (sheetName : string)
  : Async E WorkBook :=
  match XLSX.book_append_sheet workbook ws sheetName with
  | Return workbook' => ret workbook'
  | Throw e => throw e
  end.

(** The body of the [try] of [saveToExcel], lines 132-194; the end of
    [processS3Bucket] repeats it at lines 406-468. *)
Definition writeResults (results : list Row) (failedFiles : list string)
  : Async E unit :=
  loaded <-
    try_catch
      (found <- fileExists ;;
       if found then
         workbook <- readFile ;;
         match Sheets workbook !! "Resume Tags" with
         | Some sheet => ret (Some workbook, XLSX.sheet_to_json sheet)
         | None => ret (Some workbook, [])
         end
       else ret (None, []))
      (fun error => ret (Some XLSX.book_new, [])) ;;
  let existingData : list Row := snd loaded in
  let workbook := match fst loaded with
                  | Some workbook => workbook
                  | None => XLSX.book_new
                  end in
  let mergedResults := mergeResults existingData results in
  let worksheet := XLSX.json_to_sheet mergedResults in
  let workbook := removeSheet "Resume Tags" workbook in
  workbook <- append_sheet workbook worksheet "Resume Tags" ;;
  workbook <-
    (if (0 <? length failedFiles)%nat then
       let failedSheet := XLSX.json_to_sheet (failedRows failedFiles) in
       let workbook := removeSheet "Failed Files" workbook in
       append_sheet workbook failedSheet "Failed Files"
     else ret workbook) ;;
  writeFile workbook.

(** [saveToExcel] *)
Definition saveToExcel (results : list Row) (failedFiles : list string)
  : Async E unit :=
  try_catch (writeResults results failedFiles) (fun error => ret tt).

(** *** [processS3Bucket] *)

(** The variables of [processS3Bucket], lines 295-299. *)
Record Locals : Type := mkLocals {
  continuationToken : option string;
  results : list Row;
  totalProcessed : nat;
  failedFiles : list string;
  processedFiles : gset string
}.

Definition initialLocals : Locals := mkLocals None [] 0 [] ∅.

(** A run: the variables and the world. *)
Record Frame : Type := mkFrame { locals : Locals; world : World E }.

Definition Run (A : Type) : Type := M Frame A.

Definition await {A} (m : Async E A) : Run A :=
  fun f => let '(r, w) := m (world f) in (r, mkFrame (locals f) w).

Definition update (g : Locals -> Locals) : Run unit :=
  modify (fun f => mkFrame (g (locals f)) (world f)).

Definition read {A} (g : Locals -> A) : Run A :=
  f <- get ;; ret (g (locals f)).

(** [try { m } finally { cleanup }] with a cleanup that swallows its own
    errors. *)
Definition try_finally {A} (m : Run A) (cleanup : Frame -> Frame) : Run A :=
  fun f => let '(r, f') := m f in (r, cleanup f').

(** How one turn of the [for] loop ends: at its end, by [continue] or
    by [break]. *)
Inductive Flow : Type := Done | Continue | Break.

(** [prefix.replace(/\/$/, '')] *)
Definition dropTrailingSlash (prefix : string) : string :=
  if Text.ends_with "/" prefix
  then String.substring 0 (String.length prefix - 1) prefix
  else prefix.

Definition removeTemp (path : string) : Frame -> Frame :=
  fun f =>
    mkFrame (locals f)
      (mkWorld (remove svc path (ext (world f))) (sleeps (world f))
         (disk (world f))).

(** The body of the [for] loop, lines 317-383. *)
Definition processObject (prefix tempDir : string) (maxResumes : nat)
  (key : string) : Run Flow :=
  if negb (Text.ends_with ".pdf" (Text.toLowerCase key)) then ret Continue
  else
    seen <- read (fun l => bool_decide (key ∈ processedFiles l)) ;;
    if seen : bool then ret Continue
    else
      let resumeId := Text.basename_ext key ".pdf" in
      let tempPdfPath := (tempDir ++ "/" ++ resumeId ++ ".pdf")%string in
      flow <-
        try_catch
          (await (delay 2000) ;;;
           downloaded <- await (downloadFromS3 key tempPdfPath) ;;
           if negb downloaded then
             update (fun l =>
               mkLocals (continuationToken l) (results l) (totalProcessed l)
                 (failedFiles l ++ [key]) (processedFiles l)) ;;;
             ret Continue
           else
             chunks <- await (processResumeAndStore tempPdfPath resumeId) ;;
             tags <- await (extractTagsFromChunks chunks) ;;
             update (fun l =>
               mkLocals (continuationToken l)
                 (results l ++
                    [Js.spread [("resume_file_name", JStr (Text.basename key))] tags])
                 (totalProcessed l) (failedFiles l) (processedFiles l)) ;;;
             let processedPrefix := (dropTrailingSlash prefix ++ "_processed/")%string in
             let destinationKey := (processedPrefix ++ Text.basename key)%string in
             await (moveFileInS3 key destinationKey) ;;;
             update (fun l =>
               mkLocals (continuationToken l) (results l)
                 (S (totalProcessed l)) (failedFiles l) (processedFiles l)) ;;;
             l <- read id ;;
             await (saveToExcel (results l) (failedFiles l)) ;;;
             if (maxResumes <=? totalProcessed l)%nat then
               update (fun l =>
                 mkLocals None (results l) (totalProcessed l)
                   (failedFiles l) (processedFiles l)) ;;;
               ret Break
             else ret Done)
          (fun error =>
             update (fun l =>
               mkLocals (continuationToken l) (results l) (totalProcessed l)
                 (failedFiles l ++ [key]) (processedFiles l)) ;;;
             ret Done) ;;
      match flow with
      | Done =>
          modify (removeTemp tempPdfPath) ;;;
          update (fun l =>
            mkLocals (continuationToken l) (results l) (totalProcessed l)
              (failedFiles l) ({[key]} ∪ processedFiles l)) ;;;
          ret Done
      | _ => ret flow
      end.

(** [for (const obj of response.Contents || [])] *)
Fixpoint forOf (body : string -> Run Flow) (contents : list string) : Run unit :=
  match contents with
  | [] => ret tt
  | key :: rest =>
      flow <- body key ;;
      match flow with
      | Break => ret tt
      | _ => forOf body rest
      end
  end.

(** The [while (true)] loop, lines 301-401.  [fuel] bounds the number of
    pages listed; the result tells whether the loop was left. *)
Fixpoint listing (fuel : nat) (prefix : string) (maxResumes : nat) : Run bool :=
  match fuel with
  | O => ret false
  | S fuel' =>
      token <- read continuationToken ;;
      response <- await (external (listObjects svc token)) ;;
      tempDir <- await (external (mkdtemp svc)) ;;
      try_finally
        (forOf (processObject prefix tempDir maxResumes) (Contents response))
        (removeTemp tempDir) ;;;
      if negb (IsTruncated response) then ret true
      else
        update (fun l =>
          mkLocals (NextContinuationToken response) (results l)
            (totalProcessed l) (failedFiles l) (processedFiles l)) ;;;
        listing fuel' prefix maxResumes
  end.

(** Lines 403-483.  The summary names [excelFileName], which is not
    declared anywhere: evaluating it throws after the file is written,
    and the [catch] throws the error again. *)
Definition finalSave : Run unit :=
  l <- read id ;;
  if (0 <? length (results l))%nat then
    try_catch
      (await (writeResults (results l) (failedFiles l)) ;;;
       throw (mkError "ReferenceError" "excelFileName is not defined"))
      (fun error => throw error)
  else ret tt.

Definition ingest (fuel : nat) (bucketName prefix : string) (maxResumes : nat)
  : Run bool :=
  if String.eqb bucketName ""
  then throw (mkError "Error" "Bucket name is required")
  else
    left_loop <- listing fuel prefix maxResumes ;;
    if left_loop : bool then finalSave ;;; ret true else ret false.

(** [processS3Bucket(bucketName, prefix, outputExcel, batchSize,
    maxResumes)]; [outputExcel] is the file of the world's disk and
    [batchSize] only sizes the pages that [listObjects] returns. *)
Definition processS3Bucket (fuel : nat) (bucketName prefix : string)
  (maxResumes : nat) : Async E bool :=
  fun w =>
    let '(r, f) := ingest fuel bucketName prefix maxResumes
                     (mkFrame initialLocals w) in
    (r, world f).

End Pipeline.

End Extractor.

(** ** The dashboard page: [handleSearch]

    The page that posts the job description to [/api/match-resumes] and
    shows the resumes it is answered.  Its text follows the extractor in
    the file of [s3_extractor.js], from line 524 on. *)
Module Dashboard.

Record Resume : Type := mkResume { name : string; score : option Z }.

(** What the page shows once [handleSearch] has finished. *)
Record View : Type := mkView {
  loading : bool;
  error : string;
  resumes : list Resume;
  jdTags : option JsValue
}.

(** What becomes of the [fetch]: it is rejected, or answered. *)
Inductive Fetched : Type :=
| Rejected (err : Error)
| Responded (response : Server.Response).

(** A score as it arrives: [JSON.stringify] writes [NaN] as [null]. *)
Definition wire (score : IntOrNaN) : option Z :=
  match score with
  | Int z => Some z
  | NaN => None
  end.

(** The number that a score or [null] counts as in [>=] and [-]. *)
Definition number (score : option Z) : Z :=
  match score with
  | Some z => z
  | None => 0
  end.

(** [response.ok] *)
Definition ok (response : Server.Response) : bool :=
  ((200 <=? Server.status response) && (Server.status response <=? 299))%nat.

(** Lines 580-587: the scores of at least 60, best first. *)
Definition matchedResumes (scores : list (string * IntOrNaN)) : list Resume :=
  Js.Array_sort (fun a b => Int (number (score b) - number (score a)))
    (map (fun '(name, score) => mkResume name score)
       (List.filter (fun '(name, score) => 60 <=? number score)
          (map (fun '(name, score) => (name, wire score)) scores))).

(** The state setters of the page. *)
Definition setLoading (b : bool) (v : View) : View :=
  mkView b (error v) (resumes v) (jdTags v).
Definition setError (text : string) (v : View) : View :=
  mkView (loading v) text (resumes v) (jdTags v).
Definition setResumes (l : list Resume) (v : View) : View :=
  mkView (loading v) (error v) l (jdTags v).
Definition setJdTags (tags : option JsValue) (v : View) : View :=
  mkView (loading v) (error v) (resumes v) tags.

(** [await fetch(...)] *)
Definition fetch (fetched : Fetched) : M View Server.Response :=
  match fetched with
  | Rejected err => throw err
  | Responded response => ret response
  end.

(** [handleSearch], lines 554-593, from the outcome of its [fetch]. *)
Definition handleSearch (fetched : Fetched) : M View unit :=
  modify (setLoading true) ;;;
  modify (setError "") ;;;
  modify (setResumes []) ;;;
  modify (setJdTags None) ;;;
  try_catch
    (response <- fetch fetched ;;
     if negb (ok response) then
       throw (mkError "Error" "Network response was not ok")
     else
       match Server.body response with
       | Server.MatchBody true jdTags _ _ scores _ =>
           modify (setJdTags (Some jdTags)) ;;;
           modify (setResumes (matchedResumes scores))
       | _ => throw (mkError "Error" "Failed to find matching resumes")
       end)
    (fun err => modify (setError (message err))) ;;;
  modify (setLoading false).

End Dashboard.

(** ** Vocabulary of the statements *)

(** From the state [x], the operation throws a throttling error at each of
    its next [k] calls, which leave it in the state [x']. *)
Fixpoint throttled {E A} (op : E -> Completion A * E) (k : nat) (x x' : E)
  : Prop :=
  match k with
  | O => x' = x
  | S k' =>
      exists error x1,
        op x = (Throw error, x1) /\ is_throttling error = true /\
        throttled op k' x1 x'
  end.

(** The delays of [k] retries in a row, the first of them numbered [i]. *)
Definition backoff (initialDelay : Z) (i k : nat) : list Z :=
  map (fun j => initialDelay * 2 ^ Z.of_nat j) (seq i k).

(** An operation followed by a treatment of its result that has no other
    effect. *)
Definition answering {E A B} (f : A -> Completion B)
  (op : E -> Completion A * E) : E -> Completion B * E :=
  fun x =>
    let '(c, x') := op x in
    (match c with
     | Return a => f a
     | Throw error => Throw error
     end, x').

(** What the retried function of [extractJdTags] makes of a reply. *)
Definition tagsOfReply {rt : Runtime} (reply : option string) : Completion JsValue :=
  match reply with
  | None => Throw Server.typeError
  | Some content =>
      let parsedContent := Server.parseLLMOutput content in
      if negb (Js.truthy parsedContent)
      then Throw (mkError "Error" "Failed to parse LLM response")
      else Return parsedContent
  end.




Definition descending {A} (val : A -> Z) (x y : A) : Prop := val y <= val x.

(** The characters of a text all satisfy [p]. *)
Fixpoint all_chars (p : ascii -> bool) (s : string) : Prop :=
  match s with
  | EmptyString => True
  | String c r => p c = true /\ all_chars p r
  end.

(** Every sheet that a workbook lists is there. *)
Definition consistent (workbook : WorkBook) : Prop :=
  forall sheetName, In sheetName (SheetNames workbook) ->
    is_Some (Sheets workbook !! sheetName).

(** The workbook with the sheet [sheetName] replaced by [sheet], or added
    last. *)
Definition putSheet (sheetName : string) (sheet : Sheet) (workbook : WorkBook)
  : WorkBook :=
  let workbook' := Extractor.removeSheet sheetName workbook in
  mkWorkBook (SheetNames workbook' ++ [sheetName])
             (<[sheetName := sheet]> (Sheets workbook')).

(** The file can be read and written, and holds a well-formed workbook if
    it exists. *)
Definition healthy (d : Disk) : Prop :=
  read_fault d = false /\ write_fault d = false /\
  match file d with
  | Some workbook => consistent workbook
  | None => True
  end.

(** The workbook that the file holds, an empty one if there is no file. *)
Definition opened (d : Disk) : WorkBook :=
  match file d with
  | Some workbook => workbook
  | None => XLSX.book_new
  end.

(** The workbook that a flush makes of a workbook. *)
Definition flushed (workbook : WorkBook) (results : list Row)
  (failedFiles : list string) : WorkBook :=
  let existingData := match Sheets workbook !! "Resume Tags" with
                      | Some sheet => sheet
                      | None => []
                      end in
  let workbook1 :=
    putSheet "Resume Tags" (Extractor.mergeResults existingData results) workbook in
  if (0 <? length failedFiles)%nat
  then putSheet "Failed Files" (Extractor.failedRows failedFiles) workbook1
  else workbook1.

(** The local copy of the object [key] in the directory [tempDir]. *)
Definition tempPdfPathOf (tempDir key : string) : string :=
  (tempDir ++ "/" ++ Text.basename_ext key ".pdf" ++ ".pdf")%string.

(** The world in which a computation ends. *)
Definition after {S A} (m : M S A) (s : S) : S := snd (m s).

(** The rows of a sheet of the stored workbook. *)
Definition stored {E} (sheetName : string) (w : World E) : option Sheet :=
  match file (disk w) with
  | Some workbook => Sheets workbook !! sheetName
  | None => None
  end.

(** The rows of the "Resume Tags" partition, none if it does not exist. *)
Definition corpus {E} (w : World E) : list Row :=
  match stored "Resume Tags" w with
  | Some rows => rows
  | None => []
  end.

(** The number of rows whose key is the file name [k]. *)
Definition count_key (k : string) (rows : list Row) : nat :=
  length (List.filter (fun row => Server.has_file_name k row) rows).

(** What one turn of the loop of [processS3Bucket] makes of the variables,
    for the object [key]: five courses. *)
Inductive Turn (key : string) (maxResumes : nat) (l : Extractor.Locals)
  : Extractor.Flow -> Extractor.Locals -> Prop :=
| turn_skipped : Turn key maxResumes l Extractor.Continue l
| turn_not_downloaded :
    Turn key maxResumes l Extractor.Continue
      (Extractor.mkLocals (Extractor.continuationToken l) (Extractor.results l)
         (Extractor.totalProcessed l) (Extractor.failedFiles l ++ [key])
         (Extractor.processedFiles l))
| turn_not_loaded :
    Turn key maxResumes l Extractor.Done
      (Extractor.mkLocals (Extractor.continuationToken l) (Extractor.results l)
         (Extractor.totalProcessed l) (Extractor.failedFiles l ++ [key])
         ({[key]} ∪ Extractor.processedFiles l))
| turn_processed (row : Row) :
    (S (Extractor.totalProcessed l) < maxResumes)%nat ->
    Turn key maxResumes l Extractor.Done
      (Extractor.mkLocals (Extractor.continuationToken l)
         (Extractor.results l ++ [row]) (S (Extractor.totalProcessed l))
         (Extractor.failedFiles l) ({[key]} ∪ Extractor.processedFiles l))
| turn_last (row : Row) :
    (maxResumes <= S (Extractor.totalProcessed l))%nat ->
    Turn key maxResumes l Extractor.Break
      (Extractor.mkLocals None
         (Extractor.results l ++ [row]) (S (Extractor.totalProcessed l))
         (Extractor.failedFiles l) (Extractor.processedFiles l)).

(** From the frame [f] to the frame [f'] a run has only made progress: it
    has added rows to the results, one for each resume counted, and keys
    to the failed files, and it has left the file alone if it has counted
    no resume. *)
Definition progress {E} (f f' : Extractor.Frame (E := E)) : Prop :=
  (exists rows,
     Extractor.results (Extractor.locals f') =
       Extractor.results (Extractor.locals f) ++ rows /\
     Extractor.totalProcessed (Extractor.locals f') =
       (Extractor.totalProcessed (Extractor.locals f) + length rows)%nat) /\
  (exists keys,
     Extractor.failedFiles (Extractor.locals f') =
       Extractor.failedFiles (Extractor.locals f) ++ keys) /\
  (Extractor.totalProcessed (Extractor.locals f') =
     Extractor.totalProcessed (Extractor.locals f) ->
   disk (Extractor.world f') = disk (Extractor.world f)).

(** The row is keyed by the file name [k], a string. *)
Definition keyed (k : string) (row : Row) : Prop :=
  Extractor.file_name row = JStr k.

(** Every row has a string for its file name. *)
Definition all_keyed (rows : list Row) : Prop :=
  Forall (fun row => exists k, keyed k row) rows.

(** The number of resumes that a request asks for. *)
Definition topnOf (request : Server.MatchRequest) : nat :=
  match Server.topn request with
  | Some n => n
  | None => 3%nat
  end.

(** What the page shows when its request is answered with [response]. *)
Definition shown (response : Server.Response) : Dashboard.View :=
  after (Dashboard.handleSearch (Dashboard.Responded response))
    (Dashboard.mkView false "" [] None).

(** The file can be read: it exists and reading it does not fail. *)
Definition readable (d : Disk) : Prop :=
  is_Some (file d) /\ read_fault d = false.

(** The line feed, the character that the cleaning deletes. *)
Definition lineFeed (c : ascii) : bool := (Text.code c =? 10)%nat.

(** The text has no backtick. *)
Definition unfenced (s : string) : Prop :=
  all_chars (fun c => negb (Text.is_backtick c)) s.

(** Neither an apostrophe nor a line break. *)
Definition plain (c : ascii) : bool :=
  negb (Text.code c =? 39)%nat && negb (Text.is_newline c).

(** ** Scenarios *)
Module Scenario.

(** An endpoint that answers its [n]-th call with the [n]-th entry of a
    script; its state is the number of calls made. *)
Definition scripted (script : list (Completion (option string))) : Invoke nat :=
  fun n => (nth n script (Throw (mkError "Error" "no reply")), S n).

Definition throttling : Completion (option string) :=
  Throw (mkError "ThrottlingException" "Too many requests").

Definition alwaysThrottled : Invoke nat :=
  fun n => (throttling, S n).

Definition freshDisk : Disk := mkDisk None false false.

Definition start : World nat := mkWorld 0%nat [] freshDisk.

(** Write a JSON text with apostrophes for its double quotes. *)
Definition json (s : string) : string := Text.double_quotes s.

Definition candidate (fileName : string) : Row :=
  [("resume_file_name", JStr fileName)].

Definition candidates : list Row :=
  [candidate "a.pdf"; candidate "b.pdf"; candidate "c.pdf"].

Definition someTags : JsValue := JObj [("Skills", JStr "AWS")].

(** A bucket of two pages with one resume each; the object store and the
    document loader work. *)
Definition bucket (endpoint : Invoke nat) : Extractor.Services nat :=
  Extractor.mkServices nat
    (fun token n =>
       (Return
          match token with
          | None => Extractor.mkListResponse ["resume_input/a.pdf"] true (Some "page-2")
          | Some _ => Extractor.mkListResponse ["resume_input/b.pdf"] false None
          end, n))
    (fun key localPath n => (Return tt, n))
    (fun sourceKey destinationKey n => (Return tt, n))
    (fun sourceKey n => (Return tt, n))
    (fun pdfPath resumeId n => (Return ["Ten years of Python"], n))
    endpoint
    (fun n => (Return "/tmp/resume-processor-1", n))
    (fun path n => n).

(** The endpoint answers every call with the same text. *)
Definition answers (content : string) : Invoke nat :=
  fun n => (Return (Some content), S n).

Definition twoPages : Extractor.Services nat :=
  bucket (answers (json "{'Skills': 'Python'}")).

(** A stored workbook whose failure ledger lists [x.pdf]. *)
Definition staleLedger : WorkBook :=
  mkWorkBook ["Failed Files"] {[ "Failed Files" := [[("file", JStr "x.pdf")]] ]}.

Definition withStaleLedger : World nat :=
  mkWorld 0%nat [] (mkDisk (Some staleLedger) false false).

Definition readOnly : World nat :=
  mkWorld 0%nat [] (mkDisk (Some staleLedger) false true).





(** Two throttled attempts, then an answer. *)
Definition thirdTimeLucky : Invoke nat :=
  scripted [throttling; throttling; Return (Some "ok")].

Definition accessDenied : Error := mkError "AccessDeniedException" "".

Definition denied : Invoke nat := scripted [Throw accessDenied].

Definition record (fileName skills : string) : Row :=
  [("resume_file_name", JStr fileName); ("Skills", JStr skills)].

(** A stored corpus of two resumes. *)
Definition storedCorpus : WorkBook :=
  mkWorkBook ["Resume Tags"]
    {[ "Resume Tags" := [record "a.pdf" "Java"; record "b.pdf" "Go"] ]}.

Definition withCorpus : World nat :=
  mkWorld 0%nat [] (mkDisk (Some storedCorpus) false false).

(** The run of [processS3Bucket] over [twoPages] with a cap of one
    resume, up to the end of its loop and its last save. *)
Definition cappedRun : Completion bool * Extractor.Frame (E := nat) :=
  Extractor.ingest (rt := Node.runtime) twoPages 5
    "resume-ranking-bucket" "resume_input/" 1
    (Extractor.mkFrame Extractor.initialLocals start).

(** The start of a run on a disk that cannot be written. *)
Definition readOnlyRun : Extractor.Frame (E := nat) :=
  Extractor.mkFrame Extractor.initialLocals readOnly.

(** The files of the server: only [a.pdf] is there, and copying works. *)
Definition onlyA : Server.Files nat :=
  Server.mkFiles nat
    (fun path n => String.eqb path "/srv/a.pdf")
    (fun srcPath dstPath n => (Return tt, n)).

(** The endpoint of a query: the tags of the job description, then the
    scores of the resumes. *)
Definition matching : Invoke nat :=
  scripted [Return (Some (json "{'Skills': 'Python'}"));
            Return (Some (json "{'a.pdf': 85, 'b.pdf': 70, 'c.pdf': 40}"))].

Definition request : Server.MatchRequest :=
  Server.mkMatchRequest (Some "Python developer") None.

(** The tags and the scores that [matching] answers with. *)
Definition pythonTags : JsValue := JObj [("Skills", JStr "Python")].

Definition twoScores : list (string * IntOrNaN) :=
  [("a.pdf", Int 85); ("b.pdf", Int 70)].

(** A model reply in a fence with a language tag, between white space. *)
Definition fencedBody : string :=
  String (ascii_of_nat 10) (json "{'Skills': 'Python'}" ++ String (ascii_of_nat 10) "").

Definition fencedReply : string :=
  ("  ```json" ++ fencedBody ++ "```" ++ String (ascii_of_nat 10) "")%string.

(** A stored workbook with a sheet of its owner's beside the corpus. *)
Definition annotated : WorkBook :=
  mkWorkBook ["Resume Tags"; "Notes"]
    (<["Notes" := [[("note", JStr "checked")]]]>
       {[ "Resume Tags" := [record "a.pdf" "Java"] ]}).

Definition withNotes : World nat :=
  mkWorld 0%nat [] (mkDisk (Some annotated) false false).


(** A bucket of one page whose objects cannot be downloaded. *)
Definition offline : Extractor.Services nat :=
  Extractor.mkServices nat
    (fun token n =>
       (Return (Extractor.mkListResponse
                  ["resume_input/a.pdf"; "resume_input/notes.txt"] false None), n))
    (fun key localPath n => (Throw accessDenied, n))
    (fun sourceKey destinationKey n => (Return tt, n))
    (fun sourceKey n => (Return tt, n))
    (fun pdfPath resumeId n => (Return ["Ten years of Python"], n))
    (answers (json "{'Skills': 'Python'}"))
    (fun n => (Return "/tmp/resume-processor-1", n))
    (fun path n => n).

(** A bucket of one page whose document cannot be loaded. *)
Definition damaged : Extractor.Services nat :=
  Extractor.mkServices nat
    (fun token n =>
       (Return (Extractor.mkListResponse ["resume_input/a.pdf"] false None), n))
    (fun key localPath n => (Return tt, n))
    (fun sourceKey destinationKey n => (Return tt, n))
    (fun sourceKey n => (Return tt, n))
    (fun pdfPath resumeId n => (Throw (mkError "Error" "Invalid PDF structure"), n))
    (answers (json "{'Skills': 'Python'}"))
    (fun n => (Return "/tmp/resume-processor-1", n))
    (fun path n => n).

End Scenario.

(** * Properties *)

(** ** The retry loop *)
Section Retry.
Context {E A : Type}.

(** One turn of the loop. *)
Lemma retry_loop_step (fn : Async E A) maxRetries initialDelay retries w :
  retry_loop fn maxRetries initialDelay retries w =
  match fn w with
  | (Return v, w') => (Return v, w')
  | (Throw error, w') =>
      if is_throttling error && (retries <? maxRetries)%nat
      then retry_loop fn maxRetries initialDelay (S retries)
             (sleep (initialDelay * 2 ^ Z.of_nat retries) w')
      else (Throw error, w')
  end.
Proof.
  rewrite retry_loop_equation_1.
  destruct (fn w) as [[v | error] w']; simpl; [reflexivity |].
  destruct (sumbool_of_bool _) as [Hb | Hb]; simpl; rewrite Hb; reflexivity.
Qed.

Lemma backoff_cons initialDelay i k :
  backoff initialDelay i (S k) =
  initialDelay * 2 ^ Z.of_nat i :: backoff initialDelay (S i) k.
Proof. reflexivity. Qed.

(** [k] throttled attempts cost [k] sleeps and leave the loop where it
    was, [k] retries later. *)
Lemma retry_loop_throttled (op : E -> Completion A * E) maxRetries initialDelay :
  forall k retries x x' log d,
    (retries + k <= maxRetries)%nat ->
    throttled op k x x' ->
    retry_loop (external op) maxRetries initialDelay retries (mkWorld x log d) =
    retry_loop (external op) maxRetries initialDelay (retries + k)
      (mkWorld x' (log ++ backoff initialDelay retries k) d).
Proof.
  induction k as [| k IH]; intros retries x x' log d Hle Hthr.
  - simpl in Hthr. subst x'. rewrite Nat.add_0_r. unfold backoff. simpl.
    rewrite app_nil_r. reflexivity.
  - destruct Hthr as (error & x1 & Hop & Hname & Hrest).
    rewrite retry_loop_step. unfold external at 1. simpl. rewrite Hop.
    rewrite Hname. simpl.
    assert (Hlt : (retries <? maxRetries)%nat = true) by (apply Nat.ltb_lt; lia).
    rewrite Hlt. unfold sleep. simpl.
    replace (retries + S k)%nat with (S retries + k)%nat by lia.
    rewrite backoff_cons.
    rewrite (IH (S retries) x1 x') by (assumption || lia).
    rewrite <- app_assoc. reflexivity.
Qed.

Lemma retry_loop_returns (op : E -> Completion A * E) maxRetries initialDelay retries x v x' log d :
  op x = (Return v, x') ->
  retry_loop (external op) maxRetries initialDelay retries (mkWorld x log d) =
  (Return v, mkWorld x' log d).
Proof.
  intros Hop. rewrite retry_loop_step. unfold external. simpl. rewrite Hop. reflexivity.
Qed.

Lemma retry_loop_throws (op : E -> Completion A * E) maxRetries initialDelay retries x error x' log d :
  op x = (Throw error, x') ->
  is_throttling error = false \/ (maxRetries <= retries)%nat ->
  retry_loop (external op) maxRetries initialDelay retries (mkWorld x log d) =
  (Throw error, mkWorld x' log d).
Proof.
  intros Hop Hwhy. rewrite retry_loop_step. unfold external. simpl. rewrite Hop.
  destruct Hwhy as [Hname | Hle].
  - rewrite Hname. reflexivity.
  - assert (Hlt : (retries <? maxRetries)%nat = false) by (apply Nat.ltb_ge; lia).
    rewrite Hlt, andb_false_r. reflexivity.
Qed.

(** The outcome of the loop when [k] throttled attempts are followed by
    an attempt that returns, or that throws an error not retried. *)
Lemma retry_loop_outcome (op : E -> Completion A * E) maxRetries initialDelay
  k x x1 c x' log d :
  (k <= maxRetries)%nat ->
  throttled op k x x1 ->
  op x1 = (c, x') ->
  match c with
  | Return _ => True
  | Throw error => is_throttling error = false \/ k = maxRetries
  end ->
  retry_loop (external op) maxRetries initialDelay 0 (mkWorld x log d) =
  (c, mkWorld x' (log ++ backoff initialDelay 0 k) d).
Proof.
  intros Hk Hthr Hop Hc.
  rewrite (retry_loop_throttled op maxRetries initialDelay k 0%nat x x1)
    by (assumption || lia).
  simpl. destruct c as [v | error].
  - now apply retry_loop_returns.
  - apply retry_loop_throws; [assumption |]. destruct Hc; [auto | right; lia].
Qed.

(** The loop only looks at what the retried function computes. *)
Lemma retry_loop_ext (fn fn' : Async E A) maxRetries initialDelay :
  (forall w, fn w = fn' w) ->
  forall n retries w,
    (maxRetries - retries = n)%nat ->
    retry_loop fn maxRetries initialDelay retries w =
    retry_loop fn' maxRetries initialDelay retries w.
Proof.
  intros Hext. induction n as [| n IH]; intros retries w Hn;
    rewrite (retry_loop_step fn), (retry_loop_step fn'), <- Hext;
    destruct (fn w) as [[v | error] w1]; try reflexivity;
    destruct (is_throttling error && (retries <? maxRetries)%nat) eqn:Hc;
    try reflexivity;
    apply andb_prop in Hc as [_ Hlt]; apply Nat.ltb_lt in Hlt.
  - lia.
  - apply IH. lia.
Qed.

End Retry.

Section Answering.
Context {E A B : Type} (f : A -> Completion B) (op : E -> Completion A * E).

Lemma throttled_answering k x x' :
  throttled op k x x' -> throttled (answering f op) k x x'.
Proof.
  revert x; induction k as [| k IH]; simpl; intros x; [trivial |].
  intros (error & x1 & Hop & Hname & Hrest).
  exists error, x1. unfold answering at 1. rewrite Hop. auto.
Qed.

Lemma bind_external_answering (w : World E) :
  bind (external op) (fun a w => (f a, w)) w = external (answering f op) w.
Proof.
  unfold bind, external, answering.
  destruct (op (ext w)) as [[a | error] x']; reflexivity.
Qed.
End Answering.



Section Before.
Context {A B : Type}.









End Before.

(** ** [Array.prototype.sort] *)
Section Sort.
Context {A : Type} (cmp : A -> A -> IntOrNaN).

Lemma sort_insert_In x l y :
  In y (Js.sort_insert cmp x l) <-> y = x \/ In y l.
Proof.
  induction l as [| z l IH]; simpl.
  - intuition.
  - destruct (Js.precedes cmp x z); simpl; rewrite ?IH; intuition.
Qed.

Lemma Array_sort_In l y : In y (Js.Array_sort cmp l) <-> In y l.
Proof.
  induction l as [| x l IH]; simpl; [tauto |].
  rewrite sort_insert_In, IH. intuition.
Qed.



(** Sortedness, for elements that the comparator orders by a value. *)
Context (val : A -> Z) (good : A -> Prop).
Hypothesis precedes_val :
  forall x y, good x -> good y -> Js.precedes cmp x y = (val y <=? val x).

Lemma sort_insert_sorted x l :
  good x -> Forall good l ->
  StronglySorted (descending val) l ->
  StronglySorted (descending val) (Js.sort_insert cmp x l).
Proof.
  intros Hx. induction l as [| y l IH]; simpl; intros Hgood Hs.
  - repeat constructor.
  - apply Forall_cons_iff in Hgood as [Hy Hgood].
    apply StronglySorted_inv in Hs as [Hs Hall].
    rewrite List.Forall_forall in Hall.
    rewrite (precedes_val x y Hx Hy).
    destruct (val y <=? val x) eqn:Hle.
    + apply Z.leb_le in Hle.
      constructor; [constructor; auto; now apply List.Forall_forall |].
      apply List.Forall_forall. intros z [<- | Hz]; [exact Hle |].
      specialize (Hall z Hz). unfold descending in *. lia.
    + apply Z.leb_gt in Hle. constructor; [auto |].
      apply List.Forall_forall. intros z Hz.
      apply sort_insert_In in Hz as [-> | Hz]; [| auto].
      unfold descending. lia.
Qed.

Lemma Array_sort_sorted l :
  Forall good l -> StronglySorted (descending val) (Js.Array_sort cmp l).
Proof.
  induction l as [| x l IH]; simpl; intros Hgood; [constructor |].
  apply Forall_cons_iff in Hgood as [Hx Hgood].
  apply sort_insert_sorted; auto.
  apply List.Forall_forall. intros y Hy.
  rewrite List.Forall_forall in Hgood. apply Hgood, Array_sort_In, Hy.
Qed.

End Sort.

(** ** Insertion-ordered objects *)
Section Objects.
Context {V : Type}.
Implicit Types (o es : list (string * V)) (k : string) (v : V).

Lemma obj_set_keys k v o :
  Js.keys (Js.obj_set k v o) =
  if existsb (String.eqb k) (Js.keys o) then Js.keys o else Js.keys o ++ [k].
Proof.
  induction o as [| [k' v'] o IH]; simpl; [reflexivity |].
  rewrite (String.eqb_sym k k').
  destruct (String.eqb k' k) eqn:Hk; simpl; [reflexivity |].
  unfold Js.keys in *. rewrite IH.
  destruct (existsb _ _); reflexivity.
Qed.

Lemma existsb_eqb_In k (l : list string) :
  existsb (String.eqb k) l = true <-> In k l.
Proof.
  rewrite existsb_exists. split.
  - intros (x & Hx & Heq). apply String.eqb_eq in Heq. now subst.
  - intros Hin. exists k. split; auto. apply String.eqb_refl.
Qed.

Lemma obj_set_NoDup k v o :
  List.NoDup (Js.keys o) -> List.NoDup (Js.keys (Js.obj_set k v o)).
Proof.
  intros Hnd. rewrite obj_set_keys.
  destruct (existsb _ _) eqn:Hex; [assumption |].
  apply List.NoDup_app; auto.
  - repeat constructor. simpl. tauto.
  - intros x Hx [<- | []].
    apply existsb_eqb_In in Hx. congruence.
Qed.


Lemma fold_obj_set_NoDup es o :
  List.NoDup (Js.keys o) ->
  List.NoDup (Js.keys (fold_left (fun o kv => Js.obj_set (fst kv) (snd kv) o) es o)).
Proof.
  revert o; induction es as [| [k v] es IH]; simpl; intros o Hnd; [assumption |].
  apply IH. now apply obj_set_NoDup.
Qed.



Lemma Object_fromEntries_NoDup es : List.NoDup (Js.keys (Js.Object_fromEntries es)).
Proof. apply fold_obj_set_NoDup. constructor. Qed.



(** In an object the first entry of a key is its only entry. *)
Lemma obj_get_In o k v :
  List.NoDup (Js.keys o) -> In (k, v) o -> Js.obj_get k o = Some v.
Proof.
  induction o as [| [k0 v0] o IH]; simpl; intros Hnd Hin; [contradiction |].
  apply List.NoDup_cons_iff in Hnd as [Hnotin Hnd].
  destruct Hin as [Heq | Hin].
  - inversion Heq; subst. now rewrite String.eqb_refl.
  - destruct (String.eqb k0 k) eqn:Hk.
    + apply String.eqb_eq in Hk. subst.
      exfalso. apply Hnotin. change k with (fst (k, v)). now apply in_map.
    + auto.
Qed.

Lemma obj_get_Some_In o k v : Js.obj_get k o = Some v -> In (k, v) o.
Proof.
  induction o as [| [k0 v0] o IH]; simpl; [discriminate |].
  destruct (String.eqb k0 k) eqn:Hk.
  - apply String.eqb_eq in Hk. intros [= ->]. subst. auto.
  - auto.
Qed.
End Objects.

(** ** The relevance scorer *)
Section Scorer.
Context {rt : Runtime}.




Lemma validate_NoDup resumeData obj :
  List.NoDup (Js.keys (Server.validate resumeData obj)).
Proof.
  unfold Server.validate. destruct (Js.is_object obj).
  - apply Object_fromEntries_NoDup.
  - constructor.
Qed.



Context {E : Type} (bedrockRuntime : Invoke E).

(** The two shapes of a result of [findBestResumes]. *)
Lemma findBestResumes_inv jdTags resumeData topn threshold w r w' :
  Server.findBestResumes bedrockRuntime jdTags resumeData topn threshold w
    = (Return r, w') ->
  r = Server.noMatch \/
  exists obj,
    r = Server.mkMatchResult
          (Server.rank (Server.validate resumeData obj) topn threshold)
          (Server.validate resumeData obj).
Proof.
  unfold Server.findBestResumes. destruct (Server.nullish jdTags); [discriminate |].
  unfold try_catch, bind, ret, throw.
  destruct (Server.retryWithExponentialBackoff _ _ _ w) as [[[content |] | error] w1].
  - unfold Server.parse_scores.
    destruct (JSON_parse _) as [obj |]; intros [= <- <-]; eauto.
  - intros [= <- <-]. auto.
  - intros [= <- <-]. auto.
Qed.

End Scorer.

(** ** The tag extractor of the query path *)
Section JdTags.
Context {rt : Runtime} {E : Type} (bedrockRuntime : Invoke E).

Lemma tagsOfReply_not_throttling reply error :
  tagsOfReply reply = Throw error -> is_throttling error = false.
Proof.
  unfold tagsOfReply. destruct reply as [content |].
  - destruct (negb _); [intros [= <-]; reflexivity | discriminate].
  - intros [= <-]. reflexivity.
Qed.

(** [extractJdTags] is the loop over the endpoint answering with
    [tagsOfReply], with every error turned into [null]. *)
Lemma extractJdTags_unfold jdText w :
  Server.extractJdTags bedrockRuntime jdText w =
  match retry_loop (external (answering tagsOfReply bedrockRuntime)) 5 1000 0 w with
  | (Return v, w') => (Return v, w')
  | (Throw _, w') => (Return JNull, w')
  end.
Proof.
  unfold Server.extractJdTags, Server.retryWithExponentialBackoff, try_catch, bind, ret.
  erewrite (retry_loop_ext _ (external (answering tagsOfReply bedrockRuntime)));
    [| | reflexivity].
  - destruct (retry_loop _ _ _ _ _) as [[v | error] w']; reflexivity.
  - intros w0. rewrite <- bind_external_answering. unfold bind, tagsOfReply, throw, ret.
    destruct (external bedrockRuntime w0) as [[[content |] | error] w1]; try reflexivity.
    destruct (negb _); reflexivity.
Qed.

Lemma extractJdTags_total jdText w :
  exists v w', Server.extractJdTags bedrockRuntime jdText w = (Return v, w').
Proof.
  rewrite extractJdTags_unfold.
  destruct (retry_loop _ _ _ _ _) as [[v | error] w']; eauto.
Qed.

(** After [k] throttled attempts the endpoint replies. *)
Lemma extractJdTags_reply jdText w k x1 reply x' :
  (k <= 5)%nat ->
  throttled bedrockRuntime k (ext w) x1 ->
  bedrockRuntime x1 = (Return reply, x') ->
  Server.extractJdTags bedrockRuntime jdText w =
  (Return match tagsOfReply reply with
          | Return v => v
          | Throw _ => JNull
          end,
   mkWorld x' (sleeps w ++ backoff 1000 0 k) (disk w)).
Proof.
  intros Hk Hthr Hop. rewrite extractJdTags_unfold. destruct w as [x log d]. simpl in *.
  rewrite (retry_loop_outcome (answering tagsOfReply bedrockRuntime) 5 1000 k x x1
             (tagsOfReply reply) x' log d); auto.
  - destruct (tagsOfReply reply); reflexivity.
  - now apply throttled_answering.
  - unfold answering. now rewrite Hop.
  - destruct (tagsOfReply reply) eqn:Hr; [trivial |].
    left. now apply tagsOfReply_not_throttling in Hr.
Qed.

(** After [k] throttled attempts the endpoint fails for good. *)
Lemma extractJdTags_failure jdText w k x1 error x' :
  (k <= 5)%nat ->
  throttled bedrockRuntime k (ext w) x1 ->
  bedrockRuntime x1 = (Throw error, x') ->
  is_throttling error = false \/ k = 5%nat ->
  Server.extractJdTags bedrockRuntime jdText w =
  (Return JNull, mkWorld x' (sleeps w ++ backoff 1000 0 k) (disk w)).
Proof.
  intros Hk Hthr Hop Hwhy. rewrite extractJdTags_unfold. destruct w as [x log d]. simpl in *.
  rewrite (retry_loop_outcome (answering tagsOfReply bedrockRuntime) 5 1000 k x x1
             (Throw error) x' log d); auto.
  - now apply throttled_answering.
  - unfold answering. now rewrite Hop.
Qed.

Lemma findBestResumes_total jdTags resumeData topn threshold w :
  Server.nullish jdTags = false ->
  exists r w',
    Server.findBestResumes bedrockRuntime jdTags resumeData topn threshold w
      = (Return r, w').
Proof.
  intros Hnn. unfold Server.findBestResumes. rewrite Hnn.
  unfold try_catch, bind, ret, throw.
  destruct (Server.retryWithExponentialBackoff _ _ _ w) as [[[content |] | error] w1];
    eauto.
  destruct (Server.parse_scores _ _); eauto.
Qed.


Lemma findBestResumes_failure jdTags resumeData topn threshold w k x1 error x' :
  Server.nullish jdTags = false ->
  (k <= 5)%nat ->
  throttled bedrockRuntime k (ext w) x1 ->
  bedrockRuntime x1 = (Throw error, x') ->
  is_throttling error = false \/ k = 5%nat ->
  Server.findBestResumes bedrockRuntime jdTags resumeData topn threshold w =
  (Return Server.noMatch, mkWorld x' (sleeps w ++ backoff 1000 0 k) (disk w)).
Proof.
  intros Hnn Hk Hthr Hop Hwhy. unfold Server.findBestResumes. rewrite Hnn.
  unfold try_catch, bind, ret, throw, Server.retryWithExponentialBackoff.
  destruct w as [x log d]. simpl in *.
  rewrite (retry_loop_outcome bedrockRuntime 5 1000 k x x1
             (Throw error) x' log d); auto.
Qed.

End JdTags.

(** ** The tag extractor of the ingestion path *)
Section ChunkTags.
Context {rt : Runtime} {E : Type} (svc : Extractor.Services E).

Lemma extractTagsFromChunks_total chunks w :
  exists v w', Extractor.extractTagsFromChunks svc chunks w = (Return v, w').
Proof.
  unfold Extractor.extractTagsFromChunks, try_catch, bind, ret, throw.
  destruct (Extractor.retryWithExponentialBackoff _ _ _ w)
    as [[[content |] | error] w1]; eauto.
Qed.

Lemma extractTagsFromChunks_reply chunks w k x1 content x' :
  (k <= 5)%nat ->
  throttled (Extractor.bedrockRuntime svc) k (ext w) x1 ->
  Extractor.bedrockRuntime svc x1 = (Return (Some content), x') ->
  Extractor.extractTagsFromChunks svc chunks w =
  (Return (Extractor.parseLLMOutput content),
   mkWorld x' (sleeps w ++ backoff 1000 0 k) (disk w)).
Proof.
  intros Hk Hthr Hop.
  unfold Extractor.extractTagsFromChunks, try_catch, bind, ret, throw,
    Extractor.retryWithExponentialBackoff.
  destruct w as [x log d]. simpl in *.
  rewrite (retry_loop_outcome (Extractor.bedrockRuntime svc) 5 1000 k x x1
             (Return (Some content)) x' log d); auto.
Qed.

End ChunkTags.

(** ** The cleaning of a reply *)
Section Cleaning.

Lemma drop_while_length p s :
  (String.length (Text.drop_while p s) <= String.length s)%nat.
Proof.
  induction s as [| c r IH]; simpl; [lia |].
  destruct (p c); simpl; lia.
Qed.

Lemma span_length p s key rest :
  Text.span p s = (key, rest) -> (String.length rest <= String.length s)%nat.
Proof.
  revert key rest; induction s as [| c r IH]; simpl; intros key rest.
  - intros [= <- <-]. simpl. lia.
  - destruct (p c).
    + destruct (Text.span p r) as [a b]. intros [= <- <-].
      specialize (IH a b eq_refl). lia.
    + intros [= <- <-]. simpl. lia.
Qed.

Lemma match_trailing_comma_length s rest :
  Text.match_trailing_comma s = Some rest ->
  (String.length rest < String.length s)%nat.
Proof.
  unfold Text.match_trailing_comma. destruct s as [| c r]; [discriminate |].
  destruct (Ascii.eqb_spec c ","%char) as [-> | Hne].
  - pose proof (drop_while_length Text.is_space r) as Hle.
    destruct (Text.drop_while Text.is_space r) as [| c1 r1]; [discriminate |].
    destruct (Ascii.eqb_spec c1 "}"%char) as [-> | Hne1].
    + intros [= <-]. simpl in *. lia.
    + destruct c1 as [[] [] [] [] [] [] [] []]; try discriminate. congruence.
  - destruct c as [[] [] [] [] [] [] [] []]; try discriminate. congruence.
Qed.

Lemma match_bare_key_length s c key rest :
  Text.match_bare_key s = Some (c, key, rest) ->
  (String.length rest < String.length s)%nat.
Proof.
  unfold Text.match_bare_key. destruct s as [| c0 r]; [discriminate |].
  destruct (_ || _); [| discriminate].
  pose proof (drop_while_length Text.is_space r) as H1.
  destruct (Text.span Text.is_word (Text.drop_while Text.is_space r)) as [k r2] eqn:Hspan.
  apply span_length in Hspan.
  pose proof (drop_while_length Text.is_space r2) as H2.
  destruct k as [| k0 k']; [discriminate |].
  destruct (Text.drop_while Text.is_space r2) as [| c1 r3]; [discriminate |].
  destruct (Ascii.eqb_spec c1 ":"%char) as [-> | Hne].
  - intros [= <- <- <-]. simpl in *. lia.
  - destruct c1 as [[] [] [] [] [] [] [] []]; try discriminate. congruence.
Qed.

(** The fuel of the two scans is enough: more fuel changes nothing. *)
Lemma drop_trailing_commas_fuel n m s :
  (String.length s <= n)%nat -> (String.length s <= m)%nat ->
  Text.drop_trailing_commas_from n s = Text.drop_trailing_commas_from m s.
Proof.
  revert m s; induction n as [| n IH]; intros m s Hn Hm.
  - destruct s; simpl in *; [| lia]. destruct m; reflexivity.
  - destruct s as [| c r]; [destruct m; reflexivity |].
    destruct m as [| m]; [simpl in *; lia |].
    cbn [Text.drop_trailing_commas_from].
    destruct (Text.match_trailing_comma (String c r)) as [rest |] eqn:Hmatch.
    + apply match_trailing_comma_length in Hmatch. simpl in *.
      rewrite (IH m rest) by lia. reflexivity.
    + simpl in *. rewrite (IH m r) by lia. reflexivity.
Qed.

Lemma quote_bare_keys_fuel n m s :
  (String.length s <= n)%nat -> (String.length s <= m)%nat ->
  Text.quote_bare_keys_from n s = Text.quote_bare_keys_from m s.
Proof.
  revert m s; induction n as [| n IH]; intros m s Hn Hm.
  - destruct s; simpl in *; [| lia]. destruct m; reflexivity.
  - destruct s as [| c r]; [destruct m; reflexivity |].
    destruct m as [| m]; [simpl in *; lia |].
    cbn [Text.quote_bare_keys_from].
    destruct (Text.match_bare_key (String c r)) as [[[c1 key] rest] |] eqn:Hmatch.
    + apply match_bare_key_length in Hmatch. simpl in *.
      rewrite (IH m rest) by lia. reflexivity.
    + simpl in *. rewrite (IH m r) by lia. reflexivity.
Qed.

Lemma all_chars_drop_while p q s :
  all_chars p s -> all_chars p (Text.drop_while q s).
Proof.
  induction s as [| c r IH]; simpl; [trivial |].
  intros [Hc Hr]. destruct (q c); simpl; auto.
Qed.

Lemma all_chars_drop_while_end p q s :
  all_chars p s -> all_chars p (Text.drop_while_end q s).
Proof.
  induction s as [| c r IH]; simpl; [trivial |].
  intros [Hc Hr]. specialize (IH Hr).
  destruct (Text.drop_while_end q r); simpl in *.
  - destruct (q c); simpl; auto.
  - tauto.
Qed.

Lemma all_chars_trim p s : all_chars p s -> all_chars p (Text.trim s).
Proof.
  intros Hs. now apply all_chars_drop_while_end, all_chars_drop_while.
Qed.

Lemma all_chars_remove p q s :
  all_chars p s -> all_chars p (Text.remove q s).
Proof.
  induction s as [| c r IH]; simpl; [trivial |].
  intros [Hc Hr]. destruct (q c); simpl; auto.
Qed.

Lemma all_chars_collapse p q b s :
  p " "%char = true -> all_chars p s -> all_chars p (Text.collapse q b s).
Proof.
  intros Hsp. revert b; induction s as [| c r IH]; simpl; intros b; [trivial |].
  intros [Hc Hr]. destruct (q c); [destruct b |]; simpl; auto.
Qed.

(** After [replace(/\s+/g, ' ')] the only white space left is the space. *)
Lemma collapse_spaces b s :
  all_chars (fun c => negb (Text.is_space c) || Ascii.eqb c " ")
    (Text.collapse Text.is_space b s).
Proof.
  revert b; induction s as [| c r IH]; simpl; intros b; [trivial |].
  destruct (Text.is_space c) eqn:Hc; [destruct b |]; simpl; auto.
  split; auto. now rewrite Hc.
Qed.

Lemma strip_backticks_clean s :
  all_chars (fun c => negb (Text.is_backtick c)) (Text.strip_backticks s).
Proof.
  assert (Hlen : forall n s, (String.length s <= n)%nat ->
             all_chars (fun c => negb (Text.is_backtick c)) (Text.strip_backticks s)).
  { induction n as [| n IH]; intros [| c r] Hle; simpl in *; trivial; [lia |].
    destruct (Text.is_backtick c) eqn:Hc.
    - destruct r as [| c1 [| c2 r3]]; simpl in *; trivial.
      + apply (IH (String c1 EmptyString)). simpl. lia.
      + destruct (Text.is_backtick c1 && Text.is_backtick c2).
        * apply IH. lia.
        * apply (IH (String c1 (String c2 r3))). simpl. lia.
    - simpl. rewrite Hc. split; [reflexivity |]. apply IH. lia. }
  eauto.
Qed.

Lemma strip_json_fences_clean s :
  all_chars (fun c => negb (Text.is_backtick c)) (Text.strip_json_fences s).
Proof.
  unfold Text.strip_json_fences. destruct (Text.strip_prefix _ s);
    apply strip_backticks_clean.
Qed.

(** What [parseLLMOutput] of [server.js] hands to [JSON.parse] has no
    backtick and no line feed, and no white space but single spaces. *)
Lemma server_clean_normal raw :
  all_chars (fun c => negb (Text.is_backtick c)) (Server.clean raw) /\
  all_chars (fun c => negb (Text.is_space c) || Ascii.eqb c " ") (Server.clean raw).
Proof.
  unfold Server.clean. split.
  - apply all_chars_trim, all_chars_collapse; [reflexivity |].
    apply all_chars_remove, strip_json_fences_clean.
  - apply all_chars_trim, collapse_spaces.
Qed.


End Cleaning.

(** ** The corpus store *)
Section Workbooks.

Lemma existsb_eqb_false (k : string) (l : list string) :
  ~ In k l -> existsb (String.eqb k) l = false.
Proof.
  intros Hnotin. destruct (existsb _ _) eqn:Hex; [| reflexivity].
  apply existsb_eqb_In in Hex. contradiction.
Qed.

Lemma removeSheet_names sheetName workbook :
  consistent workbook ->
  ~ In sheetName (SheetNames (Extractor.removeSheet sheetName workbook)).
Proof.
  intros Hcons. unfold Extractor.removeSheet.
  destruct (Sheets workbook !! sheetName) eqn:Hlook; simpl.
  - intros Hin. apply filter_In in Hin as [_ Hne].
    now rewrite String.eqb_refl in Hne.
  - intros Hin. apply Hcons in Hin as [sheet Hsheet]. congruence.
Qed.

Lemma removeSheet_consistent sheetName workbook :
  consistent workbook -> consistent (Extractor.removeSheet sheetName workbook).
Proof.
  intros Hcons. unfold Extractor.removeSheet.
  destruct (Sheets workbook !! sheetName) eqn:Hlook; [| assumption].
  intros other Hin. simpl in *. apply filter_In in Hin as [Hin Hne].
  rewrite lookup_delete_ne; [auto |].
  intros ->. now rewrite String.eqb_refl in Hne.
Qed.

Lemma removeSheet_lookup_ne sheetName other workbook :
  other <> sheetName ->
  Sheets (Extractor.removeSheet sheetName workbook) !! other =
  Sheets workbook !! other.
Proof.
  intros Hne. unfold Extractor.removeSheet.
  destruct (Sheets workbook !! sheetName); simpl; [| reflexivity].
  now rewrite lookup_delete_ne.
Qed.

Lemma append_after_remove sheetName sheet workbook :
  consistent workbook ->
  XLSX.book_append_sheet (Extractor.removeSheet sheetName workbook) sheet sheetName
  = Return (putSheet sheetName sheet workbook).
Proof.
  intros Hcons. unfold XLSX.book_append_sheet.
  rewrite existsb_eqb_false by now apply removeSheet_names.
  reflexivity.
Qed.

Lemma putSheet_consistent sheetName sheet workbook :
  consistent workbook -> consistent (putSheet sheetName sheet workbook).
Proof.
  intros Hcons other Hin. unfold putSheet in *. simpl in *.
  destruct (String.eqb_spec other sheetName) as [-> | Hne].
  - rewrite lookup_insert_eq. eauto.
  - rewrite lookup_insert_ne by congruence.
    apply in_app_or in Hin as [Hin | [<- | []]]; [| congruence].
    now apply removeSheet_consistent.
Qed.

Lemma putSheet_lookup sheetName sheet workbook :
  Sheets (putSheet sheetName sheet workbook) !! sheetName = Some sheet.
Proof. unfold putSheet. simpl. apply lookup_insert_eq. Qed.

Lemma putSheet_lookup_ne sheetName other sheet workbook :
  other <> sheetName ->
  Sheets (putSheet sheetName sheet workbook) !! other = Sheets workbook !! other.
Proof.
  intros Hne. unfold putSheet. simpl.
  rewrite lookup_insert_ne by congruence. now apply removeSheet_lookup_ne.
Qed.

Lemma book_new_consistent : consistent XLSX.book_new.
Proof. intros sheetName []. Qed.

End Workbooks.

Section Store.
Context {E : Type}.
Implicit Types (w : World E) (results : list Row) (failedFiles : list string).

Lemma opened_consistent d : healthy d -> consistent (opened d).
Proof.
  intros (_ & _ & Hfile). unfold opened. destruct (file d); [assumption |].
  apply book_new_consistent.
Qed.

Lemma writeResults_healthy results failedFiles w :
  healthy (disk w) ->
  Extractor.writeResults (E := E) results failedFiles w =
  (Return tt,
   mkWorld (ext w) (sleeps w)
     (mkDisk (Some (flushed (opened (disk w)) results failedFiles)) false false)).
Proof.
  intros Hhealthy. pose proof (opened_consistent _ Hhealthy) as Hcons.
  destruct Hhealthy as (Hread & Hwrite & _).
  destruct w as [x log [stored_file rf wf]]. simpl in *. subst rf wf.
  unfold Extractor.writeResults, flushed, opened in *. simpl in *.
  unfold try_catch, bind, Extractor.fileExists, Extractor.readFile, get, ret, throw.
  simpl.
  destruct stored_file as [workbook |]; simpl;
    [destruct (Sheets workbook !! "Resume Tags") as [sheet |] eqn:Hsheet; simpl |];
    unfold Extractor.append_sheet, XLSX.json_to_sheet, XLSX.sheet_to_json;
    rewrite append_after_remove by assumption; simpl;
    (destruct (0 <? length failedFiles)%nat; simpl;
     [rewrite append_after_remove by now apply putSheet_consistent |]);
    reflexivity.
Qed.

(** A flush leaves the world as it was, but for the file when the write
    succeeds. *)
Lemma writeResults_frame results failedFiles w c w' :
  Extractor.writeResults results failedFiles w = (c, w') ->
  ext w' = ext w /\ sleeps w' = sleeps w /\
  match c with
  | Return _ => True
  | Throw _ => w' = w
  end.
Proof.
  unfold Extractor.writeResults.
  unfold try_catch, bind, Extractor.fileExists, Extractor.readFile,
    Extractor.writeFile, Extractor.append_sheet, get, ret, throw, modify.
  destruct w as [x log [[workbook |] rf wf]]; simpl;
    [destruct rf; simpl;
     [| destruct (Sheets workbook !! "Resume Tags"); simpl] |];
    repeat match goal with
      | |- context [XLSX.book_append_sheet ?a ?b ?n] =>
          destruct (XLSX.book_append_sheet a b n); simpl
      | |- context [(0 <? length failedFiles)%nat] =>
          destruct (0 <? length failedFiles)%nat; simpl
      end;
    try destruct wf; simpl; intros [= <- <-]; auto.
Qed.

Lemma saveToExcel_total results failedFiles w :
  exists w',
    Extractor.saveToExcel results failedFiles w = (Return tt, w') /\
    ext w' = ext w /\ sleeps w' = sleeps w.
Proof.
  unfold Extractor.saveToExcel, try_catch, ret.
  destruct (Extractor.writeResults results failedFiles w) as [[[] | error] w'] eqn:Hw;
    apply writeResults_frame in Hw as (Hext & Hsleeps & Hw); eauto.
Qed.

Lemma saveToExcel_failed results failedFiles w error w1 :
  Extractor.writeResults results failedFiles w = (Throw error, w1) ->
  Extractor.saveToExcel results failedFiles w = (Return tt, w).
Proof.
  intros Hw. unfold Extractor.saveToExcel, try_catch, ret. rewrite Hw.
  apply writeResults_frame in Hw as (_ & _ & ->). reflexivity.
Qed.

Lemma saveToExcel_healthy results failedFiles w :
  healthy (disk w) ->
  Extractor.saveToExcel (E := E) results failedFiles w =
  (Return tt,
   mkWorld (ext w) (sleeps w)
     (mkDisk (Some (flushed (opened (disk w)) results failedFiles)) false false)).
Proof.
  intros Hh. unfold Extractor.saveToExcel, try_catch.
  now rewrite writeResults_healthy.
Qed.

Lemma flushed_consistent workbook results failedFiles :
  consistent workbook -> consistent (flushed workbook results failedFiles).
Proof.
  intros Hcons. unfold flushed.
  destruct (0 <? length failedFiles)%nat; repeat apply putSheet_consistent; auto.
Qed.

Lemma flushed_corpus workbook results failedFiles :
  Sheets (flushed workbook results failedFiles) !! "Resume Tags" =
  Some (Extractor.mergeResults
          match Sheets workbook !! "Resume Tags" with
          | Some sheet => sheet
          | None => []
          end results).
Proof.
  unfold flushed. destruct (0 <? length failedFiles)%nat.
  - rewrite putSheet_lookup_ne by discriminate. apply putSheet_lookup.
  - apply putSheet_lookup.
Qed.

Lemma flushed_ledger workbook results failedFiles :
  Sheets (flushed workbook results failedFiles) !! "Failed Files" =
  match failedFiles with
  | [] => Sheets workbook !! "Failed Files"
  | _ :: _ => Some (Extractor.failedRows failedFiles)
  end.
Proof.
  unfold flushed. destruct failedFiles as [| f failedFiles];
    cbn [length Nat.ltb Nat.leb].
  - now rewrite putSheet_lookup_ne by discriminate.
  - apply putSheet_lookup.
Qed.

End Store.

Section Upsert.
Context (k : string) (r : Row).
Hypothesis key_of_r : Extractor.file_name r = JStr k.

Lemma same_key item :
  Extractor.strict_equal (Extractor.file_name item) (Extractor.file_name r)
  = Server.has_file_name k item.
Proof.
  rewrite key_of_r. unfold Extractor.file_name, Server.has_file_name.
  destruct (Js.obj_get "resume_file_name" item) as [[] |]; reflexivity.
Qed.

Lemma has_own_key : Server.has_file_name k r = true.
Proof.
  unfold Extractor.file_name in key_of_r. unfold Server.has_file_name.
  destruct (Js.obj_get "resume_file_name" r) as [v |]; [| discriminate].
  subst v. apply String.eqb_refl.
Qed.

Lemma upsert_cons row rows :
  Extractor.upsert (row :: rows) r =
  if Server.has_file_name k row then r :: rows
  else row :: Extractor.upsert rows r.
Proof.
  unfold Extractor.upsert. simpl. rewrite same_key.
  destruct (Server.has_file_name k row); [reflexivity |].
  destruct (Js.findIndex _ rows); reflexivity.
Qed.

Lemma upsert_nil : Extractor.upsert [] r = [r].
Proof. reflexivity. Qed.

Lemma upsert_idempotent rows :
  Extractor.upsert (Extractor.upsert rows r) r = Extractor.upsert rows r.
Proof.
  induction rows as [| row rows IH].
  - rewrite upsert_nil, upsert_cons, has_own_key. reflexivity.
  - rewrite upsert_cons. destruct (Server.has_file_name k row) eqn:Hrow.
    + rewrite upsert_cons, has_own_key. reflexivity.
    + rewrite upsert_cons, Hrow, IH. reflexivity.
Qed.

Lemma upsert_count rows :
  count_key k (Extractor.upsert rows r) = Nat.max 1 (count_key k rows).
Proof.
  unfold count_key. induction rows as [| row rows IH].
  - rewrite upsert_nil. simpl. rewrite has_own_key. reflexivity.
  - rewrite upsert_cons. simpl. destruct (Server.has_file_name k row) eqn:Hrow; simpl.
    + rewrite has_own_key. simpl. lia.
    + rewrite Hrow. exact IH.
Qed.




End Upsert.

Section StoredCorpus.
Context {E : Type}.

Lemma corpus_opened (w : World E) :
  match Sheets (opened (disk w)) !! "Resume Tags" with
  | Some sheet => sheet
  | None => []
  end = corpus w.
Proof.
  unfold corpus, stored, opened. destruct (file (disk w)); reflexivity.
Qed.

Lemma saveToExcel_corpus results failedFiles (w : World E) :
  healthy (disk w) ->
  corpus (snd (Extractor.saveToExcel results failedFiles w)) =
  Extractor.mergeResults (corpus w) results.
Proof.
  intros Hh. rewrite saveToExcel_healthy by assumption.
  unfold corpus at 1, stored. simpl.
  now rewrite flushed_corpus, corpus_opened.
Qed.

Lemma saveToExcel_keeps_healthy results failedFiles (w : World E) :
  healthy (disk w) ->
  healthy (disk (snd (Extractor.saveToExcel results failedFiles w))).
Proof.
  intros Hh. rewrite saveToExcel_healthy by assumption. simpl.
  repeat split. simpl. now apply flushed_consistent, opened_consistent.
Qed.

Lemma saveToExcel_ledger results failedFiles (w : World E) :
  healthy (disk w) ->
  stored "Failed Files" (snd (Extractor.saveToExcel results failedFiles w)) =
  match failedFiles with
  | [] => stored "Failed Files" w
  | _ :: _ => Some (Extractor.failedRows failedFiles)
  end.
Proof.
  intros Hh. rewrite saveToExcel_healthy by assumption.
  unfold stored at 1. simpl. rewrite flushed_ledger.
  destruct failedFiles; [| reflexivity].
  unfold stored, opened. destruct (file (disk w)); reflexivity.
Qed.

End StoredCorpus.

(** ** The ingestion loop *)
Section Ingestion.
Context {rt : Runtime} {E : Type} (svc : Extractor.Services E).

Lemma moveFileInS3_total sourceKey destinationKey (w : World E) :
  exists moved w',
    Extractor.moveFileInS3 svc sourceKey destinationKey w = (Return moved, w') /\
    disk w' = disk w.
Proof.
  unfold Extractor.moveFileInS3, try_catch, bind, external, ret.
  destruct (Extractor.copyObject svc sourceKey destinationKey (ext w)) as [[[] | e] x1];
    simpl; [| eauto].
  destruct (Extractor.deleteObject svc sourceKey x1) as [[[] | e] x2]; simpl; eauto.
Qed.

(** A document that is downloaded and loaded counts as processed and
    adds nothing to the failed files, whatever becomes of the flush. *)
Lemma processObject_processed prefix tempDir maxResumes key f x1 chunks x2 :
  Text.ends_with ".pdf" (Text.toLowerCase key) = true ->
  key ∉ Extractor.processedFiles (Extractor.locals f) ->
  Extractor.getObject svc key (tempPdfPathOf tempDir key) (ext (Extractor.world f))
    = (Return tt, x1) ->
  Extractor.loadSplitEmbed svc (tempPdfPathOf tempDir key)
    (Text.basename_ext key ".pdf") x1 = (Return chunks, x2) ->
  exists flow f',
    Extractor.processObject svc prefix tempDir maxResumes key f = (Return flow, f') /\
    flow <> Extractor.Continue /\
    Extractor.failedFiles (Extractor.locals f') =
      Extractor.failedFiles (Extractor.locals f) /\
    Extractor.totalProcessed (Extractor.locals f') =
      S (Extractor.totalProcessed (Extractor.locals f)) /\
    length (Extractor.results (Extractor.locals f')) =
      S (length (Extractor.results (Extractor.locals f))).
Proof.
  intros Hpdf Hnew Hget Hload.
  set (resumeId := Text.basename_ext key ".pdf") in *.
  set (tempPdfPath := (tempDir ++ "/" ++ resumeId ++ ".pdf")%string).
  change (tempPdfPathOf tempDir key) with tempPdfPath in *.
  destruct f as [l w]. simpl in *.
  unfold Extractor.processObject. rewrite Hpdf. simpl.
  unfold Extractor.read, Extractor.update, Extractor.await, bind, get, ret, modify,
    try_catch, delay. simpl.
  rewrite bool_decide_eq_false_2 by assumption.
  unfold Extractor.downloadFromS3, try_catch, bind, external, ret. simpl.
  fold resumeId. fold tempPdfPath. rewrite Hget. simpl.
  unfold Extractor.processResumeAndStore, external. simpl. rewrite Hload. simpl.
  destruct (extractTagsFromChunks_total svc chunks
              (mkWorld x2 (sleeps w ++ [2000]) (disk w))) as (tags & w3 & Htags).
  rewrite Htags. simpl.
  match goal with
  | |- context [Extractor.moveFileInS3 svc ?a ?b w3] =>
      destruct (moveFileInS3_total a b w3) as (moved & w4 & Hmove & _)
  end.
  rewrite Hmove. simpl.
  match goal with
  | |- context [Extractor.saveToExcel ?a ?b w4] =>
      destruct (saveToExcel_total (E := E) a b w4) as (w5 & Hsave & _)
  end.
  rewrite Hsave. simpl.
  destruct (maxResumes <=? S (Extractor.totalProcessed l))%nat; simpl;
    eexists; eexists; (split; [reflexivity |]); simpl;
    rewrite ?length_app; simpl; repeat split; try discriminate; lia.
Qed.

End Ingestion.

(** * The claims *)

(** An endpoint of a scenario is seen to throttle by running it. *)
Ltac throttled_by_evaluation :=
  simpl;
  repeat (do 2 eexists; split; [reflexivity |]; split; [reflexivity |]);
  reflexivity.

(** ** Relevance scorer *)



(** Equal scores: [c.pdf] and [a.pdf] both score 70 and stay in the order
    of the reply, after [b.pdf] with 90; with [topn = 2] the last is cut. *)
Example findBestResumes_ties :
  Server.selected
    (match fst (Server.findBestResumes (rt := Node.runtime)
                  (Scenario.answers
                     (Scenario.json "{'c.pdf': 70, 'a.pdf': 70, 'b.pdf': 90}"))
                  Scenario.someTags Scenario.candidates 3 60 Scenario.start) with
     | Return r => r
     | Throw _ => Server.noMatch
     end) = ["b.pdf"; "c.pdf"; "a.pdf"] /\
  Server.rank [("c.pdf", Int 70); ("a.pdf", Int 70); ("b.pdf", Int 90)] 2 60
    = ["b.pdf"; "c.pdf"].
Proof. split; vm_compute; reflexivity. Qed.




(** ** Resilient invoker *)

(** C6.  When the operation throws a throttling error at each of its first
    [k] calls, [k < maxRetries], and returns [v] at the next,
    [retryWithExponentialBackoff] returns [v] after exactly [k] sleeps, of
    [initialDelay], [2 * initialDelay], ..., [2^(k-1) * initialDelay]
    milliseconds.  When the first call throws an error of another kind, the
    error is thrown on after that one call and no sleep.  Both copies of the
    function behave so. *)
Theorem retryWithExponentialBackoff_schedule {E A : Type}
  (op : E -> Completion A * E) (maxRetries : nat) (initialDelay : Z)
  (w : World E) :
  (forall k x1 v x',
     (k < maxRetries)%nat ->
     throttled op k (ext w) x1 ->
     op x1 = (Return v, x') ->
     Server.retryWithExponentialBackoff (external op) maxRetries initialDelay w
       = (Return v, mkWorld x' (sleeps w ++ backoff initialDelay 0 k) (disk w)) /\
     Extractor.retryWithExponentialBackoff (external op) maxRetries initialDelay w
       = (Return v, mkWorld x' (sleeps w ++ backoff initialDelay 0 k) (disk w))) /\
  (forall error x',
     op (ext w) = (Throw error, x') ->
     is_throttling error = false ->
     Server.retryWithExponentialBackoff (external op) maxRetries initialDelay w
       = (Throw error, mkWorld x' (sleeps w) (disk w)) /\
     Extractor.retryWithExponentialBackoff (external op) maxRetries initialDelay w
       = (Throw error, mkWorld x' (sleeps w) (disk w))).
Proof.
  destruct w as [x log d]. simpl.
  unfold Server.retryWithExponentialBackoff, Extractor.retryWithExponentialBackoff.
  split.
  - intros k x1 v x' Hk Hthr Hop.
    rewrite (retry_loop_outcome op maxRetries initialDelay k x x1 (Return v) x' log d);
      auto; lia.
  - intros error x' Hop Hkind.
    rewrite (retry_loop_outcome op maxRetries initialDelay 0 x x (Throw error) x' log d);
      simpl; auto; try lia.
    unfold backoff. simpl. rewrite app_nil_r. auto.
Qed.

Lemma retryWithExponentialBackoff_schedule_witness :
  ((2 < 5)%nat /\ throttled Scenario.thirdTimeLucky 2 0%nat 2%nat /\
   Scenario.thirdTimeLucky 2%nat = (Return (Some "ok"%string), 3%nat)) /\
  Server.retryWithExponentialBackoff (external Scenario.thirdTimeLucky) 5 1000
    Scenario.start
  = (Return (Some "ok"%string), mkWorld 3%nat [1000; 2000] Scenario.freshDisk) /\
  (Scenario.denied 0%nat = (Throw Scenario.accessDenied, 1%nat) /\
   is_throttling Scenario.accessDenied = false) /\
  Server.retryWithExponentialBackoff (external Scenario.denied) 5 1000 Scenario.start
  = (Throw Scenario.accessDenied, mkWorld 1%nat [] Scenario.freshDisk).
Proof.
  assert (Hthr : throttled Scenario.thirdTimeLucky 2 0%nat 2%nat).
  { throttled_by_evaluation. }
  split; [split; [lia | split; [exact Hthr | reflexivity]] |].
  split; [| split; [split; reflexivity |]].
  - apply (proj1 (retryWithExponentialBackoff_schedule Scenario.thirdTimeLucky
                    5 1000 Scenario.start)
             2%nat 2%nat (Some "ok"%string) 3%nat); [lia | exact Hthr | reflexivity].
  - apply (proj2 (retryWithExponentialBackoff_schedule Scenario.denied
                    5 1000 Scenario.start)
             Scenario.accessDenied 1%nat); reflexivity.
Defined.

(** C5, as amended.  When the endpoint throws a throttling error at each of
    the six attempts, [retryWithExponentialBackoff] throws the last of these
    errors after five sleeps, but the error does not leave the query path:
    [extractJdTags] catches it and returns [null], and [findBestResumes]
    catches it and returns an empty selection with an empty score object. *)
Theorem exhausted_retries_are_absorbed {rt : Runtime} {E : Type}
  (bedrockRuntime : Invoke E) (jdText : string) (jdTags : JsValue)
  (resumeData : list Row) (topn : nat) (threshold : Z) (w : World E)
  (x1 : E) (error : Error) (x' : E) :
  throttled bedrockRuntime 5 (ext w) x1 ->
  bedrockRuntime x1 = (Throw error, x') ->
  is_throttling error = true ->
  Server.nullish jdTags = false ->
  Server.retryWithExponentialBackoff (external bedrockRuntime) 5 1000 w
    = (Throw error,
       mkWorld x' (sleeps w ++ [1000; 2000; 4000; 8000; 16000]) (disk w)) /\
  Server.extractJdTags bedrockRuntime jdText w
    = (Return JNull,
       mkWorld x' (sleeps w ++ [1000; 2000; 4000; 8000; 16000]) (disk w)) /\
  Server.findBestResumes bedrockRuntime jdTags resumeData topn threshold w
    = (Return Server.noMatch,
       mkWorld x' (sleeps w ++ [1000; 2000; 4000; 8000; 16000]) (disk w)).
Proof.
  intros Hthr Hop Hkind Hnn.
  change [1000; 2000; 4000; 8000; 16000] with (backoff 1000 0 5).
  repeat split.
  - destruct w as [x log d]. unfold Server.retryWithExponentialBackoff.
    apply (retry_loop_outcome bedrockRuntime 5 1000 5 x x1 (Throw error)); auto.
  - apply (extractJdTags_failure bedrockRuntime jdText w 5 x1 error x'); auto.
  - apply (findBestResumes_failure bedrockRuntime jdTags resumeData topn threshold
             w 5 x1 error x'); auto.
Qed.

Lemma always_throttled_five_times :
  throttled Scenario.alwaysThrottled 5 0%nat 5%nat.
Proof.
  throttled_by_evaluation.
Defined.

Lemma exhausted_retries_are_absorbed_witness :
  (throttled Scenario.alwaysThrottled 5 0%nat 5%nat /\
   Scenario.alwaysThrottled 5%nat = (Scenario.throttling, 6%nat) /\
   is_throttling (mkError "ThrottlingException" "Too many requests") = true /\
   Server.nullish Scenario.someTags = false) /\
  Server.extractJdTags (rt := Node.runtime) Scenario.alwaysThrottled "Python, 5 years"
    Scenario.start
  = (Return JNull, mkWorld 6%nat [1000; 2000; 4000; 8000; 16000] Scenario.freshDisk) /\
  Server.findBestResumes (rt := Node.runtime) Scenario.alwaysThrottled
    Scenario.someTags Scenario.candidates 3 60 Scenario.start
  = (Return Server.noMatch,
     mkWorld 6%nat [1000; 2000; 4000; 8000; 16000] Scenario.freshDisk).
Proof.
  split; [split; [exact always_throttled_five_times | repeat split] |].
  exact (proj2 (exhausted_retries_are_absorbed (rt := Node.runtime)
           Scenario.alwaysThrottled "Python, 5 years" Scenario.someTags
           Scenario.candidates 3 60 Scenario.start 5%nat _ 6%nat
           always_throttled_five_times eq_refl eq_refl eq_refl)).
Defined.

(** C5, the counterexample.  The endpoint throttles every attempt; the two
    operations of the query path return, [extractJdTags] with [null] and
    [findBestResumes] with the empty result, and neither throws. *)
Lemma exhausted_retries_do_not_escape :
  throttled Scenario.alwaysThrottled 6 0%nat 6%nat /\
  Server.extractJdTags (rt := Node.runtime) Scenario.alwaysThrottled "Python, 5 years"
    Scenario.start
  = (Return JNull, mkWorld 6%nat [1000; 2000; 4000; 8000; 16000] Scenario.freshDisk) /\
  Server.findBestResumes (rt := Node.runtime) Scenario.alwaysThrottled
    Scenario.someTags Scenario.candidates 3 60 Scenario.start
  = (Return Server.noMatch,
     mkWorld 6%nat [1000; 2000; 4000; 8000; 16000] Scenario.freshDisk).
Proof.
  split; [| split; vm_compute; reflexivity].
  throttled_by_evaluation.
Qed.

(** ** Tag extractor and output sanitizer *)

(** C7, as amended.  Neither extractor throws.  When the endpoint has
    replied and the cleaned reply does not parse, [extractJdTags] returns
    [null], and [extractTagsFromChunks] returns the tag record whose four
    fields are empty, not [null].  A reply that parses is not required to be
    an object: [extractJdTags] returns the parsed value when it is truthy
    and [null] otherwise, [extractTagsFromChunks] returns it as it is. *)
Theorem extractors_on_malformed_reply {rt : Runtime} {E : Type}
  (svc : Extractor.Services E) (jdText : string) (chunks : list string)
  (w : World E) :
  (exists v w', Server.extractJdTags (Extractor.bedrockRuntime svc) jdText w
                = (Return v, w')) /\
  (exists v w', Extractor.extractTagsFromChunks svc chunks w = (Return v, w')) /\
  (forall k x1 content x',
     (k <= 5)%nat ->
     throttled (Extractor.bedrockRuntime svc) k (ext w) x1 ->
     Extractor.bedrockRuntime svc x1 = (Return (Some content), x') ->
     (JSON_parse (Server.clean content) = None ->
      Server.extractJdTags (Extractor.bedrockRuntime svc) jdText w
        = (Return JNull, mkWorld x' (sleeps w ++ backoff 1000 0 k) (disk w))) /\
     (forall v, JSON_parse (Server.clean content) = Some v ->
      Server.extractJdTags (Extractor.bedrockRuntime svc) jdText w
        = (Return (if Js.truthy v then v else JNull),
           mkWorld x' (sleeps w ++ backoff 1000 0 k) (disk w))) /\
     (JSON_parse (Extractor.clean content) = None ->
      Extractor.extractTagsFromChunks svc chunks w
        = (Return Extractor.emptyTags,
           mkWorld x' (sleeps w ++ backoff 1000 0 k) (disk w))) /\
     (forall v, JSON_parse (Extractor.clean content) = Some v ->
      Extractor.extractTagsFromChunks svc chunks w
        = (Return v, mkWorld x' (sleeps w ++ backoff 1000 0 k) (disk w)))).
Proof.
  split; [apply extractJdTags_total |].
  split; [apply extractTagsFromChunks_total |].
  intros k x1 content x' Hk Hthr Hop.
  rewrite (extractJdTags_reply _ jdText w k x1 (Some content) x' Hk Hthr Hop).
  rewrite (extractTagsFromChunks_reply svc chunks w k x1 content x' Hk Hthr Hop).
  unfold tagsOfReply, Server.parseLLMOutput, Extractor.parseLLMOutput.
  repeat split.
  - intros ->. reflexivity.
  - intros v ->. destruct (Js.truthy v); reflexivity.
  - intros ->. reflexivity.
  - intros v ->. reflexivity.
Qed.

Lemma extractors_on_malformed_reply_witness :
  ((0 <= 5)%nat /\
   throttled (Scenario.answers "Sorry, no tags.") 0 0%nat 0%nat /\
   Scenario.answers "Sorry, no tags." 0%nat
     = (Return (Some "Sorry, no tags."%string), 1%nat) /\
   Node.JSON_parse (Server.clean "Sorry, no tags.") = None /\
   Node.JSON_parse (Extractor.clean "Sorry, no tags.") = None) /\
  Server.extractJdTags (rt := Node.runtime) (Scenario.answers "Sorry, no tags.")
    "Python, 5 years" Scenario.start
  = (Return JNull, mkWorld 1%nat [] Scenario.freshDisk) /\
  Extractor.extractTagsFromChunks (rt := Node.runtime)
    (Scenario.bucket (Scenario.answers "Sorry, no tags.")) ["Ten years"%string]
    Scenario.start
  = (Return Extractor.emptyTags, mkWorld 1%nat [] Scenario.freshDisk).
Proof.
  split; [repeat split; (lia || reflexivity) |].
  destruct (proj2 (proj2 (extractors_on_malformed_reply (rt := Node.runtime)
                            (Scenario.bucket (Scenario.answers "Sorry, no tags."))
                            "Python, 5 years" ["Ten years"%string] Scenario.start))
              0%nat 0%nat "Sorry, no tags."%string 1%nat
              (Nat.le_0_l 5) eq_refl eq_refl)
    as (Hjd & _ & Hchunks & _).
  split; [apply Hjd | apply Hchunks]; reflexivity.
Defined.

(** C7, the counterexample.  The reply [Sorry, no tags.] does not parse:
    [extractTagsFromChunks] returns the empty tag record, which is not
    [null].  The reply [42] parses to a number, not an object:
    [extractJdTags] returns the number, not [null]. *)
Lemma extractors_do_not_always_return_null :
  Node.JSON_parse (Extractor.clean "Sorry, no tags.") = None /\
  Extractor.extractTagsFromChunks (rt := Node.runtime)
    (Scenario.bucket (Scenario.answers "Sorry, no tags.")) ["Ten years"%string]
    Scenario.start
  = (Return Extractor.emptyTags, mkWorld 1%nat [] Scenario.freshDisk) /\
  Extractor.emptyTags <> JNull /\
  Node.JSON_parse (Server.clean "42") = Some (JNum 42 0) /\
  Js.is_object (JNum 42 0) = false /\
  Server.extractJdTags (rt := Node.runtime) (Scenario.answers "42") "Python, 5 years"
    Scenario.start
  = (Return (JNum 42 0), mkWorld 1%nat [] Scenario.freshDisk).
Proof. repeat split; try (vm_compute; reflexivity). discriminate. Qed.




(** ** Corpus store *)


Lemma withCorpus_healthy : healthy (disk Scenario.withCorpus).
Proof.
  split; [reflexivity | split; [reflexivity |]].
  intros sheetName [<- | []]. vm_compute. eauto.
Defined.


(** C8, as amended.  On a healthy store a save with a failure list that is
    not empty replaces the "Failed Files" partition by exactly that list;
    a save with an empty failure list leaves the partition as it was, so
    the failures of an earlier run stay.  This holds of [saveToExcel] and
    of the same steps at the end of [processS3Bucket]. *)
Theorem saveToExcel_failed_files {E : Type} (w : World E) (results : list Row)
  (failedFiles : list string) :
  healthy (disk w) ->
  (failedFiles <> [] ->
   stored "Failed Files" (after (Extractor.saveToExcel results failedFiles) w)
   = Some (Extractor.failedRows failedFiles) /\
   stored "Failed Files" (after (Extractor.writeResults results failedFiles) w)
   = Some (Extractor.failedRows failedFiles)) /\
  (failedFiles = [] ->
   stored "Failed Files" (after (Extractor.saveToExcel results failedFiles) w)
   = stored "Failed Files" w /\
   stored "Failed Files" (after (Extractor.writeResults results failedFiles) w)
   = stored "Failed Files" w).
Proof.
  intros Hh.
  assert (Hsame : after (Extractor.writeResults results failedFiles) w
                  = after (Extractor.saveToExcel results failedFiles) w).
  { unfold after. rewrite saveToExcel_healthy, writeResults_healthy by assumption.
    reflexivity. }
  rewrite Hsame. unfold after. rewrite saveToExcel_ledger by assumption.
  destruct failedFiles; repeat split; congruence.
Qed.

Lemma withStaleLedger_healthy : healthy (disk Scenario.withStaleLedger).
Proof.
  split; [reflexivity | split; [reflexivity |]].
  intros sheetName [<- | []]. vm_compute. eauto.
Defined.

Lemma saveToExcel_failed_files_witness :
  (healthy (disk Scenario.withStaleLedger) /\ ["y.pdf"%string] <> []) /\
  stored "Failed Files"
    (after (Extractor.saveToExcel [] ["y.pdf"%string]) Scenario.withStaleLedger)
  = Some [[("file"%string, JStr "y.pdf")]].
Proof.
  split; [split; [exact withStaleLedger_healthy | discriminate] |].
  refine (proj1 (proj1 (saveToExcel_failed_files Scenario.withStaleLedger []
                          ["y.pdf"%string] withStaleLedger_healthy) _)).
  discriminate.
Defined.

(** C8, the counterexample.  The store lists [x.pdf] as failed; a save with
    an empty failure list leaves that row in the partition instead of
    emptying it. *)
Lemma saveToExcel_keeps_stale_failures :
  stored "Failed Files" Scenario.withStaleLedger
    = Some [[("file"%string, JStr "x.pdf")]] /\
  stored "Failed Files"
    (after (Extractor.saveToExcel [Scenario.record "a.pdf" "Python"] [])
       Scenario.withStaleLedger)
    = Some [[("file"%string, JStr "x.pdf")]] /\
  Some [[("file"%string, JStr "x.pdf")]] <> Some (Extractor.failedRows []).
Proof. repeat split; try (vm_compute; reflexivity). discriminate. Qed.

(** C10.  [saveToExcel] always returns normally, having touched nothing
    but the file.  When the flush fails the world, the file included, is
    as before the call.  In the ingestion loop a document that was
    downloaded and loaded is counted as processed and adds nothing to the
    failed files, and the loop goes on, whatever became of the flush. *)
Theorem saveToExcel_never_throws {rt : Runtime} {E : Type}
  (svc : Extractor.Services E) (results : list Row) (failedFiles : list string)
  (w : World E) :
  (exists w',
     Extractor.saveToExcel results failedFiles w = (Return tt, w') /\
     ext w' = ext w /\ sleeps w' = sleeps w) /\
  (forall error w1,
     Extractor.writeResults results failedFiles w = (Throw error, w1) ->
     Extractor.saveToExcel results failedFiles w = (Return tt, w)) /\
  (forall prefix tempDir maxResumes key f x1 chunks x2,
     Text.ends_with ".pdf" (Text.toLowerCase key) = true ->
     key ∉ Extractor.processedFiles (Extractor.locals f) ->
     Extractor.getObject svc key (tempPdfPathOf tempDir key)
       (ext (Extractor.world f)) = (Return tt, x1) ->
     Extractor.loadSplitEmbed svc (tempPdfPathOf tempDir key)
       (Text.basename_ext key ".pdf") x1 = (Return chunks, x2) ->
     exists flow f',
       Extractor.processObject svc prefix tempDir maxResumes key f
         = (Return flow, f') /\
       flow <> Extractor.Continue /\
       Extractor.failedFiles (Extractor.locals f')
         = Extractor.failedFiles (Extractor.locals f) /\
       Extractor.totalProcessed (Extractor.locals f')
         = S (Extractor.totalProcessed (Extractor.locals f)) /\
       length (Extractor.results (Extractor.locals f'))
         = S (length (Extractor.results (Extractor.locals f)))).
Proof.
  split; [apply saveToExcel_total |].
  split; [apply saveToExcel_failed |].
  intros prefix tempDir maxResumes key f x1 chunks x2.
  apply processObject_processed.
Qed.

Lemma saveToExcel_never_throws_witness :
  (Extractor.writeResults [Scenario.record "a.pdf" "Python"] [] Scenario.readOnly
   = (Throw (mkError "Error" "Cannot write the workbook"), Scenario.readOnly)) /\
  Extractor.saveToExcel [Scenario.record "a.pdf" "Python"] [] Scenario.readOnly
  = (Return tt, Scenario.readOnly) /\
  (Text.ends_with ".pdf" (Text.toLowerCase "resume_input/a.pdf") = true /\
   ("resume_input/a.pdf"%string
      ∉ Extractor.processedFiles (Extractor.locals Scenario.readOnlyRun)) /\
   Extractor.getObject Scenario.twoPages "resume_input/a.pdf"
     (tempPdfPathOf "/tmp/resume-processor-1" "resume_input/a.pdf") 0%nat
   = (Return tt, 0%nat) /\
   Extractor.loadSplitEmbed Scenario.twoPages
     (tempPdfPathOf "/tmp/resume-processor-1" "resume_input/a.pdf")
     (Text.basename_ext "resume_input/a.pdf" ".pdf") 0%nat
   = (Return ["Ten years of Python"%string], 0%nat)) /\
  exists flow f',
    Extractor.processObject (rt := Node.runtime) Scenario.twoPages "resume_input/"
      "/tmp/resume-processor-1" 200 "resume_input/a.pdf" Scenario.readOnlyRun
    = (Return flow, f') /\
    Extractor.failedFiles (Extractor.locals f') = [] /\
    Extractor.totalProcessed (Extractor.locals f') = 1%nat.
Proof.
  assert (Hfail :
    Extractor.writeResults [Scenario.record "a.pdf" "Python"] [] Scenario.readOnly
    = (Throw (mkError "Error" "Cannot write the workbook"), Scenario.readOnly))
    by (vm_compute; reflexivity).
  assert (Hnew : "resume_input/a.pdf"%string
                   ∉ Extractor.processedFiles (Extractor.locals Scenario.readOnlyRun))
    by (simpl; apply not_elem_of_empty).
  split; [exact Hfail |].
  split.
  - exact (proj1 (proj2 (saveToExcel_never_throws (rt := Node.runtime)
                           Scenario.twoPages [Scenario.record "a.pdf" "Python"] []
                           Scenario.readOnly)) _ _ Hfail).
  - split; [repeat split; (exact Hnew || reflexivity) |].
    destruct (proj2 (proj2 (saveToExcel_never_throws (rt := Node.runtime)
                              Scenario.twoPages [] [] Scenario.readOnly))
                "resume_input/"%string "/tmp/resume-processor-1"%string 200%nat
                "resume_input/a.pdf"%string Scenario.readOnlyRun 0%nat
                ["Ten years of Python"%string] 0%nat
                eq_refl Hnew eq_refl eq_refl)
      as (flow & f' & Hrun & _ & Hfailed & Htotal & _).
    exists flow, f'. repeat split; assumption.
Defined.

(** ** Ingestion pipeline *)

(** C4, at the failing input.  The cap is one resume and the bucket lists
    one resume on each of two pages.  The cap is reached on the first page,
    yet the second page is listed and its resume is processed as well: two
    resumes are processed and stored, and the endpoint is called twice.
    The loop is then left and the run ends, by the error of the undeclared
    name in its summary. *)
Theorem processS3Bucket_overruns_maxResumes :
  fst Scenario.cappedRun
    = Throw (mkError "ReferenceError" "excelFileName is not defined") /\
  Extractor.totalProcessed (Extractor.locals (snd Scenario.cappedRun)) = 2%nat /\
  map Extractor.file_name
    (corpus (after (Extractor.processS3Bucket (rt := Node.runtime) Scenario.twoPages
                      5 "resume-ranking-bucket" "resume_input/" 1)
               Scenario.start))
    = [JStr "a.pdf"; JStr "b.pdf"] /\
  ext (Extractor.world (snd Scenario.cappedRun)) = 2%nat /\
  (1 < 2)%nat.
Proof.
  split; [| split; [| split; [| split]]];
    [vm_compute; reflexivity | vm_compute; reflexivity | vm_compute; reflexivity
    | vm_compute; reflexivity | lia].
Qed.

(** * Further properties

    Of the functions above, and of [copyFilteredPdfs], the handler of
    [/api/match-resumes] and the page that calls it: their behaviour on
    errors and at the edges, their invariants, and how they compose. *)

(** ** The retry loop, whatever the operation *)
Section RetryBound.
Context {E A : Type} (op : E -> Completion A * E).

Lemma backoff_snoc initialDelay i k :
  backoff initialDelay i (S k) =
  backoff initialDelay i k ++ [initialDelay * 2 ^ Z.of_nat (i + k)].
Proof.
  unfold backoff. rewrite seq_S, map_app. reflexivity.
Qed.

Lemma retry_loop_bounded maxRetries initialDelay :
  forall n retries w,
    (maxRetries - retries = n)%nat ->
    exists k,
      (k <= n)%nat /\
      sleeps (snd (retry_loop (external op) maxRetries initialDelay retries w)) =
        sleeps w ++ backoff initialDelay retries k /\
      disk (snd (retry_loop (external op) maxRetries initialDelay retries w)) = disk w /\
      (forall error,
         fst (retry_loop (external op) maxRetries initialDelay retries w) = Throw error ->
         is_throttling error = true -> k = n).
Proof.
  induction n as [| n IH]; intros retries w Hn; rewrite retry_loop_step;
    unfold external at 1 3 5; destruct (op (ext w)) as [[v | error] x1]; simpl.
  - exists 0%nat. rewrite app_nil_r. repeat split; auto; try lia; try discriminate.
  - assert (Hlt : (retries <? maxRetries)%nat = false) by (apply Nat.ltb_ge; lia).
    rewrite Hlt, andb_false_r. simpl.
    exists 0%nat. rewrite app_nil_r. repeat split; auto.
  - exists 0%nat. rewrite app_nil_r. repeat split; auto; try lia; try discriminate.
  - assert (Hlt : (retries <? maxRetries)%nat = true) by (apply Nat.ltb_lt; lia).
    rewrite Hlt, andb_true_r. destruct (is_throttling error) eqn:Hname; simpl.
    + destruct (IH (S retries)
                  (sleep (initialDelay * 2 ^ Z.of_nat retries)
                     (mkWorld x1 (sleeps w) (disk w)))) as (k & Hk & Hs & Hd & Hthrow);
        [lia |].
      exists (S k). rewrite Hs, Hd. simpl. rewrite backoff_cons, <- app_assoc.
      repeat split; auto; try lia.
      intros e He Ht. f_equal. eauto.
    + exists 0%nat. rewrite app_nil_r. repeat split; auto; try lia.
      intros e [= <-]. congruence.
Qed.

Lemma backoff_total initialDelay k :
  fold_right Z.add 0 (backoff initialDelay 0 k) = initialDelay * (2 ^ Z.of_nat k - 1).
Proof.
  induction k as [| k IH].
  - simpl. lia.
  - rewrite backoff_snoc, fold_right_app. simpl fold_right at 2.
    assert (Hshift : forall l a, fold_right Z.add a l = fold_right Z.add 0 l + a).
    { induction l as [| z l IHl]; intros a; simpl; [lia |]. rewrite IHl. lia. }
    rewrite Hshift, IH. simpl. rewrite Nat2Z.inj_succ, Z.pow_succ_r by lia. lia.
Qed.
End RetryBound.

(** X1.  Whatever the retried operation does, [retryWithExponentialBackoff]
    sleeps at most [maxRetries] times; the delays are the first [k] of the
    schedule [initialDelay * 2^i], which add up to [initialDelay * (2^k - 1)];
    the file is not touched; a throttling error only leaves the function
    after all [maxRetries] sleeps; and the two copies of the function
    compute the same. *)
Theorem retryWithExponentialBackoff_bounded {E A : Type}
  (op : E -> Completion A * E) (maxRetries : nat) (initialDelay : Z) (w : World E) :
  exists k,
    (k <= maxRetries)%nat /\
    sleeps (after (Server.retryWithExponentialBackoff (external op) maxRetries initialDelay) w)
      = sleeps w ++ backoff initialDelay 0 k /\
    fold_right Z.add 0 (backoff initialDelay 0 k) = initialDelay * (2 ^ Z.of_nat k - 1) /\
    disk (after (Server.retryWithExponentialBackoff (external op) maxRetries initialDelay) w)
      = disk w /\
    (forall error,
       fst (Server.retryWithExponentialBackoff (external op) maxRetries initialDelay w)
         = Throw error ->
       is_throttling error = true -> k = maxRetries) /\
    Extractor.retryWithExponentialBackoff (external op) maxRetries initialDelay w =
    Server.retryWithExponentialBackoff (external op) maxRetries initialDelay w.
Proof.
  unfold after, Server.retryWithExponentialBackoff, Extractor.retryWithExponentialBackoff.
  destruct (retry_loop_bounded op maxRetries initialDelay maxRetries 0 w)
    as (k & Hk & Hs & Hd & Hthrow); [lia |].
  exists k. repeat split; auto. apply backoff_total.
Qed.

(** ** The selection of the best resumes *)
Section SortPerm.
Context {A : Type} (cmp : A -> A -> IntOrNaN).



End SortPerm.

Section SortMap.
Context {A B : Type} (f : A -> B) (cmp : A -> A -> IntOrNaN) (cmp' : B -> B -> IntOrNaN).

Lemma sort_insert_map x l :
  (forall y, In y l -> Js.precedes cmp' (f x) (f y) = Js.precedes cmp x y) ->
  Js.sort_insert cmp' (f x) (map f l) = map f (Js.sort_insert cmp x l).
Proof.
  induction l as [| y l IH]; simpl; intros Hcmp; [reflexivity |].
  rewrite Hcmp by auto. destruct (Js.precedes cmp x y); simpl; [reflexivity |].
  rewrite IH by auto. reflexivity.
Qed.

Lemma Array_sort_map l :
  (forall x y, In x l -> In y l -> Js.precedes cmp' (f x) (f y) = Js.precedes cmp x y) ->
  Js.Array_sort cmp' (map f l) = map f (Js.Array_sort cmp l).
Proof.
  induction l as [| x l IH]; simpl; intros Hcmp; [reflexivity |].
  rewrite IH by auto. apply sort_insert_map.
  intros y Hy. apply Array_sort_In in Hy. auto.
Qed.

End SortMap.

Section Sublists.
Context {A B : Type}.







End Sublists.

Section Ranking.




(** The names that the page lists begin with the files that the server
    selects. *)
Lemma matchedResumes_rank scores topn :
  Server.rank scores topn 60 =
  firstn topn (map Dashboard.name (Dashboard.matchedResumes scores)).
Proof.
  unfold Server.rank, Js.slice0, Dashboard.matchedResumes.
  rewrite <- firstn_map. f_equal.
  set (kept := List.filter (fun '(_, score) => Js.ge score 60) scores).
  assert (Hfilter :
    List.filter (fun '(name, score) => 60 <=? Dashboard.number score)
      (map (fun '(name, score) => (name, Dashboard.wire score)) scores)
    = map (fun '(name, score) => (name, Dashboard.wire score)) kept).
  { unfold kept. induction scores as [| [f [| z]] l IH]; simpl; [reflexivity | exact IH |].
    destruct (60 <=? z); simpl; now rewrite IH. }
  rewrite Hfilter, map_map.
  rewrite (map_ext _ (fun x : string * IntOrNaN =>
                        Dashboard.mkResume (fst x) (Dashboard.wire (snd x))))
    by (intros [f s]; reflexivity).
  rewrite (Array_sort_map
             (fun x : string * IntOrNaN =>
                Dashboard.mkResume (fst x) (Dashboard.wire (snd x)))
             (fun x y => Js.sub (snd y) (snd x))).
  - rewrite map_map. apply map_ext. intros [f s]. reflexivity.
  - intros [f1 s1] [f2 s2] H1 H2. unfold kept in H1, H2.
    apply filter_In in H1 as [_ H1]. apply filter_In in H2 as [_ H2].
    destruct s1, s2; try discriminate. reflexivity.
Qed.
End Ranking.



(** ** [copyFilteredPdfs] *)
Section Copies.
Context {E : Type} (fs : Server.Files E) (sourceDir dir : string).

Lemma copyEach_partition :
  forall files done notFound w,
    exists d n w',
      Server.copyEach fs sourceDir (Some dir) files done notFound w =
        (Return (Server.mkCopyResult (done ++ d) (notFound ++ n)), w') /\
      Permutation (d ++ n) files /\ sublist d files /\ sublist n files /\
      sleeps w' = sleeps w /\ disk w' = disk w.
Proof.
  induction files as [| f files IH]; intros done notFound w.
  - exists [], [], w. simpl. rewrite !app_nil_r. repeat split; constructor.
  - cbn [Server.copyEach]. unfold bind at 1, try_catch, bind, get, ret, external.
    cbn [ext sleeps disk].
    destruct (Server.existsSync fs _ (ext w)).
    + destruct (Server.copyFileSync fs _ _ (ext w)) as [[[] | error] x1]; cbn [fst snd].
      * destruct (IH (done ++ [f]) notFound (mkWorld x1 (sleeps w) (disk w)))
          as (d & n & w' & Hrun & Hperm & Hd & Hn & Hs & Hdisk).
        exists (f :: d), n, w'. rewrite Hrun, <- app_assoc. simpl.
        repeat split; auto.
        -- now constructor.
        -- now constructor.
      * destruct (IH done (notFound ++ [f]) (mkWorld x1 (sleeps w) (disk w)))
          as (d & n & w' & Hrun & Hperm & Hd & Hn & Hs & Hdisk).
        exists d, (f :: n), w'. rewrite Hrun, <- app_assoc. simpl.
        repeat split; auto.
        -- rewrite <- Hperm. symmetry. apply Permutation_middle.
        -- now constructor.
        -- now constructor.
    + cbn [fst snd].
      destruct (IH done (notFound ++ [f]) w)
        as (d & n & w' & Hrun & Hperm & Hd & Hn & Hs & Hdisk).
      exists d, (f :: n), w'. rewrite Hrun, <- app_assoc. simpl.
      repeat split; auto.
      * rewrite <- Hperm. symmetry. apply Permutation_middle.
      * now constructor.
      * now constructor.
Qed.

End Copies.

(** X3.  [copyFilteredPdfs] puts every file it is given in exactly one of
    [done] and [notFound], each in the order given, and a failing copy
    does not make it throw.  The exception: with [OUTPUT_DIR] unset and at
    least one file, joining the destination path throws before any file is
    looked at; with no file it returns the two empty lists. *)
Theorem copyFilteredPdfs_partitions {E : Type} (fs : Server.Files E)
  (sourceDir : string) (outputDir : option string) (filteredFiles : list string)
  (w : World E) :
  match outputDir, filteredFiles with
  | None, _ :: _ =>
      Server.copyFilteredPdfs fs sourceDir outputDir filteredFiles w
      = (Throw Server.invalidPath, w)
  | _, _ =>
      exists r w',
        Server.copyFilteredPdfs fs sourceDir outputDir filteredFiles w = (Return r, w') /\
        Permutation (Server.done r ++ Server.notFound r) filteredFiles /\
        sublist (Server.done r) filteredFiles /\
        sublist (Server.notFound r) filteredFiles /\
        sleeps w' = sleeps w /\ disk w' = disk w
  end.
Proof.
  destruct outputDir as [dir |].
  - unfold Server.copyFilteredPdfs.
    destruct (copyEach_partition fs sourceDir dir filteredFiles [] [] w)
      as (d & n & w' & Hrun & Hrest).
    exists (Server.mkCopyResult d n), w'. split; [exact Hrun | exact Hrest].
  - destruct filteredFiles; [| reflexivity].
    exists (Server.mkCopyResult [] []), w. repeat split; constructor.
Qed.

(** ** The handler of [/api/match-resumes] *)
Section RetryValue.
Context {E A : Type} (op : E -> Completion A * E).

Lemma retry_loop_frame maxRetries initialDelay :
  forall n retries w,
    (maxRetries - retries = n)%nat ->
    disk (snd (retry_loop (external op) maxRetries initialDelay retries w)) = disk w /\
    (forall v, fst (retry_loop (external op) maxRetries initialDelay retries w) = Return v ->
       exists x x', op x = (Return v, x')).
Proof.
  induction n as [| n IH]; intros retries w Hn; rewrite retry_loop_step;
    unfold external at 1 3; destruct (op (ext w)) as [[v | error] x1] eqn:Hop; simpl.
  - split; [reflexivity |]. intros v' [= <-]. eauto.
  - assert (Hlt : (retries <? maxRetries)%nat = false) by (apply Nat.ltb_ge; lia).
    rewrite Hlt, andb_false_r. simpl. split; [reflexivity | discriminate].
  - split; [reflexivity |]. intros v' [= <-]. eauto.
  - destruct (is_throttling error && (retries <? maxRetries)%nat) eqn:Hc; simpl;
      [| split; [reflexivity | discriminate]].
    apply andb_prop in Hc as [_ Hlt]. apply Nat.ltb_lt in Hlt.
    destruct (IH (S retries)
                (sleep (initialDelay * 2 ^ Z.of_nat retries)
                   (mkWorld x1 (sleeps w) (disk w)))) as [Hd Hv]; [lia |].
    rewrite Hd. split; [reflexivity | exact Hv].
Qed.

End RetryValue.

Section Endpoint.
Context {rt : Runtime} {E : Type} (bedrockRuntime : Invoke E)
  (fs : Server.Files E) (sourceDir : string).

Lemma extractJdTags_result jdText (w : World E) :
  exists v w',
    Server.extractJdTags bedrockRuntime jdText w = (Return v, w') /\
    disk w' = disk w /\ (v = JNull \/ Js.truthy v = true).
Proof.
  rewrite extractJdTags_unfold.
  destruct (retry_loop_frame (answering tagsOfReply bedrockRuntime) 5 1000 5 0 w eq_refl)
    as [Hd Hv].
  destruct (retry_loop _ _ _ _ _) as [[v | error] w'] eqn:Hrun; simpl in *.
  - exists v, w'. repeat split; auto. right.
    destruct (Hv v eq_refl) as (x & x' & Hop). unfold answering in Hop.
    destruct (bedrockRuntime x) as [[reply | error] x2]; [| discriminate].
    injection Hop as Hop _. unfold tagsOfReply in Hop.
    destruct reply as [content |]; [| discriminate].
    destruct (Js.truthy (Server.parseLLMOutput content)) eqn:Ht; simpl in Hop;
      [| discriminate].
    now injection Hop as <-.
  - exists JNull, w'. auto.
Qed.

Lemma findBestResumes_disk jdTags resumeData topn threshold (w : World E) :
  disk (snd (Server.findBestResumes bedrockRuntime jdTags resumeData topn threshold w))
  = disk w.
Proof.
  unfold Server.findBestResumes. destruct (Server.nullish jdTags); [reflexivity |].
  unfold try_catch, bind, ret, throw, Server.retryWithExponentialBackoff.
  destruct (retry_loop_frame bedrockRuntime 5 1000 5 0 w eq_refl) as [Hd _].
  destruct (retry_loop _ _ _ _ _) as [[[content |] | error] w1]; simpl in *; auto.
  destruct (Server.parse_scores _ _); auto.
Qed.

Lemma truthy_not_nullish v : Js.truthy v = true -> Server.nullish v = false.
Proof. destruct v; simpl; congruence. Qed.

End Endpoint.

Section EndpointRun.
Context {rt : Runtime} {E : Type} (bedrockRuntime : Invoke E)
  (fs : Server.Files E) (sourceDir : string).

Lemma copyFilteredPdfs_unset files (w : World E) :
  Server.copyFilteredPdfs fs sourceDir None files w =
  match files with
  | [] => (Return (Server.mkCopyResult [] []), w)
  | _ :: _ => (Throw Server.invalidPath, w)
  end.
Proof. destruct files; reflexivity. Qed.

Lemma copyFilteredPdfs_run outputDir files (w : World E) :
  disk (snd (Server.copyFilteredPdfs fs sourceDir outputDir files w)) = disk w /\
  forall r w', Server.copyFilteredPdfs fs sourceDir outputDir files w = (Return r, w') ->
    Permutation (Server.done r ++ Server.notFound r) files /\
    sublist (Server.done r) files /\ sublist (Server.notFound r) files /\
    (outputDir = None -> files = []).
Proof.
  destruct outputDir as [dir |].
  - unfold Server.copyFilteredPdfs.
    destruct (copyEach_partition fs sourceDir dir files [] [] w)
      as (d & n & w1 & Hrun & Hperm & Hd & Hn & _ & Hdisk).
    rewrite Hrun. simpl. split; [exact Hdisk |].
    intros r w' [= <- <-]. simpl. repeat split; auto. discriminate.
  - rewrite copyFilteredPdfs_unset. destruct files; simpl; split; auto.
    + intros r w' [= <- <-]. simpl. repeat split; constructor.
    + discriminate.
Qed.

(** The course of a request that is answered with the matches. *)
Lemma matchResumes_inv outputDir reqBody (w : World E) response w' :
  Server.matchResumes bedrockRuntime fs sourceDir outputDir reqBody w
    = (Return response, w') ->
  disk w' = disk w /\
  match Server.body response with
  | Server.ErrorBody _ _ => In (Server.status response) [400; 404; 500]%nat
  | Server.MatchBody success jdTags matching missing scores message =>
      Server.status response = 200%nat /\
      Js.truthy jdTags = true /\
      exists request selected,
        reqBody = Some request /\
        (selected = [] /\ scores = [] \/
         exists obj,
           scores = Server.validate (corpus w) obj /\
           selected = Server.rank scores (topnOf request) 60) /\
        List.NoDup (Js.keys scores) /\
        Permutation (matching ++ missing) selected /\
        sublist matching selected /\ sublist missing selected /\
        (outputDir = None -> selected = []) /\
        success = (0 <? length selected)%nat /\
        message = (if (length selected =? 0)%nat
                   then Some "No resumes with relevance =60% were found for this JD"
                   else None)
  end.
Proof.
  unfold Server.matchResumes, try_catch.
  destruct reqBody as [[jd n] |]; simpl;
    [| intros [= <- <-]; simpl; auto 6].
  destruct jd as [[| c jd] |]; simpl;
    try (intros [= <- <-]; simpl; now auto).
  set (jdText := String c jd).
  unfold bind at 1, Server.readWorkbook, bind, get, ret, throw.
  unfold corpus, stored.
  destruct (file (disk w)) as [workbook |]; simpl;
    [| intros [= <- <-]; simpl; now auto 6].
  destruct (read_fault (disk w)); simpl; [intros [= <- <-]; simpl; now auto 6 |].
  destruct (existsb _ (SheetNames workbook)); simpl;
    [| intros [= <- <-]; simpl; now auto 6].
  set (resumeData := match Sheets workbook !! "Resume Tags" with
                     | Some sheet => XLSX.sheet_to_json sheet
                     | None => []
                     end).
  destruct (length resumeData =? 0)%nat; simpl;
    [intros [= <- <-]; simpl; now auto 6 |].
  destruct (extractJdTags_result bedrockRuntime jdText w)
    as (jdTags & w1 & Htags & Hd1 & Hshape).
  rewrite Htags.
  destruct (Js.truthy jdTags) eqn:Htruthy; simpl;
    [| intros [= <- <-]; simpl; now auto 6].
  pose proof (findBestResumes_disk bedrockRuntime jdTags resumeData
                (match n with Some n => n | None => 3%nat end) 60 w1) as Hd2.
  destruct (findBestResumes_total bedrockRuntime jdTags resumeData
              (match n with Some n => n | None => 3%nat end) 60 w1
              (truthy_not_nullish _ Htruthy)) as (r & w2 & Hfind).
  rewrite Hfind in *. simpl in Hd2.
  destruct (copyFilteredPdfs_run outputDir (Server.selected r) w2) as [Hd3 Hcopy].
  destruct (Server.copyFilteredPdfs fs sourceDir outputDir (Server.selected r) w2)
    as [[copyResult | error] w3] eqn:Hrun; simpl in *.
  - intros [= <- <-]. simpl. split; [congruence |].
    destruct (Hcopy _ _ eq_refl) as (Hperm & Hdone & Hmissing & Hunset).
    split; [reflexivity |]. split; [assumption |].
    exists (Server.mkMatchRequest (Some jdText) n), (Server.selected r).
    apply findBestResumes_inv in Hfind as [-> | (obj & ->)]; simpl in *.
    + repeat split; auto. constructor.
    + repeat split; auto; [| apply validate_NoDup].
      right. exists obj. split; reflexivity.
  - intros [= <- <-]. simpl. split; [congruence | auto 6].
Qed.

End EndpointRun.

(** X4.  The handler of [POST /api/match-resumes] answers every request: it
    never throws and never changes the workbook.  An error body comes with
    status 400, 404 or 500.  A body of matches comes with status 200 and
    truthy tags; its [success] tells whether some file is reported, in
    [matchingResumes] or in [notFound], and it carries the message exactly
    when [success] is false. *)
Theorem matchResumes_responds {rt : Runtime} {E : Type} (bedrockRuntime : Invoke E)
  (fs : Server.Files E) (sourceDir : string) (outputDir : option string)
  (reqBody : option Server.MatchRequest) (w : World E) :
  exists response w',
    Server.matchResumes bedrockRuntime fs sourceDir outputDir reqBody w
      = (Return response, w') /\
    disk w' = disk w /\
    match Server.body response with
    | Server.ErrorBody _ _ => In (Server.status response) [400; 404; 500]%nat
    | Server.MatchBody success jdTags matching missing scores message =>
        Server.status response = 200%nat /\
        Js.truthy jdTags = true /\
        success = negb (length (matching ++ missing) =? 0)%nat /\
        message = (if success then None
                   else Some "No resumes with relevance =60% were found for this JD")
    end.
Proof.
  assert (Htotal : exists response w',
            Server.matchResumes bedrockRuntime fs sourceDir outputDir reqBody w
              = (Return response, w')).
  { unfold Server.matchResumes, try_catch, ret.
    match goal with
    | |- context [match ?run with _ => _ end] =>
        destruct run as [[response | error] w']; eauto
    end. }
  destruct Htotal as (response & w' & Hrun). exists response, w'.
  split; [exact Hrun |].
  apply matchResumes_inv in Hrun as [Hdisk Hbody]. split; [exact Hdisk |].
  destruct (Server.body response) as [| success jdTags matching missing scores message];
    [exact Hbody |].
  destruct Hbody as (Hstatus & Htags & request & selected & _ & _ & _ & Hperm & _ & _ & _
                     & -> & ->).
  repeat split; auto.
  - rewrite (Permutation_length Hperm). now destruct selected.
  - now destruct selected.
Qed.

(** X5.  A request without a job description (absent or empty), or made
    while the workbook cannot be read or holds no resume, is answered with
    an error of status 400, 404 or 500 and leaves the world as it was: the
    inference endpoint is not called. *)
Theorem matchResumes_rejects {rt : Runtime} {E : Type} (bedrockRuntime : Invoke E)
  (fs : Server.Files E) (sourceDir : string) (outputDir : option string)
  (request : Server.MatchRequest) (w : World E) :
  Server.jdText request = None \/ Server.jdText request = Some ""%string \/
  ~ readable (disk w) \/ corpus w = [] ->
  exists status error details,
    Server.matchResumes bedrockRuntime fs sourceDir outputDir (Some request) w
      = (Return (Server.mkResponse status (Server.ErrorBody error details)), w) /\
    In status [400; 404; 500]%nat.
Proof.
  intros Hwhy. unfold Server.matchResumes, try_catch.
  destruct request as [jd n]. simpl in *.
  destruct jd as [[| c jd] |]; simpl; eauto 8.
  destruct Hwhy as [Hjd | [Hjd | Hwhy]]; try discriminate.
  unfold bind at 1, Server.readWorkbook, bind, get, ret, throw.
  unfold readable, corpus, stored in Hwhy.
  destruct (file (disk w)) as [workbook |]; simpl; [| eauto 8].
  destruct (read_fault (disk w)); simpl; [eauto 8 |].
  destruct Hwhy as [Hread | Hempty]; [exfalso; apply Hread; eauto |].
  destruct (existsb _ (SheetNames workbook)); simpl; [| eauto 8].
  destruct (Sheets workbook !! "Resume Tags"); simpl; [subst |]; simpl; eauto 8.
Qed.

Lemma matchResumes_rejects_witness :
  corpus Scenario.start = [] /\
  exists status error details,
    Server.matchResumes (rt := Node.runtime) Scenario.matching Scenario.onlyA "/srv"
      (Some "/out"%string) (Some Scenario.request) Scenario.start
      = (Return (Server.mkResponse status (Server.ErrorBody error details)),
         Scenario.start) /\
    In status [400; 404; 500]%nat.
Proof.
  split; [reflexivity |].
  apply (matchResumes_rejects (rt := Node.runtime) Scenario.matching Scenario.onlyA
           "/srv" (Some "/out"%string) Scenario.request Scenario.start).
  right. right. right. reflexivity.
Defined.



(** ** The dashboard page *)
Lemma matchedResumes_In scores r :
  In r (Dashboard.matchedResumes scores) <->
  exists z, r = Dashboard.mkResume (Dashboard.name r) (Some z) /\ 60 <= z /\
            In (Dashboard.name r, Int z) scores.
Proof.
  unfold Dashboard.matchedResumes. rewrite Array_sort_In, in_map_iff. split.
  - intros ([f s] & <- & Hin). apply filter_In in Hin as [Hin Hge].
    apply in_map_iff in Hin as ([f' [| z]] & [= <- <-] & Hin); simpl in *;
      [discriminate |].
    exists z. repeat split; auto. now apply Z.leb_le.
  - intros (z & Hr & Hle & Hin). exists (Dashboard.name r, Some z).
    split; [now rewrite Hr |]. apply filter_In. split.
    + apply in_map_iff. now exists (Dashboard.name r, Int z).
    + simpl. now apply Z.leb_le.
Qed.

Lemma matchedResumes_sorted scores :
  StronglySorted (descending (fun r => Dashboard.number (Dashboard.score r)))
    (Dashboard.matchedResumes scores).
Proof.
  unfold Dashboard.matchedResumes.
  apply (Array_sort_sorted _ _ (fun _ => True)).
  - intros x y _ _. unfold Js.precedes.
    destruct (Z.leb_spec (Dashboard.number (Dashboard.score y)
                          - Dashboard.number (Dashboard.score x)) 0),
             (Z.leb_spec (Dashboard.number (Dashboard.score y))
                         (Dashboard.number (Dashboard.score x))); lia || reflexivity.
  - apply List.Forall_forall. trivial.
Qed.

Lemma shown_unfold response :
  shown response =
  if Dashboard.ok response then
    match Server.body response with
    | Server.MatchBody true jdTags _ _ scores _ =>
        Dashboard.mkView false "" (Dashboard.matchedResumes scores) (Some jdTags)
    | _ => Dashboard.mkView false "Failed to find matching resumes" [] None
    end
  else Dashboard.mkView false "Network response was not ok" [] None.
Proof.
  unfold shown, after, Dashboard.handleSearch, bind, try_catch, modify, throw, ret.
  simpl. destruct (Dashboard.ok response); simpl; [| reflexivity].
  destruct (Server.body response) as [| [] ? ? ? ? ?]; reflexivity.
Qed.

(** X7.  The page after [handleSearch], when the server of [server.js]
    answers its request.  It is no longer loading.  On a body of matches
    with [success] it shows no error and the tags, and lists exactly the
    files whose score in [scores] is an integer of at least 60, best first;
    the files that the server reports are, up to their order, the first
    [topn] of that list, which may be longer.  On any other answer it lists
    nothing and shows an error. *)
Theorem handleSearch_shows_selection {rt : Runtime} {E : Type}
  (bedrockRuntime : Invoke E) (fs : Server.Files E) (sourceDir : string)
  (outputDir : option string) (request : Server.MatchRequest) (w : World E)
  (response : Server.Response) (w' : World E) :
  Server.matchResumes bedrockRuntime fs sourceDir outputDir (Some request) w
    = (Return response, w') ->
  Dashboard.loading (shown response) = false /\
  match Server.body response with
  | Server.MatchBody true jdTags matching missing scores _ =>
      Dashboard.error (shown response) = ""%string /\
      Dashboard.jdTags (shown response) = Some jdTags /\
      (forall f z, In (Dashboard.mkResume f (Some z)) (Dashboard.resumes (shown response))
         <-> Js.obj_get f scores = Some (Int z) /\ 60 <= z) /\
      StronglySorted (descending (fun r => Dashboard.number (Dashboard.score r)))
        (Dashboard.resumes (shown response)) /\
      Permutation (matching ++ missing)
        (firstn (topnOf request)
           (map Dashboard.name (Dashboard.resumes (shown response))))
  | _ =>
      Dashboard.resumes (shown response) = [] /\
      Dashboard.jdTags (shown response) = None /\
      Dashboard.error (shown response) <> ""%string
  end.
Proof.
  intros Hrun. apply matchResumes_inv in Hrun as [_ Hinv].
  rewrite shown_unfold. unfold Dashboard.ok.
  destruct (Server.body response) as [| success jdTags matching missing scores message].
  - destruct (_ && _)%nat; simpl; repeat split; discriminate.
  - destruct Hinv as (-> & _ & request' & selected & [= <-] & Hsel & Hnd & Hperm & _).
    simpl. destruct success; simpl; [| repeat split; discriminate].
    do 3 (split; [reflexivity |]). split; [| split].
    + intros f z. split.
      * intros Hin. apply matchedResumes_In in Hin as (z' & Heq & Hle & Hin).
        simpl in *. injection Heq as <-. split; [now apply obj_get_In | exact Hle].
      * intros [Hget Hle]. apply matchedResumes_In. exists z. simpl.
        repeat split; auto. now apply obj_get_Some_In.
    + apply matchedResumes_sorted.
    + rewrite <- matchedResumes_rank.
      destruct Hsel as [[-> ->] | (obj & _ & ->)]; [| exact Hperm].
      symmetry in Hperm. apply Permutation_nil in Hperm. rewrite Hperm.
      unfold Server.rank. simpl. now rewrite firstn_nil.
Qed.

Lemma handleSearch_shows_selection_witness :
  Server.matchResumes (rt := Node.runtime) Scenario.matching Scenario.onlyA "/srv"
    (Some "/out"%string) (Some Scenario.request) Scenario.withCorpus
  = (Return (Server.mkResponse 200
               (Server.MatchBody true Scenario.pythonTags ["a.pdf"] ["b.pdf"]
                  Scenario.twoScores None)),
     mkWorld 2%nat [] (disk Scenario.withCorpus)) /\
  Dashboard.loading
    (shown (Server.mkResponse 200
              (Server.MatchBody true Scenario.pythonTags ["a.pdf"] ["b.pdf"]
                 Scenario.twoScores None))) = false /\
  Permutation (["a.pdf"] ++ ["b.pdf"])
    (firstn (topnOf Scenario.request)
       (map Dashboard.name
          (Dashboard.resumes
             (shown (Server.mkResponse 200
                       (Server.MatchBody true Scenario.pythonTags ["a.pdf"] ["b.pdf"]
                          Scenario.twoScores None)))))).
Proof.
  assert (Hrun :
    Server.matchResumes (rt := Node.runtime) Scenario.matching Scenario.onlyA "/srv"
      (Some "/out"%string) (Some Scenario.request) Scenario.withCorpus
    = (Return (Server.mkResponse 200
                 (Server.MatchBody true Scenario.pythonTags ["a.pdf"] ["b.pdf"]
                    Scenario.twoScores None)),
       mkWorld 2%nat [] (disk Scenario.withCorpus)))
    by (vm_compute; reflexivity).
  split; [exact Hrun |].
  destruct (handleSearch_shows_selection (rt := Node.runtime) Scenario.matching
              Scenario.onlyA "/srv" (Some "/out"%string) Scenario.request
              Scenario.withCorpus _ _ Hrun) as (Hloading & Hshown).
  split; [exact Hloading |].
  simpl in Hshown. destruct Hshown as (_ & _ & _ & _ & Hperm). exact Hperm.
Defined.

(** ** The turns of the ingestion loop *)
Section Turns.
Context {rt : Runtime} {E : Type} (svc : Extractor.Services E).
Implicit Types (f : Extractor.Frame (E := E)).

Lemma extractTagsFromChunks_disk chunks (w : World E) :
  disk (snd (Extractor.extractTagsFromChunks svc chunks w)) = disk w.
Proof.
  unfold Extractor.extractTagsFromChunks, try_catch, bind, ret, throw,
    Extractor.retryWithExponentialBackoff.
  destruct (retry_loop_frame (Extractor.bedrockRuntime svc) 5 1000 5 0 w eq_refl)
    as [Hd _].
  destruct (retry_loop _ _ _ _ _) as [[[content |] | error] w1]; simpl in *; auto.
Qed.

(** Every turn of the loop ends, in one of five ways; the file is only
    touched by a turn that adds a result. *)
Lemma processObject_turn prefix tempDir maxResumes key f :
  exists flow f',
    Extractor.processObject svc prefix tempDir maxResumes key f = (Return flow, f') /\
    Turn key maxResumes (Extractor.locals f) flow (Extractor.locals f') /\
    (Extractor.totalProcessed (Extractor.locals f') =
       Extractor.totalProcessed (Extractor.locals f) ->
     disk (Extractor.world f') = disk (Extractor.world f)).
Proof.
  destruct f as [l w]. unfold Extractor.processObject.
  destruct (Text.ends_with ".pdf" (Text.toLowerCase key)); simpl;
    [| do 2 eexists; split; [reflexivity |]; split; [constructor | reflexivity]].
  unfold Extractor.read, Extractor.update, Extractor.await, bind, get, ret, modify,
    try_catch, delay. simpl.
  destruct (bool_decide (key ∈ Extractor.processedFiles l)); simpl;
    [do 2 eexists; split; [reflexivity |]; split; [constructor | reflexivity] |].
  unfold Extractor.downloadFromS3, try_catch, bind, external, ret. simpl.
  destruct (Extractor.getObject svc key _ (ext w)) as [[[] | error] x1]; simpl;
    [| do 2 eexists; split; [reflexivity |]; split; [constructor | reflexivity]].
  unfold Extractor.processResumeAndStore, external. simpl.
  destruct (Extractor.loadSplitEmbed svc _ _ x1) as [[chunks | error] x2]; simpl;
    [| do 2 eexists; split; [reflexivity |]; split; [constructor | reflexivity]].
  destruct (extractTagsFromChunks_total svc chunks
              (mkWorld x2 (sleeps w ++ [2000]) (disk w))) as (tags & w3 & Htags).
  rewrite Htags. simpl.
  match goal with
  | |- context [Extractor.moveFileInS3 svc ?a ?b w3] =>
      destruct (moveFileInS3_total svc a b w3) as (moved & w4 & Hmove & _)
  end.
  rewrite Hmove. simpl.
  match goal with
  | |- context [Extractor.saveToExcel ?a ?b w4] =>
      destruct (saveToExcel_total (E := E) a b w4) as (w5 & Hsave & _)
  end.
  rewrite Hsave. simpl.
  destruct (maxResumes <=? S (Extractor.totalProcessed l))%nat eqn:Hcap; simpl;
    do 2 eexists; (split; [reflexivity |]); simpl; (split; [| lia]).
  - apply turn_last. now apply Nat.leb_le.
  - apply turn_processed. apply Nat.leb_gt in Hcap. lia.
Qed.

End Turns.

(** X8.  One turn of the loop of [processS3Bucket] never throws and takes
    one of five courses ([Turn]): the object is skipped; its download fails
    (listed as failed, not marked as processed); its processing throws
    (listed as failed, marked as processed); it is processed below the cap;
    it is processed and the cap is reached (the loop breaks).  The file is
    only written by a turn that counts a resume, and an object that is no
    PDF or is marked as processed changes nothing at all. *)
Theorem processObject_ends {rt : Runtime} {E : Type} (svc : Extractor.Services E)
  (prefix tempDir : string) (maxResumes : nat) (key : string)
  (f : Extractor.Frame (E := E)) :
  exists flow f',
    Extractor.processObject svc prefix tempDir maxResumes key f = (Return flow, f') /\
    Turn key maxResumes (Extractor.locals f) flow (Extractor.locals f') /\
    (Extractor.totalProcessed (Extractor.locals f') =
       Extractor.totalProcessed (Extractor.locals f) ->
     disk (Extractor.world f') = disk (Extractor.world f)) /\
    (Text.ends_with ".pdf" (Text.toLowerCase key) = false \/
     key ∈ Extractor.processedFiles (Extractor.locals f) ->
     flow = Extractor.Continue /\ f' = f).
Proof.
  destruct (processObject_turn svc prefix tempDir maxResumes key f)
    as (flow & f' & Hrun & Hturn & Hdisk).
  exists flow, f'. do 3 (split; [assumption |]).
  intros Hskip. revert Hrun. unfold Extractor.processObject.
  destruct Hskip as [-> | Hseen]; simpl; [now intros [= <- <-] |].
  destruct (Text.ends_with _ _); simpl; [| now intros [= <- <-]].
  unfold bind at 1, Extractor.read, bind, get, ret. simpl.
  rewrite bool_decide_eq_true_2 by assumption. now intros [= <- <-].
Qed.

(** X9.  When the download of a PDF not yet processed fails, the turn
    waits its two seconds, adds the key to the failed files and goes on to
    the next object: no result, no count, no write, and the key is not
    marked as processed. *)
Theorem processObject_download_fails {rt : Runtime} {E : Type}
  (svc : Extractor.Services E) (prefix tempDir : string) (maxResumes : nat)
  (key : string) (f : Extractor.Frame (E := E)) (error : Error) (x1 : E) :
  Text.ends_with ".pdf" (Text.toLowerCase key) = true ->
  key ∉ Extractor.processedFiles (Extractor.locals f) ->
  Extractor.getObject svc key (tempPdfPathOf tempDir key) (ext (Extractor.world f))
    = (Throw error, x1) ->
  Extractor.processObject svc prefix tempDir maxResumes key f =
  (Return Extractor.Continue,
   Extractor.mkFrame
     (Extractor.mkLocals
        (Extractor.continuationToken (Extractor.locals f))
        (Extractor.results (Extractor.locals f))
        (Extractor.totalProcessed (Extractor.locals f))
        (Extractor.failedFiles (Extractor.locals f) ++ [key])
        (Extractor.processedFiles (Extractor.locals f)))
     (mkWorld x1 (sleeps (Extractor.world f) ++ [2000]) (disk (Extractor.world f)))).
Proof.
  intros Hpdf Hnew Hget. destruct f as [l w]. simpl in *.
  unfold Extractor.processObject. rewrite Hpdf. simpl.
  unfold Extractor.read, Extractor.update, Extractor.await, bind, get, ret, modify,
    try_catch, delay. simpl.
  rewrite bool_decide_eq_false_2 by assumption.
  unfold Extractor.downloadFromS3, try_catch, bind, external, ret. simpl.
  unfold tempPdfPathOf in Hget. rewrite Hget. reflexivity.
Qed.

Lemma processObject_download_fails_witness :
  Extractor.processObject (rt := Node.runtime) Scenario.offline "resume_input/"
    "/tmp/resume-processor-1" 10 "resume_input/a.pdf"
    (Extractor.mkFrame Extractor.initialLocals Scenario.start)
  = (Return Extractor.Continue,
     Extractor.mkFrame
       (Extractor.mkLocals None [] 0 ["resume_input/a.pdf"] ∅)
       (mkWorld 0%nat [2000] Scenario.freshDisk)).
Proof.
  apply (processObject_download_fails (rt := Node.runtime) Scenario.offline
           "resume_input/" "/tmp/resume-processor-1" 10 "resume_input/a.pdf"
           (Extractor.mkFrame Extractor.initialLocals Scenario.start)
           Scenario.accessDenied 0%nat).
  - reflexivity.
  - simpl. apply not_elem_of_empty.
  - reflexivity.
Defined.

(** X10.  When the document loader throws on a downloaded PDF, the turn
    adds the key to the failed files, removes the local copy and marks the
    key as processed: no result, no count, no write, and the inference
    endpoint is not called. *)
Theorem processObject_load_fails {rt : Runtime} {E : Type}
  (svc : Extractor.Services E) (prefix tempDir : string) (maxResumes : nat)
  (key : string) (f : Extractor.Frame (E := E)) (error : Error) (x1 x2 : E) :
  Text.ends_with ".pdf" (Text.toLowerCase key) = true ->
  key ∉ Extractor.processedFiles (Extractor.locals f) ->
  Extractor.getObject svc key (tempPdfPathOf tempDir key) (ext (Extractor.world f))
    = (Return tt, x1) ->
  Extractor.loadSplitEmbed svc (tempPdfPathOf tempDir key)
    (Text.basename_ext key ".pdf") x1 = (Throw error, x2) ->
  Extractor.processObject svc prefix tempDir maxResumes key f =
  (Return Extractor.Done,
   Extractor.mkFrame
     (Extractor.mkLocals
        (Extractor.continuationToken (Extractor.locals f))
        (Extractor.results (Extractor.locals f))
        (Extractor.totalProcessed (Extractor.locals f))
        (Extractor.failedFiles (Extractor.locals f) ++ [key])
        ({[key]} ∪ Extractor.processedFiles (Extractor.locals f)))
     (mkWorld (Extractor.remove svc (tempPdfPathOf tempDir key) x2)
        (sleeps (Extractor.world f) ++ [2000]) (disk (Extractor.world f)))).
Proof.
  intros Hpdf Hnew Hget Hload. destruct f as [l w]. simpl in *.
  unfold Extractor.processObject. rewrite Hpdf. simpl.
  unfold Extractor.read, Extractor.update, Extractor.await, bind, get, ret, modify,
    try_catch, delay. simpl.
  rewrite bool_decide_eq_false_2 by assumption.
  unfold Extractor.downloadFromS3, try_catch, bind, external, ret. simpl.
  unfold tempPdfPathOf in *. rewrite Hget. simpl.
  unfold Extractor.processResumeAndStore, external. simpl. rewrite Hload. reflexivity.
Qed.

Lemma processObject_load_fails_witness :
  Extractor.processObject (rt := Node.runtime) Scenario.damaged "resume_input/"
    "/tmp/resume-processor-1" 10 "resume_input/a.pdf"
    (Extractor.mkFrame Extractor.initialLocals Scenario.start)
  = (Return Extractor.Done,
     Extractor.mkFrame
       (Extractor.mkLocals None [] 0 ["resume_input/a.pdf"]
          ({["resume_input/a.pdf"%string]} ∪ ∅))
       (mkWorld 0%nat [2000] Scenario.freshDisk)).
Proof.
  apply (processObject_load_fails (rt := Node.runtime) Scenario.damaged
           "resume_input/" "/tmp/resume-processor-1" 10 "resume_input/a.pdf"
           (Extractor.mkFrame Extractor.initialLocals Scenario.start)
           (mkError "Error" "Invalid PDF structure") 0%nat 0%nat).
  - reflexivity.
  - simpl. apply not_elem_of_empty.
  - reflexivity.
  - reflexivity.
Defined.

Section Spread.
Context {V : Type}.
Implicit Types (o es : list (string * V)) (k : string) (v : V).




End Spread.

Section Rows.
Context {rt : Runtime} {E : Type} (svc : Extractor.Services E).



End Rows.



(** ** The ingestion loop as a whole *)
Section Loop.
Context {rt : Runtime} {E : Type} (svc : Extractor.Services E).
Implicit Types (f : Extractor.Frame (E := E)).

Lemma progress_refl f : progress f f.
Proof.
  repeat split; [exists [] | exists []]; rewrite ?app_nil_r; simpl; auto.
Qed.

Lemma progress_same f f' :
  Extractor.locals f' = Extractor.locals f ->
  disk (Extractor.world f') = disk (Extractor.world f) ->
  progress f f'.
Proof.
  intros Hl Hd. unfold progress. rewrite Hl.
  repeat split; [exists [] | exists [] |]; rewrite ?app_nil_r; simpl; auto.
Qed.

Lemma progress_trans f1 f2 f3 : progress f1 f2 -> progress f2 f3 -> progress f1 f3.
Proof.
  intros ((r1 & Hr1 & Ht1) & (k1 & Hk1) & Hd1) ((r2 & Hr2 & Ht2) & (k2 & Hk2) & Hd2).
  repeat split.
  - exists (r1 ++ r2). rewrite Hr2, Hr1, Ht2, Ht1, length_app, <- app_assoc.
    split; [reflexivity | lia].
  - exists (k1 ++ k2). now rewrite Hk2, Hk1, <- app_assoc.
  - intros Heq. rewrite Hd2, Hd1; auto; lia.
Qed.

Lemma turn_progress key maxResumes f flow f' :
  Turn key maxResumes (Extractor.locals f) flow (Extractor.locals f') ->
  (Extractor.totalProcessed (Extractor.locals f') =
     Extractor.totalProcessed (Extractor.locals f) ->
   disk (Extractor.world f') = disk (Extractor.world f)) ->
  progress f f'.
Proof.
  intros Hturn Hdisk. split; [| split; [| exact Hdisk]].
  - inversion Hturn; simpl;
      try (exists []; rewrite app_nil_r; split; [reflexivity | simpl; lia]);
      exists [row]; simpl; split; auto; lia.
  - inversion Hturn; simpl;
      try (exists []; now rewrite app_nil_r); now exists [key].
Qed.

Lemma turn_count key maxResumes l flow l' :
  Turn key maxResumes l flow l' ->
  match flow with
  | Extractor.Break =>
      Extractor.totalProcessed l' = S (Extractor.totalProcessed l)
  | _ =>
      Extractor.totalProcessed l' = Extractor.totalProcessed l \/
      (Extractor.totalProcessed l' = S (Extractor.totalProcessed l) /\
       (S (Extractor.totalProcessed l) < maxResumes)%nat)
  end.
Proof. destruct 1; simpl; auto. Qed.

(** A page never raises the count beyond the cap, or by more than one. *)
Lemma forOf_progress prefix tempDir maxResumes contents :
  forall f,
    exists f',
      Extractor.forOf (Extractor.processObject svc prefix tempDir maxResumes)
        contents f = (Return tt, f') /\
      progress f f' /\
      (Extractor.totalProcessed (Extractor.locals f') <=
         Nat.max maxResumes (S (Extractor.totalProcessed (Extractor.locals f))))%nat.
Proof.
  induction contents as [| key rest IH]; intros f.
  - exists f. split; [reflexivity |]. split; [apply progress_refl | lia].
  - cbn [Extractor.forOf]. unfold bind at 1.
    destruct (processObject_turn svc prefix tempDir maxResumes key f)
      as (flow & f1 & Hrun & Hturn & Hdisk).
    rewrite Hrun. pose proof (turn_progress _ _ _ _ _ Hturn Hdisk) as Hp.
    apply turn_count in Hturn.
    destruct flow.
    + destruct (IH f1) as (f' & Hrest & Hp' & Hle). exists f'.
      split; [exact Hrest |]. split; [eapply progress_trans; eauto |].
      lia.
    + destruct (IH f1) as (f' & Hrest & Hp' & Hle). exists f'.
      split; [exact Hrest |]. split; [eapply progress_trans; eauto |].
      lia.
    + exists f1. split; [reflexivity |]. split; [exact Hp |].
      lia.
Qed.

Lemma listing_progress prefix maxResumes :
  forall fuel f,
    progress f (snd (Extractor.listing svc fuel prefix maxResumes f)) /\
    (Extractor.totalProcessed
       (Extractor.locals (snd (Extractor.listing svc fuel prefix maxResumes f))) <=
     Nat.max (maxResumes + fuel - 1) (Extractor.totalProcessed (Extractor.locals f) + fuel))%nat.
Proof.
  induction fuel as [| fuel IH]; intros f.
  - simpl. split; [apply progress_refl | lia].
  - cbn [Extractor.listing].
    unfold bind, Extractor.read, Extractor.await, Extractor.update, Extractor.try_finally,
      get, ret, modify, external. simpl.
    destruct (Extractor.listObjects svc _ (ext (Extractor.world f)))
      as [[response | error] x1]; simpl;
      [| split; [now apply progress_same | lia]].
    destruct (Extractor.mkdtemp svc x1) as [[tempDir | error] x2]; simpl;
      [| split; [now apply progress_same | lia]].
    set (f1 := Extractor.mkFrame (Extractor.locals f)
                 (mkWorld x2 (sleeps (Extractor.world f)) (disk (Extractor.world f)))).
    destruct (forOf_progress prefix tempDir maxResumes (Extractor.Contents response) f1)
      as (f2 & Hpage & Hp & Hle).
    rewrite Hpage. simpl.
    assert (Hp1 : progress f f2).
    { destruct Hp as (Hr & Hk & Hd). repeat split; auto. }
    destruct (Extractor.IsTruncated response); simpl.
    + match goal with
      | |- context [Extractor.listing svc fuel prefix maxResumes ?f3] =>
          destruct (IH f3) as [Hp3 Hle3]; set (f4 := f3) in *
      end.
      split.
      * eapply progress_trans; [| exact Hp3].
        destruct Hp1 as (Hr & Hk & Hd). repeat split; auto.
      * simpl in Hle3. simpl in Hle. lia.
    + split.
      * destruct Hp1 as (Hr & Hk & Hd). repeat split; auto.
      * simpl in Hle. simpl. lia.
Qed.

End Loop.

Section Runs.
Context {rt : Runtime} {E : Type} (svc : Extractor.Services E).
Implicit Types (f : Extractor.Frame (E := E)).

(** The last save ends well only if there is nothing to save. *)
Lemma finalSave_outcome f :
  match Extractor.results (Extractor.locals f) with
  | [] => Extractor.finalSave (E := E) f = (Return tt, f)
  | _ :: _ =>
      exists error f',
        Extractor.finalSave (E := E) f = (Throw error, f') /\
        Extractor.locals f' = Extractor.locals f /\
        (healthy (disk (Extractor.world f)) ->
         error = mkError "ReferenceError" "excelFileName is not defined" /\
         file (disk (Extractor.world f')) =
           Some (flushed (opened (disk (Extractor.world f)))
                   (Extractor.results (Extractor.locals f))
                   (Extractor.failedFiles (Extractor.locals f))))
  end.
Proof.
  destruct f as [l w]. unfold Extractor.finalSave, Extractor.read, bind, get, ret. simpl.
  destruct (Extractor.results l) as [| row rows] eqn:Hres; simpl; [reflexivity |].
  unfold try_catch, bind, Extractor.await, throw. simpl.
  destruct (Extractor.writeResults (row :: rows) (Extractor.failedFiles l) w)
    as [[[] | error] w1] eqn:Hw; simpl.
  - do 2 eexists. split; [reflexivity |]. split; [reflexivity |].
    intros Hh. rewrite writeResults_healthy in Hw by assumption.
    injection Hw as <-. auto.
  - do 2 eexists. split; [reflexivity |]. split; [reflexivity |].
    intros Hh. rewrite writeResults_healthy in Hw by assumption. discriminate.
Qed.

Lemma ingest_progress fuel bucketName prefix maxResumes f :
  Extractor.results (Extractor.locals f) = [] ->
  Extractor.totalProcessed (Extractor.locals f) = 0%nat ->
  let f' := snd (Extractor.ingest svc fuel bucketName prefix maxResumes f) in
  Extractor.totalProcessed (Extractor.locals f') =
    length (Extractor.results (Extractor.locals f')) /\
  (Extractor.totalProcessed (Extractor.locals f') <=
     Nat.max (maxResumes + fuel - 1) fuel)%nat /\
  (Extractor.totalProcessed (Extractor.locals f') = 0%nat ->
   disk (Extractor.world f') = disk (Extractor.world f)) /\
  (fst (Extractor.ingest svc fuel bucketName prefix maxResumes f) = Return true ->
   Extractor.totalProcessed (Extractor.locals f') = 0%nat).
Proof.
  intros Hres Htot. unfold Extractor.ingest.
  destruct (String.eqb bucketName ""); simpl.
  { rewrite Hres, Htot. repeat split; auto; try lia; try discriminate. }
  unfold bind.
  destruct (listing_progress svc prefix maxResumes fuel f) as [Hp Hle].
  destruct (Extractor.listing svc fuel prefix maxResumes f) as [[[] | error] f1];
    simpl in *.
  - destruct Hp as ((rows & Hrows & Hcount) & _ & Hdisk).
    rewrite Hres in Hrows. rewrite Htot in Hcount, Hle, Hdisk. simpl in *.
    pose proof (finalSave_outcome f1) as Hsave. rewrite Hrows in Hsave.
    destruct rows as [| row rows].
    + rewrite Hsave. simpl. rewrite Hrows. rewrite Hcount in *.
      repeat split; auto; try lia.
    + destruct Hsave as (error & f2 & -> & Hl & _). simpl in *.
      rewrite Hl, Hrows. rewrite Hcount in *. simpl.
      repeat split; try lia; try discriminate.
  - destruct Hp as ((rows & Hrows & Hcount) & _ & Hdisk).
    rewrite Hres in Hrows. rewrite Htot in Hcount, Hle, Hdisk. simpl in *.
    rewrite Hrows. rewrite Hcount in *. repeat split; auto; try lia; try discriminate.
  - destruct Hp as ((rows & Hrows & Hcount) & _ & Hdisk).
    rewrite Hres in Hrows. rewrite Htot in Hcount, Hle, Hdisk. simpl in *.
    rewrite Hrows. rewrite Hcount in *. repeat split; auto; try lia; try discriminate.
Qed.

End Runs.

(** X12.  At the end of every run of [processS3Bucket], however it ends,
    [totalProcessed] is the number of rows in [results], and it exceeds
    [maxResumes] by at most one resume for each page listed after the
    first: with at most [fuel] pages listed it is at most
    [max (maxResumes + fuel - 1) fuel]. *)
Theorem processS3Bucket_counts {rt : Runtime} {E : Type} (svc : Extractor.Services E)
  (fuel : nat) (bucketName prefix : string) (maxResumes : nat) (w : World E) :
  Extractor.totalProcessed
    (Extractor.locals
       (after (Extractor.ingest svc fuel bucketName prefix maxResumes)
          (Extractor.mkFrame Extractor.initialLocals w))) =
  length
    (Extractor.results
       (Extractor.locals
          (after (Extractor.ingest svc fuel bucketName prefix maxResumes)
             (Extractor.mkFrame Extractor.initialLocals w)))) /\
  (Extractor.totalProcessed
     (Extractor.locals
        (after (Extractor.ingest svc fuel bucketName prefix maxResumes)
           (Extractor.mkFrame Extractor.initialLocals w))) <=
   Nat.max (maxResumes + fuel - 1) fuel)%nat.
Proof.
  destruct (ingest_progress svc fuel bucketName prefix maxResumes
              (Extractor.mkFrame Extractor.initialLocals w) eq_refl eq_refl)
    as (Hcount & Hle & _). split; assumption.
Qed.

(** X13.  [processS3Bucket] only returns normally from a run that has
    processed no resume, and such a run leaves the file exactly as it was,
    whatever it has listed as failed.  A run with a result never returns
    normally: if nothing fails before, its last save ends in an error. *)
Theorem processS3Bucket_returns_when_idle {rt : Runtime} {E : Type}
  (svc : Extractor.Services E) (fuel : nat) (bucketName prefix : string)
  (maxResumes : nat) (w : World E) (f' : Extractor.Frame (E := E)) :
  Extractor.ingest svc fuel bucketName prefix maxResumes
    (Extractor.mkFrame Extractor.initialLocals w) = (Return true, f') ->
  Extractor.results (Extractor.locals f') = [] /\
  disk (Extractor.world f') = disk w /\
  Extractor.processS3Bucket svc fuel bucketName prefix maxResumes w
    = (Return true, Extractor.world f').
Proof.
  intros Hrun.
  destruct (ingest_progress svc fuel bucketName prefix maxResumes
              (Extractor.mkFrame Extractor.initialLocals w) eq_refl eq_refl)
    as (Hcount & _ & Hdisk & Hret).
  unfold Extractor.processS3Bucket. rewrite Hrun in *. simpl in *.
  specialize (Hret eq_refl). rewrite Hret in Hcount.
  repeat split; auto. symmetry in Hcount. now apply length_zero_iff_nil.
Qed.

Lemma processS3Bucket_returns_when_idle_witness :
  Extractor.ingest (rt := Node.runtime) Scenario.offline 5 "resume-ranking-bucket"
    "resume_input/" 10 (Extractor.mkFrame Extractor.initialLocals Scenario.withStaleLedger)
  = (Return true,
     Extractor.mkFrame
       (Extractor.mkLocals None [] 0 ["resume_input/a.pdf"] ∅)
       (mkWorld 0%nat [2000] (disk Scenario.withStaleLedger))) /\
  Extractor.processS3Bucket (rt := Node.runtime) Scenario.offline 5
    "resume-ranking-bucket" "resume_input/" 10 Scenario.withStaleLedger
  = (Return true, mkWorld 0%nat [2000] (disk Scenario.withStaleLedger)).
Proof.
  assert (Hrun :
    Extractor.ingest (rt := Node.runtime) Scenario.offline 5 "resume-ranking-bucket"
      "resume_input/" 10
      (Extractor.mkFrame Extractor.initialLocals Scenario.withStaleLedger)
    = (Return true,
       Extractor.mkFrame
         (Extractor.mkLocals None [] 0 ["resume_input/a.pdf"] ∅)
         (mkWorld 0%nat [2000] (disk Scenario.withStaleLedger))))
    by (vm_compute; reflexivity).
  split; [exact Hrun |].
  exact (proj2 (proj2 (processS3Bucket_returns_when_idle (rt := Node.runtime)
                         Scenario.offline 5 "resume-ranking-bucket" "resume_input/" 10
                         Scenario.withStaleLedger _ Hrun))).
Defined.

(** ** The merge of the results into the corpus *)
Section Merge.
Implicit Types (k : string) (r a row : Row) (s rs : list Row).

Lemma has_other_key k k' r :
  keyed k r -> k <> k' -> Server.has_file_name k' r = false.
Proof.
  unfold keyed, Extractor.file_name, Server.has_file_name. intros Hr Hne.
  destruct (Js.obj_get "resume_file_name" r) as [v |]; [| reflexivity].
  subst v. now apply String.eqb_neq.
Qed.

Lemma upsert_same_key k r a s :
  keyed k r -> keyed k a ->
  Extractor.upsert (Extractor.upsert s r) a = Extractor.upsert s a.
Proof.
  intros Hr Ha. induction s as [| row s IH].
  - rewrite (upsert_nil r), (upsert_cons k a Ha), (has_own_key k r Hr). reflexivity.
  - rewrite (upsert_cons k r Hr), (upsert_cons k a Ha).
    destruct (Server.has_file_name k row) eqn:Hrow.
    + now rewrite (upsert_cons k a Ha), (has_own_key k r Hr).
    + now rewrite (upsert_cons k a Ha), Hrow, IH.
Qed.

Lemma upsert_comm k k' r a s :
  keyed k r -> keyed k' a -> k <> k' ->
  existsb (Server.has_file_name k') s = true ->
  Extractor.upsert (Extractor.upsert s r) a =
  Extractor.upsert (Extractor.upsert s a) r.
Proof.
  intros Hr Ha Hne. induction s as [| row s IH]; simpl; [discriminate |].
  intros Hin. rewrite (upsert_cons k r Hr), (upsert_cons k' a Ha).
  destruct (Server.has_file_name k row) eqn:Hk, (Server.has_file_name k' row) eqn:Hk'.
  - exfalso. unfold Server.has_file_name in Hk, Hk'.
    destruct (Js.obj_get "resume_file_name" row) as [[] |]; try discriminate.
    apply String.eqb_eq in Hk, Hk'. congruence.
  - rewrite (upsert_cons k' a Ha), (has_other_key k k' r Hr Hne).
    now rewrite (upsert_cons k r Hr), Hk.
  - rewrite (upsert_cons k' a Ha), Hk'.
    rewrite (upsert_cons k r Hr), (has_other_key k' k a Ha) by congruence.
    reflexivity.
  - simpl in Hin. rewrite (upsert_cons k' a Ha), Hk', (upsert_cons k r Hr), Hk.
    now rewrite IH.
Qed.

Lemma upsert_present k k' r s :
  keyed k r ->
  existsb (Server.has_file_name k') (Extractor.upsert s r) =
  existsb (Server.has_file_name k') s || String.eqb k k'.
Proof.
  intros Hr. induction s as [| row s IH].
  - rewrite upsert_nil. simpl. rewrite orb_false_r.
    destruct (String.eqb_spec k k') as [<- | Hne].
    + now apply has_own_key.
    + now apply has_other_key with k.
  - rewrite (upsert_cons k r Hr). destruct (Server.has_file_name k row) eqn:Hk; simpl.
    + destruct (String.eqb_spec k k') as [<- | Hne].
      * now rewrite (has_own_key k r Hr), Hk.
      * rewrite (has_other_key k k' r Hr Hne).
        assert (Hrow : Server.has_file_name k' row = false).
        { unfold Server.has_file_name in *.
          destruct (Js.obj_get "resume_file_name" row) as [[] |]; try discriminate.
          apply String.eqb_eq in Hk. subst. now apply String.eqb_neq. }
        rewrite Hrow. simpl. now rewrite orb_false_r.
    + rewrite IH. now rewrite orb_assoc.
Qed.

Lemma mergeResults_cons s r rs :
  Extractor.mergeResults s (r :: rs) = Extractor.mergeResults (Extractor.upsert s r) rs.
Proof. reflexivity. Qed.

Lemma mergeResults_snoc s rs r :
  Extractor.mergeResults s (rs ++ [r]) = Extractor.upsert (Extractor.mergeResults s rs) r.
Proof. unfold Extractor.mergeResults. now rewrite fold_left_app. Qed.

Lemma mergeResults_present k' rs :
  all_keyed rs ->
  forall s,
    existsb (Server.has_file_name k') (Extractor.mergeResults s rs) =
    existsb (Server.has_file_name k') s || existsb (Server.has_file_name k') rs.
Proof.
  induction 1 as [| r rs (k & Hr) _ IH]; intros s.
  - simpl. now rewrite orb_false_r.
  - rewrite mergeResults_cons, IH, (upsert_present k k' r s Hr), <- orb_assoc.
    simpl. f_equal. f_equal.
    destruct (String.eqb_spec k k') as [<- | Hne].
    + symmetry. now apply has_own_key.
    + symmetry. now apply has_other_key with k.
Qed.

(** An upsert is forgotten once the same record is upserted again, if
    the records in between replace rows that were there. *)
Lemma mergeResults_forget k r rs :
  keyed k r -> all_keyed rs ->
  forall s,
    (forall k', existsb (Server.has_file_name k') rs = true ->
                existsb (Server.has_file_name k') s = true) ->
    Extractor.upsert (Extractor.mergeResults (Extractor.upsert s r) rs) r =
    Extractor.upsert (Extractor.mergeResults s rs) r.
Proof.
  intros Hr. induction 1 as [| a rs (ka & Ha) _ IH]; intros s Hin;
    [apply (upsert_idempotent k r Hr) |].
  rewrite !mergeResults_cons.
  destruct (String.eqb_spec k ka) as [<- | Hne].
  - now rewrite (upsert_same_key k r a s Hr Ha).
  - rewrite (upsert_comm k ka r a s Hr Ha Hne).
    + apply IH. intros k' Hk'. rewrite (upsert_present ka k' a s Ha).
      destruct (String.eqb_spec ka k') as [<- | Hne']; [now rewrite orb_true_r |].
      rewrite orb_false_r. apply Hin. simpl.
      now rewrite (has_other_key ka k' a Ha Hne').
    + apply Hin. simpl. now rewrite (has_own_key ka a Ha).
Qed.

(** Merging the same results once more changes nothing. *)
Lemma mergeResults_idempotent rs :
  all_keyed rs ->
  forall s,
    Extractor.mergeResults (Extractor.mergeResults s rs) rs = Extractor.mergeResults s rs.
Proof.
  induction rs as [| r rs IH] using rev_ind; intros Hkeyed s; [reflexivity |].
  apply Forall_app in Hkeyed as [Hrs Hr].
  apply Forall_inv in Hr as (k & Hr).
  rewrite !mergeResults_snoc.
  rewrite (mergeResults_forget k r rs Hr Hrs).
  - now rewrite (IH Hrs).
  - intros k' Hk'. rewrite mergeResults_present by assumption. rewrite Hk'.
    apply orb_true_r.
Qed.

Lemma count_other_key k k' r s :
  keyed k r -> k <> k' ->
  count_key k' (Extractor.upsert s r) = count_key k' s.
Proof.
  intros Hr Hne. unfold count_key. induction s as [| row s IH].
  - rewrite upsert_nil. simpl. now rewrite (has_other_key k k' r Hr Hne).
  - rewrite (upsert_cons k r Hr). destruct (Server.has_file_name k row) eqn:Hk; simpl.
    + rewrite (has_other_key k k' r Hr Hne).
      assert (Hrow : Server.has_file_name k' row = false).
      { unfold Server.has_file_name in *.
        destruct (Js.obj_get "resume_file_name" row) as [[] |]; try discriminate.
        apply String.eqb_eq in Hk. subst. now apply String.eqb_neq. }
      now rewrite Hrow.
    + destruct (Server.has_file_name k' row); simpl; now rewrite IH.
Qed.

(** The number of rows of a key after a merge. *)
Lemma mergeResults_count k' rs :
  all_keyed rs ->
  forall s,
    count_key k' (Extractor.mergeResults s rs) =
    if existsb (Server.has_file_name k') rs
    then Nat.max 1 (count_key k' s) else count_key k' s.
Proof.
  induction 1 as [| r rs (k & Hr) _ IH]; intros s; [reflexivity |].
  rewrite mergeResults_cons, IH. simpl.
  destruct (String.eqb_spec k k') as [<- | Hne].
  - rewrite (has_own_key k r Hr), (upsert_count k r Hr). simpl.
    destruct (existsb _ rs); lia.
  - now rewrite (has_other_key k k' r Hr Hne), (count_other_key k k' r s Hr Hne).
Qed.


Lemma filter_upsert_other k k' r s :
  keyed k r -> k <> k' ->
  List.filter (Server.has_file_name k') (Extractor.upsert s r) =
  List.filter (Server.has_file_name k') s.
Proof.
  intros Hr Hne. induction s as [| row s IH].
  - rewrite upsert_nil. simpl. now rewrite (has_other_key k k' r Hr Hne).
  - rewrite (upsert_cons k r Hr). destruct (Server.has_file_name k row) eqn:Hk; simpl.
    + rewrite (has_other_key k k' r Hr Hne).
      assert (Hrow : Server.has_file_name k' row = false).
      { unfold Server.has_file_name in *.
        destruct (Js.obj_get "resume_file_name" row) as [[] |]; try discriminate.
        apply String.eqb_eq in Hk. subst. now apply String.eqb_neq. }
      now rewrite Hrow.
    + destruct (Server.has_file_name k' row); simpl; now rewrite IH.
Qed.


(** The rows of a key that no record carries stay as they are. *)
Lemma mergeResults_others k' rs :
  all_keyed rs ->
  existsb (Server.has_file_name k') rs = false ->
  forall s,
    List.filter (Server.has_file_name k') (Extractor.mergeResults s rs) =
    List.filter (Server.has_file_name k') s.
Proof.
  induction 1 as [| r rs (k & Hr) _ IH]; intros Hout s; [reflexivity |].
  simpl in Hout. apply orb_false_elim in Hout as [Hr' Hout].
  rewrite mergeResults_cons, IH by assumption.
  apply filter_upsert_other with k; [assumption |].
  intros <-. now rewrite (has_own_key k r Hr) in Hr'.
Qed.


End Merge.

Section Flushes.
Context {E : Type}.
Implicit Types (w : World E).

Lemma flushed_other workbook results failedFiles sheetName :
  sheetName <> "Resume Tags"%string -> sheetName <> "Failed Files"%string ->
  Sheets (flushed workbook results failedFiles) !! sheetName =
  Sheets workbook !! sheetName.
Proof.
  intros H1 H2. unfold flushed.
  destruct (0 <? length failedFiles)%nat; rewrite !putSheet_lookup_ne by assumption;
    reflexivity.
Qed.


End Flushes.

(** X14.  On a readable, writable store and for records with string keys:
    saving the same results a second time changes no row, and saving
    the results grown by one record after having saved the results gives
    the rows that saving the grown results at once gives.  So the save
    after each document amounts to one save at the end. *)
Theorem saveToExcel_replayed {E : Type} (results : list Row) (r : Row)
  (failedFiles failedFiles' : list string) (w : World E) :
  healthy (disk w) ->
  all_keyed (results ++ [r]) ->
  corpus (after (Extractor.saveToExcel results failedFiles')
            (after (Extractor.saveToExcel results failedFiles) w))
  = corpus (after (Extractor.saveToExcel results failedFiles) w) /\
  corpus (after (Extractor.saveToExcel (results ++ [r]) failedFiles')
            (after (Extractor.saveToExcel results failedFiles) w))
  = corpus (after (Extractor.saveToExcel (results ++ [r]) failedFiles) w).
Proof.
  intros Hh Hkeyed. unfold after.
  pose proof (saveToExcel_keeps_healthy results failedFiles w Hh) as Hh1.
  rewrite !saveToExcel_corpus by assumption.
  pose proof Hkeyed as Hall. apply Forall_app in Hall as [Hrs _].
  split.
  - now apply mergeResults_idempotent.
  - rewrite !mergeResults_snoc. now rewrite mergeResults_idempotent.
Qed.

Lemma saveToExcel_replayed_witness :
  (healthy (disk Scenario.withCorpus) /\
   all_keyed ([Scenario.record "a.pdf" "Python"] ++ [Scenario.record "c.pdf" "Rust"])) /\
  corpus (after (Extractor.saveToExcel
                   ([Scenario.record "a.pdf" "Python"] ++ [Scenario.record "c.pdf" "Rust"])
                   [])
            (after (Extractor.saveToExcel [Scenario.record "a.pdf" "Python"] [])
               Scenario.withCorpus))
  = corpus (after (Extractor.saveToExcel
                     ([Scenario.record "a.pdf" "Python"] ++ [Scenario.record "c.pdf" "Rust"])
                     [])
              Scenario.withCorpus).
Proof.
  assert (Hkeyed : all_keyed ([Scenario.record "a.pdf" "Python"]
                              ++ [Scenario.record "c.pdf" "Rust"])).
  { repeat constructor; eexists; reflexivity. }
  split; [split; [exact withCorpus_healthy | exact Hkeyed] |].
  exact (proj2 (saveToExcel_replayed [Scenario.record "a.pdf" "Python"]
                  (Scenario.record "c.pdf" "Rust") [] [] Scenario.withCorpus
                  withCorpus_healthy Hkeyed)).
Defined.

(** X15.  On a readable, writable store and for records with string keys,
    after a save a key carried by some record has as many rows as before,
    but at least one, and any other key as many as before.  So a corpus
    with at most one row for each key stays so. *)
Theorem saveToExcel_keeps_keys_unique {E : Type} (results : list Row)
  (failedFiles : list string) (w : World E) :
  healthy (disk w) ->
  all_keyed results ->
  forall k,
    count_key k (corpus (after (Extractor.saveToExcel results failedFiles) w)) =
    (if existsb (Server.has_file_name k) results
     then Nat.max 1 (count_key k (corpus w))
     else count_key k (corpus w)) /\
    ((forall k', count_key k' (corpus w) <= 1)%nat ->
     (count_key k (corpus (after (Extractor.saveToExcel results failedFiles) w)) <= 1)%nat).
Proof.
  intros Hh Hkeyed k. unfold after. rewrite saveToExcel_corpus by assumption.
  rewrite mergeResults_count by assumption. split; [reflexivity |].
  intros Hunique. specialize (Hunique k). destruct (existsb _ results); lia.
Qed.

Lemma saveToExcel_keeps_keys_unique_witness :
  (healthy (disk Scenario.withCorpus) /\
   all_keyed [Scenario.record "a.pdf" "Python"; Scenario.record "a.pdf" "Rust"]) /\
  count_key "a.pdf"
    (corpus (after (Extractor.saveToExcel
                      [Scenario.record "a.pdf" "Python"; Scenario.record "a.pdf" "Rust"]
                      [])
               Scenario.withCorpus))
  = 1%nat.
Proof.
  assert (Hkeyed : all_keyed [Scenario.record "a.pdf" "Python";
                              Scenario.record "a.pdf" "Rust"]).
  { repeat constructor; eexists; reflexivity. }
  split; [split; [exact withCorpus_healthy | exact Hkeyed] |].
  rewrite (proj1 (saveToExcel_keeps_keys_unique
                    [Scenario.record "a.pdf" "Python"; Scenario.record "a.pdf" "Rust"]
                    [] Scenario.withCorpus withCorpus_healthy Hkeyed "a.pdf")).
  vm_compute. reflexivity.
Defined.



(** X17.  On a readable, writable store and for records with string keys,
    a save leaves the rows of every key that no record carries, and every
    sheet other than "Resume Tags" and "Failed Files", as they were, and
    the store readable, writable and well formed. *)
Theorem saveToExcel_keeps_other_rows_and_sheets {E : Type} (results : list Row)
  (failedFiles : list string) (w : World E) :
  healthy (disk w) ->
  all_keyed results ->
  (forall k, existsb (Server.has_file_name k) results = false ->
     List.filter (Server.has_file_name k)
       (corpus (after (Extractor.saveToExcel results failedFiles) w))
     = List.filter (Server.has_file_name k) (corpus w)) /\
  (forall sheetName,
     sheetName <> "Resume Tags"%string -> sheetName <> "Failed Files"%string ->
     stored sheetName (after (Extractor.saveToExcel results failedFiles) w)
     = stored sheetName w) /\
  healthy (disk (after (Extractor.saveToExcel results failedFiles) w)).
Proof.
  intros Hh Hkeyed. unfold after. split; [| split].
  - intros k Hout. rewrite saveToExcel_corpus by assumption.
    now apply mergeResults_others.
  - intros sheetName H1 H2. rewrite saveToExcel_healthy by assumption.
    unfold stored at 1. simpl. rewrite flushed_other by assumption.
    unfold stored, opened. destruct (file (disk w)); reflexivity.
  - now apply saveToExcel_keeps_healthy.
Qed.

Lemma withNotes_healthy : healthy (disk Scenario.withNotes).
Proof.
  split; [reflexivity | split; [reflexivity |]].
  intros sheetName [<- | [<- | []]]; vm_compute; eauto.
Defined.

Lemma saveToExcel_keeps_other_rows_and_sheets_witness :
  (healthy (disk Scenario.withNotes) /\
   all_keyed [Scenario.record "b.pdf" "Python"]) /\
  stored "Notes"
    (after (Extractor.saveToExcel [Scenario.record "b.pdf" "Python"] ["x.pdf"])
       Scenario.withNotes)
  = stored "Notes" Scenario.withNotes /\
  List.filter (Server.has_file_name "a.pdf")
    (corpus (after (Extractor.saveToExcel [Scenario.record "b.pdf" "Python"] ["x.pdf"])
               Scenario.withNotes))
  = List.filter (Server.has_file_name "a.pdf") (corpus Scenario.withNotes).
Proof.
  assert (Hkeyed : all_keyed [Scenario.record "b.pdf" "Python"]).
  { repeat constructor; eexists; reflexivity. }
  split; [split; [exact withNotes_healthy | exact Hkeyed] |].
  destruct (saveToExcel_keeps_other_rows_and_sheets
              [Scenario.record "b.pdf" "Python"] ["x.pdf"%string] Scenario.withNotes
              withNotes_healthy Hkeyed) as (Hrows & Hsheets & _).
  split.
  - apply Hsheets; discriminate.
  - apply Hrows. reflexivity.
Defined.



(** ** Replies in a code fence *)
Section Trimming.
Variables p q : ascii -> bool.
Hypothesis q_p : forall c, q c = true -> p c = true.

Lemma all_chars_impl (p1 p2 : ascii -> bool) s :
  (forall c, p1 c = true -> p2 c = true) -> all_chars p1 s -> all_chars p2 s.
Proof. intros Himp. induction s; simpl; intuition. Qed.

Lemma drop_while_end_all s : all_chars p s -> Text.drop_while_end p s = EmptyString.
Proof.
  induction s as [| c r IH]; simpl; [reflexivity |].
  intros [Hc Hr]. now rewrite IH, Hc.
Qed.

Lemma drop_while_end_cons c r :
  p c = false -> Text.drop_while_end p (String c r) = String c (Text.drop_while_end p r).
Proof. intros Hc. simpl. destruct (Text.drop_while_end p r); now rewrite ?Hc. Qed.

Lemma drop_while_end_step c r :
  Text.drop_while_end p (String c r) =
  match Text.drop_while_end p r with
  | EmptyString => if p c then EmptyString else String c EmptyString
  | String c' r' => String c (String c' r')
  end.
Proof. reflexivity. Qed.

Lemma drop_while_end_idempotent s :
  Text.drop_while_end p (Text.drop_while_end p s) = Text.drop_while_end p s.
Proof.
  induction s as [| c r IH]; [reflexivity |].
  rewrite (drop_while_end_step c r).
  destruct (Text.drop_while_end p r) as [| c' r'] eqn:Hr.
  - destruct (p c) eqn:Hc; [reflexivity |]. simpl. now rewrite Hc.
  - now rewrite drop_while_end_step, IH.
Qed.

Lemma drop_while_idempotent s :
  Text.drop_while p (Text.drop_while p s) = Text.drop_while p s.
Proof.
  induction s as [| c r IH]; simpl; [reflexivity |].
  destruct (p c) eqn:Hc; [exact IH | simpl; now rewrite Hc].
Qed.

Lemma drop_while_drop_while_end s :
  Text.drop_while p (Text.drop_while_end p s) =
  Text.drop_while_end p (Text.drop_while p s).
Proof.
  induction s as [| c r IH]; [reflexivity |].
  destruct (p c) eqn:Hc.
  - cbn [Text.drop_while]. rewrite Hc, <- IH. cbn [Text.drop_while_end].
    destruct (Text.drop_while_end p r); simpl; now rewrite Hc.
  - rewrite (drop_while_end_cons c r Hc). simpl. rewrite Hc.
    now rewrite (drop_while_end_cons c r Hc).
Qed.

Lemma remove_empty s : Text.remove q s = EmptyString -> all_chars q s.
Proof.
  induction s as [| c r IH]; simpl; [trivial |].
  destruct (q c) eqn:Hc; [auto | discriminate].
Qed.

Lemma remove_drop_while s :
  Text.remove q (Text.drop_while p s) = Text.drop_while p (Text.remove q s).
Proof.
  induction s as [| c r IH]; simpl; [reflexivity |].
  destruct (p c) eqn:Hp, (q c) eqn:Hq; simpl; rewrite ?Hp, ?Hq; auto.
  apply q_p in Hq. congruence.
Qed.

Lemma remove_cons_false c s :
  q c = false -> Text.remove q (String c s) = String c (Text.remove q s).
Proof. intros Hq. simpl. now rewrite Hq. Qed.

Lemma remove_drop_while_end s :
  Text.remove q (Text.drop_while_end p s) = Text.drop_while_end p (Text.remove q s).
Proof.
  induction s as [| c r IH]; [reflexivity |].
  destruct (q c) eqn:Hq.
  - pose proof (q_p c Hq) as Hp.
    cbn [Text.remove]. rewrite Hq, <- IH. cbn [Text.drop_while_end].
    destruct (Text.drop_while_end p r); simpl; rewrite ?Hq, ?Hp; reflexivity.
  - rewrite (drop_while_end_step c r), (remove_cons_false c r Hq),
      drop_while_end_step, <- IH.
    destruct (Text.drop_while_end p r) as [| c' r'] eqn:Hr.
    + simpl. destruct (p c); [reflexivity |]. simpl. now rewrite Hq.
    + rewrite (remove_cons_false c _ Hq).
      destruct (Text.remove q (String c' r')) eqn:Hrem; [| reflexivity].
      exfalso. apply remove_empty in Hrem.
      apply (all_chars_impl q p) in Hrem; [| exact q_p].
      apply drop_while_end_all in Hrem.
      rewrite <- Hr, drop_while_end_idempotent, Hr in Hrem. discriminate.
Qed.

End Trimming.

Section Squeezing.
Variable p : ascii -> bool.
Hypothesis space_p : p " "%char = true.

Lemma drop_while_collapse b s :
  Text.drop_while p (Text.collapse p b s) = Text.collapse p false (Text.drop_while p s).
Proof.
  revert b; induction s as [| c r IH]; intros b; simpl; [reflexivity |].
  destruct (p c) eqn:Hc.
  - destruct b; simpl; rewrite ?space_p; apply IH.
  - simpl. now rewrite Hc.
Qed.

Lemma collapse_empty b s : Text.collapse p b s = EmptyString -> all_chars p s.
Proof.
  revert b; induction s as [| c r IH]; intros b; simpl; [trivial |].
  destruct (p c) eqn:Hc; [| discriminate].
  destruct b; [| discriminate]. eauto.
Qed.

Lemma collapse_in_class c r b :
  p c = true ->
  Text.collapse p b (String c r) =
  if b then Text.collapse p true r else String " " (Text.collapse p true r).
Proof. intros Hc. simpl. now rewrite Hc. Qed.

Lemma collapse_off_class c r b :
  p c = false -> Text.collapse p b (String c r) = String c (Text.collapse p false r).
Proof. intros Hc. simpl. now rewrite Hc. Qed.

Lemma drop_while_end_collapse b s :
  Text.drop_while_end p (Text.collapse p b s) =
  Text.collapse p b (Text.drop_while_end p s).
Proof.
  revert b; induction s as [| c r IH]; intros b; [reflexivity |].
  destruct (p c) eqn:Hc.
  - rewrite (collapse_in_class c r b Hc), (drop_while_end_step p c r).
    destruct (Text.drop_while_end p r) as [| c' r'] eqn:Hr.
    + rewrite Hc. destruct b; [apply IH |].
      rewrite drop_while_end_step, IH. simpl. now rewrite space_p.
    + rewrite (collapse_in_class c _ b Hc). destruct b; [apply IH |].
      rewrite drop_while_end_step, IH.
      destruct (Text.collapse p true (String c' r')) eqn:Hcol; [| reflexivity].
      exfalso. apply collapse_empty, (drop_while_end_all p) in Hcol.
      rewrite <- Hr, drop_while_end_idempotent, Hr in Hcol. discriminate.
  - rewrite (collapse_off_class c r b Hc), !(drop_while_end_cons p c _ Hc), IH.
    now rewrite (collapse_off_class c _ b Hc).
Qed.

End Squeezing.

Section Normal.

Lemma lineFeed_space c : lineFeed c = true -> Text.is_space c = true.
Proof.
  unfold lineFeed, Text.is_space. intros Hc. apply Nat.eqb_eq in Hc. now rewrite Hc.
Qed.

Lemma trim_idempotent s : Text.trim (Text.trim s) = Text.trim s.
Proof.
  unfold Text.trim.
  now rewrite drop_while_drop_while_end, drop_while_idempotent, drop_while_end_idempotent.
Qed.

(** Squeezing and trimming can be done in either order. *)
Lemma normal_form s :
  Text.trim (Text.collapse Text.is_space false (Text.remove lineFeed s)) =
  Text.collapse Text.is_space false (Text.remove lineFeed (Text.trim s)).
Proof.
  unfold Text.trim.
  rewrite (remove_drop_while_end _ _ lineFeed_space),
          (remove_drop_while _ _ lineFeed_space).
  now rewrite drop_while_collapse, drop_while_end_collapse by reflexivity.
Qed.

Lemma normal_trim s :
  Text.trim (Text.collapse Text.is_space false (Text.remove lineFeed (Text.trim s))) =
  Text.trim (Text.collapse Text.is_space false (Text.remove lineFeed s)).
Proof. now rewrite !normal_form, trim_idempotent. Qed.

End Normal.

Section Fences.

Lemma substring_all s : String.substring 0 (String.length s) s = s.
Proof. induction s as [| c r IH]; simpl; [reflexivity | now rewrite IH]. Qed.

Lemma strip_backticks_step c r :
  Text.strip_backticks (String c r) =
  if Text.is_backtick c then
    match r with
    | String c1 (String c2 r3) =>
        if Text.is_backtick c1 && Text.is_backtick c2 then Text.strip_backticks r3
        else Text.strip_backticks r
    | _ => Text.strip_backticks r
    end
  else String c (Text.strip_backticks r).
Proof. reflexivity. Qed.

Lemma remove_cons p c r :
  Text.remove p (String c r) =
  if p c then Text.remove p r else String c (Text.remove p r).
Proof. reflexivity. Qed.

Lemma strip_backticks_remove s :
  Text.strip_backticks s = Text.remove Text.is_backtick s.
Proof.
  assert (Hlen : forall n s, (String.length s <= n)%nat ->
             Text.strip_backticks s = Text.remove Text.is_backtick s).
  { induction n as [| n IH]; intros [| c r] Hle; try reflexivity; [simpl in Hle; lia |].
    rewrite strip_backticks_step, remove_cons.
    cbn [String.length] in Hle.
    destruct (Text.is_backtick c) eqn:Hc; [| f_equal; apply IH; lia].
    destruct r as [| c1 [| c2 r3]]; [reflexivity | apply IH; simpl in *; lia |].
    cbn [String.length] in Hle.
    destruct (Text.is_backtick c1) eqn:H1, (Text.is_backtick c2) eqn:H2; cbn [andb];
      try (apply IH; cbn [String.length]; lia).
    rewrite !remove_cons, H1, H2. apply IH. lia. }
  eauto.
Qed.

Lemma remove_app p s t :
  Text.remove p (s ++ t) = (Text.remove p s ++ Text.remove p t)%string.
Proof.
  induction s as [| c r IH]; [reflexivity |].
  change (String c r ++ t)%string with (String c (r ++ t)).
  rewrite !remove_cons, IH. now destruct (p c).
Qed.

Lemma remove_none p s :
  all_chars (fun c => negb (p c)) s -> Text.remove p s = s.
Proof.
  induction s as [| c r IH]; simpl; [reflexivity |].
  intros [Hc Hr]. apply negb_true_iff in Hc. now rewrite Hc, IH.
Qed.

Lemma drop_while_none p s :
  all_chars (fun c => negb (p c)) s -> Text.drop_while p s = s.
Proof.
  destruct s as [| c r]; simpl; [reflexivity |].
  intros [Hc _]. apply negb_true_iff in Hc. now rewrite Hc.
Qed.

Lemma drop_while_end_none p s :
  all_chars (fun c => negb (p c)) s -> Text.drop_while_end p s = s.
Proof.
  induction s as [| c r IH]; [reflexivity |].
  intros [Hc Hr]. apply negb_true_iff in Hc.
  now rewrite (drop_while_end_cons p c r Hc), IH.
Qed.

Lemma drop_while_end_app_all p s t :
  all_chars p t -> Text.drop_while_end p (s ++ t) = Text.drop_while_end p s.
Proof.
  intros Ht. induction s as [| c r IH].
  - now apply drop_while_end_all.
  - change (String c r ++ t)%string with (String c (r ++ t)).
    now rewrite !drop_while_end_step, IH.
Qed.

Lemma drop_while_app_all p s t :
  all_chars p s -> Text.drop_while p (s ++ t) = Text.drop_while p t.
Proof.
  induction s as [| c r IH]; [reflexivity |].
  intros [Hc Hr]. change (String c r ++ t)%string with (String c (r ++ t)).
  cbn [Text.drop_while]. rewrite Hc. auto.
Qed.

Lemma all_chars_app p s t : all_chars p s -> all_chars p t -> all_chars p (s ++ t).
Proof.
  induction s as [| c r IH]; [trivial |].
  intros [Hc Hr] Ht. change (String c r ++ t)%string with (String c (r ++ t)).
  split; auto.
Qed.

Lemma unfenced_no_prefix s :
  unfenced s -> Text.strip_json_fences s = s.
Proof.
  intros Hs. unfold Text.strip_json_fences, Text.strip_prefix.
  assert (Hpre : String.prefix
                   (String Text.backtick (String Text.backtick
                      (String Text.backtick "json"))) s = false).
  { destruct s as [| c r]; [reflexivity |]. destruct Hs as [Hc _].
    cbn [String.prefix].
    destruct (ascii_dec Text.backtick c) as [<- | Hne]; [discriminate | reflexivity]. }
  rewrite Hpre, strip_backticks_remove. now apply remove_none.
Qed.

Lemma string_app_assoc (s t u : string) : ((s ++ t) ++ u = s ++ t ++ u)%string.
Proof.
  induction s as [| c r IH]; [reflexivity |].
  change (String c ((r ++ t) ++ u) = String c (r ++ t ++ u))%string. now rewrite IH.
Qed.

Lemma string_app_nil (s : string) : (s ++ "")%string = s.
Proof.
  induction s as [| c r IH]; [reflexivity |].
  change (String c (r ++ "") = String c r)%string. now rewrite IH.
Qed.

Lemma prefix_app p s : String.prefix p (p ++ s) = true.
Proof.
  induction p as [| c r IH]; [now destruct s |].
  change (String.prefix (String c r) (String c (r ++ s)) = true).
  cbn [String.prefix]. destruct (ascii_dec c c); [exact IH | congruence].
Qed.

Lemma strip_prefix_app p s : Text.strip_prefix p (p ++ s) = Some s.
Proof.
  unfold Text.strip_prefix. rewrite prefix_app. f_equal.
  induction p as [| c r IH]; simpl.
  - rewrite Nat.sub_0_r. apply substring_all.
  - exact IH.
Qed.

Lemma strip_json_fences_tagged s :
  Text.strip_json_fences ("```json" ++ s) = Text.remove Text.is_backtick s.
Proof.
  unfold Text.strip_json_fences.
  change (String Text.backtick (String Text.backtick (String Text.backtick "json")))
    with "```json"%string.
  now rewrite strip_prefix_app, strip_backticks_remove.
Qed.

Lemma drop_while_end_last p s c :
  p c = false ->
  Text.drop_while_end p (s ++ String c EmptyString) = (s ++ String c EmptyString)%string.
Proof.
  intros Hc. induction s as [| a r IH].
  - change (Text.drop_while_end p (String c EmptyString) = String c EmptyString).
    simpl. now rewrite Hc.
  - change (String a r ++ String c EmptyString)%string
      with (String a (r ++ String c EmptyString)).
    rewrite drop_while_end_step, IH. now destruct r.
Qed.

Lemma fence_ticks s :
  ("```" ++ s ++ "```")%string = String "`" (("``" ++ s ++ "``") ++ "`").
Proof.
  change (String "`" (String "`" (String "`" (s ++ "```"))) =
          String "`" (String "`" (String "`" ((s ++ "``") ++ "`"))))%string.
  now rewrite string_app_assoc.
Qed.

(** A text between backticks has nothing to trim. *)
Lemma trim_ticked s :
  Text.trim (String "`" (s ++ "`")) = String "`" (s ++ "`").
Proof.
  unfold Text.trim. cbn [Text.drop_while].
  change (Text.is_space "`") with false. cbv iota.
  apply (drop_while_end_last Text.is_space (String "`" s) "`"). reflexivity.
Qed.

Lemma remove_ticks : Text.remove Text.is_backtick "```" = EmptyString.
Proof. reflexivity. Qed.

(** The cleaning of [server.js] on a text in a [json] fence. *)
Lemma server_clean_fence body :
  unfenced body ->
  Server.clean ("```json" ++ body ++ "```") = Server.clean body.
Proof.
  intros Hbody. unfold Server.clean.
  change (fun c => (Text.code c =? 10)%nat) with lineFeed.
  rewrite (unfenced_no_prefix (Text.trim body)) by now apply all_chars_trim.
  rewrite (normal_trim body).
  change ("```json" ++ body ++ "```")%string
    with ("```" ++ ("json" ++ body) ++ "```")%string at 1.
  rewrite fence_ticks, trim_ticked, <- fence_ticks.
  change ("```" ++ ("json" ++ body) ++ "```")%string
    with ("```json" ++ body ++ "```")%string.
  rewrite strip_json_fences_tagged, remove_app, remove_ticks.
  rewrite (remove_none _ body Hbody).
  now rewrite string_app_nil.
Qed.

Lemma strip_edge_unfenced s :
  unfenced s -> Text.strip_edge_backticks s = s.
Proof.
  intros Hs. unfold Text.strip_edge_backticks.
  rewrite (drop_while_none _ s Hs). now apply drop_while_end_none.
Qed.

Lemma drop_while_head p c r :
  p c = false -> Text.drop_while p (String c r) = String c r.
Proof. intros Hc. simpl. now rewrite Hc. Qed.

Lemma strip_edge_fenced s :
  unfenced s -> Text.strip_edge_backticks ("```" ++ s ++ "```") = s.
Proof.
  intros Hs. unfold Text.strip_edge_backticks.
  rewrite (drop_while_app_all Text.is_backtick "```") by (simpl; auto).
  destruct s as [| c r]; [reflexivity |].
  change (String c r ++ "```")%string with (String c (r ++ "```")).
  rewrite drop_while_head by (destruct Hs as [Hc _]; now apply negb_true_iff in Hc).
  change (String c (r ++ "```")) with (String c r ++ "```")%string.
  rewrite drop_while_end_app_all by (simpl; auto).
  now apply drop_while_end_none.
Qed.

Lemma extractor_clean_fence body :
  unfenced body ->
  Extractor.clean ("```" ++ body ++ "```") = Extractor.clean body.
Proof.
  intros Hbody. unfold Extractor.clean.
  change (fun c => (Text.code c =? 10)%nat) with lineFeed.
  rewrite (strip_edge_unfenced (Text.trim body)) by now apply all_chars_trim.
  rewrite (normal_trim body).
  rewrite fence_ticks, trim_ticked, <- fence_ticks.
  now rewrite strip_edge_fenced.
Qed.

(** In the cleaning of [s3_extractor.js] the tag of a [json] fence stays. *)
Lemma extractor_clean_tagged body :
  unfenced body ->
  Extractor.clean ("```json" ++ body ++ "```") =
  ("json" ++ Text.collapse Text.is_space false
               (Text.remove lineFeed (Text.drop_while_end Text.is_space body)))%string.
Proof.
  intros Hbody. unfold Extractor.clean.
  change (fun c => (Text.code c =? 10)%nat) with lineFeed.
  change ("```json" ++ body ++ "```")%string
    with ("```" ++ ("json" ++ body) ++ "```")%string.
  rewrite fence_ticks, trim_ticked, <- fence_ticks.
  rewrite strip_edge_fenced by (apply all_chars_app; [simpl; auto | exact Hbody]).
  rewrite normal_form. unfold Text.trim.
  change ("json" ++ body)%string
    with (String "j" (String "s" (String "o" (String "n" body)))).
  rewrite drop_while_head by reflexivity.
  rewrite !(drop_while_end_cons Text.is_space) by reflexivity.
  reflexivity.
Qed.

End Fences.

Lemma node_rejects_json_tag s : Node.JSON_parse ("json" ++ s) = None.
Proof.
  unfold Node.JSON_parse.
  change ("json" ++ s)%string with (String "j" (String "s" (String "o" (String "n" s)))).
  cbn [String.length Nat.mul Nat.add Node.read_value].
  reflexivity.
Qed.

Lemma fencedBody_unfenced : unfenced Scenario.fencedBody.
Proof. vm_compute. repeat split. Defined.

(** X19.  [parseLLMOutput] of [server.js] reads a reply wrapped in a
    [json] code fence, with any white space around the fence, as it reads
    the text inside the fence. *)
Theorem server_parses_fenced_reply {rt : Runtime} (raw body : string) :
  Text.trim raw = ("```json" ++ body ++ "```")%string ->
  unfenced body ->
  Server.clean raw = Server.clean body /\
  Server.parseLLMOutput raw = Server.parseLLMOutput body.
Proof.
  intros Htrim Hbody.
  assert (Hclean : Server.clean raw = Server.clean body).
  { rewrite <- (server_clean_fence body Hbody), <- Htrim.
    unfold Server.clean. now rewrite trim_idempotent. }
  split; [exact Hclean |]. unfold Server.parseLLMOutput. now rewrite Hclean.
Qed.

Lemma server_parses_fenced_reply_witness :
  (Text.trim Scenario.fencedReply = ("```json" ++ Scenario.fencedBody ++ "```")%string /\
   unfenced Scenario.fencedBody) /\
  Server.parseLLMOutput (rt := Node.runtime) Scenario.fencedReply
  = Server.parseLLMOutput (rt := Node.runtime) Scenario.fencedBody.
Proof.
  split; [split; [vm_compute; reflexivity | exact fencedBody_unfenced] |].
  apply (server_parses_fenced_reply (rt := Node.runtime) Scenario.fencedReply
           Scenario.fencedBody).
  - vm_compute. reflexivity.
  - exact fencedBody_unfenced.
Defined.

(** X20.  [parseLLMOutput] of [s3_extractor.js] only strips the backticks
    of such a fence: the language tag stays, the cleaned text begins with
    [json], and with a [JSON.parse] that refuses such a text (as it must)
    the result is the empty tag record.  A fence without a tag is read as
    the text inside it. *)
Theorem extractor_loses_tagged_fence {rt : Runtime} (raw body : string) :
  Text.trim raw = ("```json" ++ body ++ "```")%string ->
  unfenced body ->
  (exists rest, Extractor.clean raw = ("json" ++ rest)%string) /\
  ((forall s, JSON_parse ("json" ++ s) = None) ->
   Extractor.parseLLMOutput raw = Extractor.emptyTags) /\
  Extractor.parseLLMOutput ("```" ++ body ++ "```") = Extractor.parseLLMOutput body.
Proof.
  intros Htrim Hbody.
  assert (Hclean : Extractor.clean raw = Extractor.clean ("```json" ++ body ++ "```")).
  { rewrite <- Htrim. unfold Extractor.clean. now rewrite trim_idempotent. }
  rewrite (extractor_clean_tagged body Hbody) in Hclean.
  split; [eauto |]. split.
  - intros Hreject. unfold Extractor.parseLLMOutput. now rewrite Hclean, Hreject.
  - unfold Extractor.parseLLMOutput. now rewrite (extractor_clean_fence body Hbody).
Qed.

Lemma extractor_loses_tagged_fence_witness :
  (Text.trim Scenario.fencedReply = ("```json" ++ Scenario.fencedBody ++ "```")%string /\
   unfenced Scenario.fencedBody) /\
  Extractor.parseLLMOutput (rt := Node.runtime) Scenario.fencedReply
  = Extractor.emptyTags /\
  Server.parseLLMOutput (rt := Node.runtime) Scenario.fencedReply
  = Scenario.pythonTags.
Proof.
  split; [split; [vm_compute; reflexivity | exact fencedBody_unfenced] |].
  split; [| vm_compute; reflexivity].
  apply (extractor_loses_tagged_fence (rt := Node.runtime) Scenario.fencedReply
           Scenario.fencedBody).
  - vm_compute. reflexivity.
  - exact fencedBody_unfenced.
  - exact node_rejects_json_tag.
Defined.

Section Twice.

Lemma collapse_idempotent p b s :
  p " "%char = true ->
  Text.collapse p b (Text.collapse p b s) = Text.collapse p b s.
Proof.
  intros Hsp. revert b; induction s as [| c r IH]; intros b; [reflexivity |].
  destruct (p c) eqn:Hc.
  - rewrite (collapse_in_class p c r b Hc). destruct b; [apply IH |].
    rewrite (collapse_in_class p " " _ false Hsp). now rewrite IH.
  - rewrite (collapse_off_class p c r b Hc), (collapse_off_class p c _ b Hc).
    now rewrite IH.
Qed.

(** Cleaning a cleaned text changes nothing. *)
Lemma server_clean_idempotent raw :
  Server.clean (Server.clean raw) = Server.clean raw.
Proof.
  destruct (server_clean_normal raw) as [Hticks Hspaces].
  assert (Hlines : all_chars (fun c => negb (lineFeed c)) (Server.clean raw)).
  { revert Hspaces. apply all_chars_impl. intros c Hc.
    destruct (lineFeed c) eqn:Hlf; [| reflexivity].
    pose proof (lineFeed_space c Hlf) as Hsp. rewrite Hsp in Hc. simpl in Hc.
    apply Ascii.eqb_eq in Hc. subst c. discriminate. }
  assert (Htrim : Text.trim (Server.clean raw) = Server.clean raw).
  { unfold Server.clean. apply trim_idempotent. }
  assert (Hsqueeze : Text.collapse Text.is_space false (Server.clean raw)
                     = Server.clean raw).
  { unfold Server.clean at 1 2.
    change (fun c => (Text.code c =? 10)%nat) with lineFeed.
    rewrite normal_form. now apply collapse_idempotent. }
  unfold Server.clean at 1.
  change (fun c => (Text.code c =? 10)%nat) with lineFeed.
  rewrite Htrim, (unfenced_no_prefix _ Hticks), (remove_none _ _ Hlines), Hsqueeze.
  exact Htrim.
Qed.

End Twice.

(** X21.  The cleaning of [parseLLMOutput] of [server.js] is idempotent:
    cleaning a cleaned text changes nothing, so a cleaned reply is parsed
    as the reply is.  The cleaning of [s3_extractor.js] is not: it only
    strips the backticks at the two ends, and a second pass can find
    more. *)
Theorem server_clean_twice {rt : Runtime} (raw : string) :
  Server.clean (Server.clean raw) = Server.clean raw /\
  Server.parseLLMOutput (Server.clean raw) = Server.parseLLMOutput raw /\
  exists text, Extractor.clean (Extractor.clean text) <> Extractor.clean text.
Proof.
  pose proof (server_clean_idempotent raw) as Hclean.
  split; [exact Hclean |]. split.
  - unfold Server.parseLLMOutput. now rewrite Hclean.
  - exists "` `x"%string. vm_compute. discriminate.
Qed.

(** ** The repairs of [findBestResumes] *)
Section Repairs.
Variable p : ascii -> bool.

Lemma all_chars_span q s a b :
  all_chars p s -> Text.span q s = (a, b) -> all_chars p a /\ all_chars p b.
Proof.
  revert a b; induction s as [| c r IH]; simpl; intros a b Hs.
  - intros [= <- <-]. simpl. auto.
  - destruct Hs as [Hc Hr]. destruct (q c).
    + destruct (Text.span q r) as [a' b']. intros [= <- <-].
      destruct (IH a' b' Hr eq_refl). simpl. auto.
    + intros [= <- <-]. simpl. auto.
Qed.

Lemma all_chars_match_trailing_comma s rest :
  all_chars p s -> Text.match_trailing_comma s = Some rest -> all_chars p rest.
Proof.
  unfold Text.match_trailing_comma. destruct s as [| c r]; [discriminate |].
  intros [_ Hr]. apply (all_chars_drop_while p Text.is_space) in Hr.
  destruct (Ascii.eqb_spec c ","%char) as [-> | Hne].
  - destruct (Text.drop_while Text.is_space r) as [| c1 r1]; [discriminate |].
    destruct Hr as [_ Hr1].
    destruct (Ascii.eqb_spec c1 "}"%char) as [-> | Hne1].
    + now intros [= <-].
    + destruct c1 as [[] [] [] [] [] [] [] []]; try discriminate. congruence.
  - destruct c as [[] [] [] [] [] [] [] []]; try discriminate. congruence.
Qed.

Lemma all_chars_match_bare_key s c key rest :
  all_chars p s -> Text.match_bare_key s = Some (c, key, rest) ->
  p c = true /\ all_chars p key /\ all_chars p rest.
Proof.
  unfold Text.match_bare_key. destruct s as [| c0 r]; [discriminate |].
  intros [Hc Hr]. destruct (_ || _); [| discriminate].
  apply (all_chars_drop_while p Text.is_space) in Hr.
  destruct (Text.span Text.is_word (Text.drop_while Text.is_space r)) as [k r2] eqn:Hspan.
  destruct (all_chars_span _ _ _ _ Hr Hspan) as [Hk Hr2].
  apply (all_chars_drop_while p Text.is_space) in Hr2.
  destruct k as [| k0 k']; [discriminate |].
  destruct (Text.drop_while Text.is_space r2) as [| c1 r3]; [discriminate |].
  destruct Hr2 as [_ Hr3].
  destruct (Ascii.eqb_spec c1 ":"%char) as [-> | Hne].
  - intros [= <- <- <-]. auto.
  - destruct c1 as [[] [] [] [] [] [] [] []]; try discriminate. congruence.
Qed.

Hypothesis p_brace : p "}"%char = true.
Hypothesis p_quote : p Text.quote = true.
Hypothesis p_colon : p ":"%char = true.

Lemma all_chars_drop_trailing_commas n s :
  all_chars p s -> all_chars p (Text.drop_trailing_commas_from n s).
Proof.
  revert s; induction n as [| n IH]; intros s Hs; [exact Hs |].
  destruct s as [| c r]; [exact I |].
  cbn [Text.drop_trailing_commas_from].
  destruct (Text.match_trailing_comma (String c r)) as [rest |] eqn:Hmatch.
  - split; [exact p_brace |]. apply IH. eapply all_chars_match_trailing_comma; eauto.
  - destruct Hs as [Hc Hr]. split; auto.
Qed.

Lemma all_chars_quote_bare_keys n s :
  all_chars p s -> all_chars p (Text.quote_bare_keys_from n s).
Proof.
  revert s; induction n as [| n IH]; intros s Hs; [exact Hs |].
  destruct s as [| c r]; [exact I |].
  cbn [Text.quote_bare_keys_from].
  destruct (Text.match_bare_key (String c r)) as [[[c1 key] rest] |] eqn:Hmatch.
  - destruct (all_chars_match_bare_key _ _ _ _ Hs Hmatch) as (Hc1 & Hkey & Hrest).
    split; [exact Hc1 |]. split; [exact p_quote |].
    apply all_chars_app; [exact Hkey |].
    split; [exact p_quote |]. split; [exact p_colon |]. now apply IH.
  - destruct Hs as [Hc Hr]. split; auto.
Qed.

End Repairs.

Section Repaired.

Lemma double_quotes_plain s :
  all_chars (fun c => negb (Text.is_newline c)) s ->
  all_chars plain (Text.double_quotes s).
Proof.
  unfold Text.double_quotes, plain. induction s as [| c r IH]; simpl; [trivial |].
  intros [Hc Hr]. split; [| auto].
  destruct (Text.code c =? 39)%nat eqn:Hq; [reflexivity |].
  now rewrite Hq, Hc.
Qed.

Lemma collapse_newlines b s :
  all_chars (fun c => negb (Text.is_newline c)) (Text.collapse Text.is_newline b s).
Proof.
  revert b; induction s as [| c r IH]; intros b; simpl; [trivial |].
  destruct (Text.is_newline c) eqn:Hc; [destruct b |]; simpl; auto.
  split; auto. now rewrite Hc.
Qed.

(** After the repairs the text has no apostrophe and no line break. *)
Lemma repair_plain content : all_chars plain (Server.repair content).
Proof.
  unfold Server.repair, Text.quote_bare_keys, Text.drop_trailing_commas.
  apply all_chars_trim, all_chars_quote_bare_keys; try reflexivity.
  apply all_chars_drop_trailing_commas; [reflexivity |].
  apply double_quotes_plain, collapse_newlines.
Qed.

End Repaired.

(** X22.  The text that [findBestResumes] hands to [JSON.parse], after the
    repairs and after the extraction of the braces, holds no apostrophe,
    no carriage return and no line feed, whatever the reply was. *)
Theorem repair_leaves_no_apostrophe (content : string) :
  all_chars plain (Server.repair content) /\
  all_chars plain (Server.extract_object (Server.repair content)).
Proof.
  pose proof (repair_plain content) as Hplain. split; [exact Hplain |].
  unfold Server.extract_object, Text.match_braces.
  destruct (Text.through_last_brace _) as [jsonMatch |] eqn:Hmatch; [| exact Hplain].
  apply (all_chars_drop_while plain (fun c => negb (Text.code c =? 123)%nat)) in Hplain.
  revert jsonMatch Hmatch Hplain.
  generalize (Text.drop_while (fun c => negb (Text.code c =? 123)%nat)
                (Server.repair content)).
  induction s as [| c r IH]; simpl; intros jsonMatch; [discriminate |].
  intros Hmatch [Hc Hr]. destruct (Text.through_last_brace r) as [r' |].
  - injection Hmatch as <-. simpl. auto.
  - destruct (Text.code c =? 125)%nat; [| discriminate].
    injection Hmatch as <-. simpl. auto.
Qed.
